(** * Surgery follow-up notifications: Slack helpers and the reminder sweep

    A shallow embedding of [app/integrations/slack_helpers.py] (class
    [SlackClient]) and of the view [surgery_notification] of
    [app/main/views.py], followed by the properties of the notification
    engine that the specification states.

    Conventions of the embedding:
    - Python code that logs, calls the Slack Web API, fills an [lru_cache]
      or raises is written in the monad [M S], a state monad over [S] whose
      computations end in a value ([Ret]) or in a raised exception
      ([Raise]); the state survives a raise, as the log, the caches and
      the counters of the view do.
    - The Slack workspace behind [WebClient] is a [slack_service]: what it
      answers to each request.  A listing ([conversations_list],
      [users_list]) is a finite chain of pages linked by cursors, the same
      at every scan: the directory does not change during a run, and a
      scan of it ends.
    - The record store (DataJoint) is a [record_store]: what each [fetch]
      of the view returns or raises.
    - What the view reads from its surroundings is an argument: the parsed
      query flags [force] and [test], today's date as a day number, the
      environment of [SlackClient()], and the library functions
      [str.title], [url_for] and the ISO format of a date. *)

From Stdlib Require Import ZArith String Ascii List Bool Lia.
From stdpp Require Import base option list strings pretty gmap.

Local Open Scope Z_scope.
Local Open Scope string_scope.

(** ** Exceptions and the state-and-exception monad *)

(** [SlackApiError] carries its message and what
    [getattr(e, 'response', None)] gives: [None] when absent or falsy,
    otherwise [Some] of [response.get('error')]. *)
Inductive exn : Type :=
| SlackApiError (msg : string) (response : option (option string))
| OtherException (msg : string).

(** [str(e)] *)
Definition exn_str (e : exn) : string :=
  match e with
  | SlackApiError msg _ => msg
  | OtherException msg => msg
  end.

Definition is_SlackApiError (e : exn) : bool :=
  match e with SlackApiError _ _ => true | OtherException _ => false end.

Inductive outcome (A : Type) : Type :=
| Ret (a : A)
| Raise (e : exn).
Arguments Ret {A} a.
Arguments Raise {A} e.

Definition M (S A : Type) : Type := S -> outcome A * S.

Definition ret {S A} (a : A) : M S A := fun s => (Ret a, s).

Definition raise {S A} (e : exn) : M S A := fun s => (Raise e, s).

Definition bind {S A B} (m : M S A) (k : A -> M S B) : M S B :=
  fun s =>
    match m s with
    | (Ret a, s') => k a s'
    | (Raise e, s') => (Raise e, s')
    end.

#[global] Instance M_ret {S} : MRet (M S) := fun A => @ret S A.
#[global] Instance M_bind {S} : MBind (M S) := fun A B k m => @bind S A B m k.

(** [try: body / except Exception as e: handler e] *)
Definition try_except {S A} (body : M S A) (handler : exn -> M S A) : M S A :=
  fun s =>
    match body s with
    | (Ret a, s') => (Ret a, s')
    | (Raise e, s') => handler e s'
    end.

(** [try: body / except SlackApiError as e: handler e]: any other
    exception goes on to the caller. *)
Definition try_except_SlackApiError {S A}
    (body : M S A) (handler : exn -> M S A) : M S A :=
  try_except body
    (fun e => if is_SlackApiError e then handler e else raise e).

(** [try: body / except Exception as e: handler e / else: orelse]: the
    [else] suite runs after a body that did not raise and is not guarded
    by the handler. *)
Definition try_except_else {S A B}
    (body : M S A) (handler : exn -> M S B) (orelse : M S B) : M S B :=
  fun s =>
    match body s with
    | (Ret _, s') => orelse s'
    | (Raise e, s') => handler e s'
    end.

(** [try: body / except Exception: pass] *)
Definition try_pass {S} (body : M S unit) : M S unit :=
  try_except body (fun _ => ret tt).

(** ** Python strings *)

(** Truth value of an [Optional[str]]: [None] and [""] are falsy. *)
Definition truthy (s : option string) : bool :=
  match s with
  | None | Some "" => false
  | Some _ => true
  end.

(** [s.lstrip(c)] for a one-character [c]. *)
Fixpoint lstrip (c : ascii) (s : string) : string :=
  match s with
  | String a rest => if Ascii.eqb a c then lstrip c rest else s
  | EmptyString => s
  end.

(** [s.startswith(c)] for a one-character [c]. *)
Definition startswith (c : ascii) (s : string) : bool :=
  match s with
  | String a _ => Ascii.eqb a c
  | EmptyString => false
  end.

(** [f"{x}"] for an [Optional[str]]. *)
Definition fmt_opt (s : option string) : string :=
  match s with Some x => x | None => "None" end.

(** [sep.join(l)] *)
Fixpoint join (sep : string) (l : list string) : string :=
  match l with
  | [] => ""
  | [x] => x
  | x :: rest => x +:+ sep +:+ join sep rest
  end.

(** ** The Slack side *)

(** A channel object of [conversations.list]; a missing key is [None]. *)
Record channel : Type := {
  ch_name : option string;
  ch_id : option string;
}.

(** The [profile] object of a member. *)
Record profile : Type := {
  display_name : option string;
  real_name : option string;
}.

(** A member object of [users.list]. *)
Record member : Type := {
  deleted : bool;
  m_name : option string;
  m_profile : option profile;
  m_id : option string;
}.

(** What the service answers to a scan that starts without a cursor:
    the request raises, or it returns a page, with or without a
    [next_cursor]; [rest] is what the request with that cursor is
    answered. *)
Inductive listing (A : Type) : Type :=
| LastPage (items : list A)
| NextPage (items : list A) (next_cursor : string) (rest : listing A)
| ListFails (e : exn).
Arguments LastPage {A} items.
Arguments NextPage {A} items next_cursor rest.
Arguments ListFails {A} e.

(** The requests sent to the Web API, in the order they are sent. *)
Inductive api_call : Type :=
| ConversationsList (cursor : option string)
| UsersList (cursor : option string)
| ConversationsOpen (users : string)
| ChatPostMessage (chan text : string).

(** The workspace behind [WebClient].  [conversations_open] answers the
    [channel] object's [id] ([None] without a channel object, [Some None]
    for one without [id]); [chat_postMessage] answers the response
    ([None] for a falsy one) with its [ts].  Both may depend on the
    requests made before. *)
Record slack_service : Type := {
  conversations_list : listing channel;
  users_list : listing member;
  conversations_open : list api_call -> string -> outcome (option (option string));
  chat_postMessage :
    list api_call -> string -> string -> outcome (option (option string));
}.

(** ** Logging and the process state *)

Inductive log_record : Type :=
| LogInfo (line : string)
| LogWarning (line : string)
| LogException (line : string).

(** An [lru_cache]: the entries, most recently used first.  The key is
    the argument tuple of the method, [(self, arg)]. *)
Definition lru_key : Type := nat * option string.
Definition lru : Type := list (lru_key * option string).

Record world : Type := {
  logs : list log_record;
  calls : list api_call;
  channel_cache : lru;
  user_cache : lru;
  dm_cache : lru;
}.

Definition add_log (r : log_record) (w : world) : world :=
  {| logs := logs w ++ [r]; calls := calls w;
     channel_cache := channel_cache w; user_cache := user_cache w;
     dm_cache := dm_cache w |}.

Definition add_call (c : api_call) (w : world) : world :=
  {| logs := logs w; calls := calls w ++ [c];
     channel_cache := channel_cache w; user_cache := user_cache w;
     dm_cache := dm_cache w |}.

Definition set_channel_cache (c : lru) (w : world) : world :=
  {| logs := logs w; calls := calls w;
     channel_cache := c; user_cache := user_cache w;
     dm_cache := dm_cache w |}.

Definition set_user_cache (c : lru) (w : world) : world :=
  {| logs := logs w; calls := calls w;
     channel_cache := channel_cache w; user_cache := c;
     dm_cache := dm_cache w |}.

Definition set_dm_cache (c : lru) (w : world) : world :=
  {| logs := logs w; calls := calls w;
     channel_cache := channel_cache w; user_cache := user_cache w;
     dm_cache := c |}.

Definition logger (r : log_record) : M world unit :=
  fun w => (Ret tt, add_log r w).

Definition api_request (c : api_call) : M world unit :=
  fun w => (Ret tt, add_call c w).

Definition get_calls : M world (list api_call) :=
  fun w => (Ret (calls w), w).

Definition of_outcome {S A} (o : outcome A) : M S A :=
  fun s => (o, s).

(** ** [functools.lru_cache] *)

Definition maxsize : nat := 256.

Definition lru_key_eqb (k1 k2 : lru_key) : bool :=
  bool_decide (k1 = k2).

Fixpoint lru_lookup (k : lru_key) (c : lru) : option (option string) :=
  match c with
  | [] => None
  | (k', v) :: rest => if lru_key_eqb k k' then Some v else lru_lookup k rest
  end.

Fixpoint lru_remove (k : lru_key) (c : lru) : lru :=
  match c with
  | [] => []
  | (k', v) :: rest =>
      if lru_key_eqb k k' then rest else (k', v) :: lru_remove k rest
  end.

(** A hit moves the entry to the front. *)
Definition lru_touch (k : lru_key) (v : option string) (c : lru) : lru :=
  (k, v) :: lru_remove k c.

(** After a miss: nothing when the key is there by now; otherwise the new
    entry goes to the front, and the oldest one goes when the cache is
    full. *)
Definition lru_store (k : lru_key) (v : option string) (c : lru) : lru :=
  match lru_lookup k c with
  | Some _ => c
  | None =>
      if (maxsize <=? length c)%nat
      then (k, v) :: removelast c
      else (k, v) :: c
  end.

(** The wrapper [lru_cache] puts around a method: a result is stored when
    the method returns, not when it raises. *)
Definition lru_cached
    (get : world -> lru) (set : lru -> world -> world)
    (f : M world (option string)) (k : lru_key) : M world (option string) :=
  fun w =>
    match lru_lookup k (get w) with
    | Some v => (Ret v, set (lru_touch k v (get w)) w)
    | None =>
        match f w with
        | (Ret v, w') => (Ret v, set (lru_store k v (get w')) w')
        | (Raise e, w') => (Raise e, w')
        end
    end.

(** ** [SlackEnv], [SlackEnvConfig] and [SlackClient] *)

Module SlackEnv.
Definition BOT_TOKEN : string := "SLACK_BOT_TOKEN".
Definition NOTIFY_DRY_RUN : string := "SLACK_NOTIFY_DRY_RUN".
Definition SHIKIGAMI_CHANNEL : string := "SLACK_SHIKIGAMI_CHANNEL".
Definition SHIKIGAMI_MANAGER : string := "SLACK_SHIKIGAMI_MANAGER".
Definition SHIKIGAMI_MANAGER_DM : string := "SLACK_SHIKIGAMI_MANAGER_DM".
Definition SURGERY_CHANNEL : string := "SLACK_SURGERY_CHANNEL".
Definition SURGERY_MANAGER : string := "SLACK_SURGERY_MANAGER".
Definition SURGERY_MANAGER_DM : string := "SLACK_SURGERY_MANAGER_DM".
End SlackEnv.

Record SlackEnvConfig : Type := {
  bot_token : string;
  notify_dry_run : bool;
  shikigami_channel : option string;
  shikigami_manager : option string;
  shikigami_manager_dm : bool;
  surgery_channel : option string;
  surgery_manager : option string;
  surgery_manager_dm : bool;
}.

(** An instance: its identity (what [lru_cache] hashes [self] to), its
    configuration and its [WebClient]. *)
Record SlackClient : Type := {
  self_id : nat;
  env : SlackEnvConfig;
  client : slack_service;
}.

(** [SlackClient.__init__] *)
Definition SlackClient_init (id : nat) (e : SlackEnvConfig) (c : slack_service)
    : M world SlackClient :=
  (if negb (truthy (Some (bot_token e)))
   then logger (LogWarning (SlackEnv.BOT_TOKEN +:+
          " is empty; Slack API calls will fail unless SLACK_NOTIFY_DRY_RUN=true."))
   else mret tt);;
  mret {| self_id := id; env := e; client := c |}.

Definition _looks_like_id (s : option string) : bool :=
  match s with
  | Some (String a _) =>
      Ascii.eqb a "C" || Ascii.eqb a "D" || Ascii.eqb a "G" || Ascii.eqb a "U"
  | _ => false
  end.

Definition _emit_log (self : SlackClient) (phase target text : string)
    (resolved extra : option string) : M world unit :=
  let dr := if notify_dry_run (env self) then "dry_run=true" else "dry_run=false" in
  let res := if truthy resolved then " resolved=" +:+ fmt_opt resolved else "" in
  let note := if truthy extra then " (" +:+ fmt_opt extra +:+ ")" else "" in
  logger (LogInfo ("[Slack " +:+ phase +:+ "] target=" +:+ target +:+ res +:+ " "
                   +:+ dr +:+ " text=" +:+ text +:+ note)).

(** [f"{e.response.get('error') if getattr(e, 'response', None) else e}"] *)
Definition error_extra (e : exn) : string :=
  match e with
  | SlackApiError _ (Some err) => fmt_opt err
  | _ => exn_str e
  end.

(** The [while True] loop of [resolve_channel_id]: one request per page,
    until a channel of that name, a page without cursor, or a raise. *)
Fixpoint scan_channels (cname : string) (cursor : option string)
    (l : listing channel) : M world (option string) :=
  api_request (ConversationsList cursor);;
  match l with
  | ListFails e => raise e
  | LastPage items =>
      match find (fun ch => bool_decide (ch_name ch = Some cname)) items with
      | Some ch => mret (ch_id ch)
      | None => mret None
      end
  | NextPage items next_cursor rest =>
      match find (fun ch => bool_decide (ch_name ch = Some cname)) items with
      | Some ch => mret (ch_id ch)
      | None =>
          if truthy (Some next_cursor)
          then scan_channels cname (Some next_cursor) rest
          else mret None
      end
  end.

(** The method under the [lru_cache] decorator. *)
Definition resolve_channel_id_body (self : SlackClient)
    (name_or_id : option string) : M world (option string) :=
  if negb (truthy name_or_id) then mret None
  else if _looks_like_id name_or_id then mret name_or_id
  else
    let cname := lstrip "#" (default "" name_or_id) in
    try_except_SlackApiError
      (scan_channels cname None (conversations_list (client self)))
      (fun e =>
         _emit_log self "ERROR" ("#" +:+ cname) "(resolve_channel_id)" None
           (Some (error_extra e));;
         mret None).

Definition resolve_channel_id (self : SlackClient)
    (name_or_id : option string) : M world (option string) :=
  lru_cached channel_cache set_channel_cache
    (resolve_channel_id_body self name_or_id) (self_id self, name_or_id).

(** [u.get(k) or ""] *)
Definition or_empty (s : option string) : string :=
  if truthy s then default "" s else "".

(** The test of one member in [resolve_user_id]: deleted members are
    passed over, the others match on name, display name or real name. *)
Definition member_matches (needle : string) (u : member) : bool :=
  if deleted u then false
  else
    let username := or_empty (m_name u) in
    let display := or_empty (m_profile u ≫= display_name) in
    let realname := or_empty (m_profile u ≫= real_name) in
    bool_decide (needle = username) || bool_decide (needle = display)
    || bool_decide (needle = realname).

Fixpoint scan_users (needle : string) (cursor : option string)
    (l : listing member) : M world (option string) :=
  api_request (UsersList cursor);;
  match l with
  | ListFails e => raise e
  | LastPage items =>
      match find (member_matches needle) items with
      | Some u => mret (m_id u)
      | None => mret None
      end
  | NextPage items next_cursor rest =>
      match find (member_matches needle) items with
      | Some u => mret (m_id u)
      | None =>
          if truthy (Some next_cursor)
          then scan_users needle (Some next_cursor) rest
          else mret None
      end
  end.

Definition resolve_user_id_body (self : SlackClient)
    (name_or_id : option string) : M world (option string) :=
  if negb (truthy name_or_id) then mret None
  else if _looks_like_id name_or_id && startswith "U" (default "" name_or_id)
  then mret name_or_id
  else
    let needle := lstrip "@" (default "" name_or_id) in
    try_except_SlackApiError
      (scan_users needle None (users_list (client self)))
      (fun e =>
         _emit_log self "ERROR" ("user:" +:+ needle) "(resolve_user_id)" None
           (Some (error_extra e));;
         mret None).

Definition resolve_user_id (self : SlackClient)
    (name_or_id : option string) : M world (option string) :=
  lru_cached user_cache set_user_cache
    (resolve_user_id_body self name_or_id) (self_id self, name_or_id).

Definition dm_channel_for_body (self : SlackClient) (user_id : string)
    : M world (option string) :=
  if negb (truthy (Some user_id)) then mret None
  else
    try_except_SlackApiError
      (hist ← get_calls;
       api_request (ConversationsOpen user_id);;
       resp ← of_outcome (conversations_open (client self) hist user_id);
       mret (resp ≫= id))
      (fun e =>
         _emit_log self "ERROR" ("dm:" +:+ user_id) "(conversations_open)" None
           (Some (error_extra e));;
         mret None).

Definition dm_channel_for (self : SlackClient) (user_id : string)
    : M world (option string) :=
  lru_cached dm_cache set_dm_cache
    (dm_channel_for_body self user_id) (self_id self, Some user_id).

(** Internal: posts to a resolved channel id; logs plan and outcome. *)
Definition _post (self : SlackClient) (chan text : option string)
    (target_label : string) : M world unit :=
  if negb (truthy chan) || negb (truthy text) then
    _emit_log self "SKIP" target_label
      (if truthy text then fmt_opt text else "(empty)") chan
      (Some "missing channel or text")
  else
    _emit_log self "PLAN" target_label (fmt_opt text) chan None;;
    if notify_dry_run (env self) then
      _emit_log self "DRY-RUN" target_label (fmt_opt text) chan None
    else
      try_except_SlackApiError
        (hist ← get_calls;
         api_request (ChatPostMessage (fmt_opt chan) (fmt_opt text));;
         resp ← of_outcome
                  (chat_postMessage (client self) hist (fmt_opt chan) (fmt_opt text));
         let ts := resp ≫= id in
         _emit_log self "SENT" target_label (fmt_opt text) chan
           (if truthy ts then Some ("ts=" +:+ fmt_opt ts) else None))
        (fun e =>
           _emit_log self "ERROR" target_label (fmt_opt text) chan
             (Some (error_extra e));;
           raise e).

(** *** Public helpers *)

Definition send_to_shikigami_feed (self : SlackClient) (text : string)
    (ping_channel : bool) : M world unit :=
  let cfg_label :=
    if truthy (shikigami_channel (env self))
    then fmt_opt (shikigami_channel (env self))
    else "(unset:SLACK_SHIKIGAMI_CHANNEL)" in
  ch ← (if truthy (shikigami_channel (env self))
        then resolve_channel_id self (shikigami_channel (env self))
        else mret None);
  let msg := if ping_channel then "<!channel> " +:+ text else text in
  if negb (truthy ch) then
    _emit_log self "SKIP" cfg_label msg None (Some "channel not resolvable")
  else _post self ch (Some msg) cfg_label.

Definition send_to_surgery_channel (self : SlackClient) (text : string)
    (ping_channel : bool) : M world unit :=
  let cfg_label :=
    if truthy (surgery_channel (env self))
    then fmt_opt (surgery_channel (env self))
    else "(unset:SLACK_SURGERY_CHANNEL)" in
  ch ← (if truthy (surgery_channel (env self))
        then resolve_channel_id self (surgery_channel (env self))
        else mret None);
  let msg := if ping_channel then "<!channel> " +:+ text else text in
  if negb (truthy ch) then
    _emit_log self "SKIP" cfg_label msg None (Some "channel not resolvable")
  else _post self ch (Some msg) cfg_label.

Definition _dm_user_if_enabled (self : SlackClient) (enabled : bool)
    (who_label : string) (who_value : option string) (text : string)
    : M world unit :=
  if negb enabled then
    _emit_log self "SKIP" ("dm:" +:+ who_label) text None
      (Some (who_label +:+ "_DM=false"))
  else if negb (truthy who_value) then
    _emit_log self "SKIP" ("dm:" +:+ who_label) text None
      (Some ("unset:" +:+ who_label))
  else
    uid ← resolve_user_id self who_value;
    if negb (truthy uid) then
      _emit_log self "SKIP" ("dm:" +:+ fmt_opt who_value) text None
        (Some (who_label +:+ " not resolvable"))
    else
      dm ← dm_channel_for self (fmt_opt uid);
      if negb (truthy dm) then
        _emit_log self "SKIP" ("dm:" +:+ fmt_opt uid) text None
          (Some "could not open DM")
      else _post self dm (Some text) ("dm:" +:+ fmt_opt uid).

Definition dm_surgery_manager (self : SlackClient) (text : string) : M world unit :=
  _dm_user_if_enabled self (surgery_manager_dm (env self))
    SlackEnv.SURGERY_MANAGER (surgery_manager (env self)) text.

Definition dm_shikigami_manager (self : SlackClient) (text : string) : M world unit :=
  _dm_user_if_enabled self (shikigami_manager_dm (env self))
    SlackEnv.SHIKIGAMI_MANAGER (shikigami_manager (env self)) text.

(** ** The record store and the web framework *)

(** A row of [experiment.Surgery] as the view reads it; [date] is the
    day number of the surgery ([date.toordinal()]), [mouse_room] is
    [None] when the row has no such key. *)
Record entry : Type := {
  animal_id : Z;
  surgery_id : Z;
  date : Z;
  username : string;
  mouse_room : option string;
}.

(** A row of [experiment.SurgeryStatus], as a dict. *)
Abbreviation status_row := (gmap string Z).

(** What the two [fetch] calls of the view answer: the surgeries of the
    restriction [date < less_than and date > greater_than] (creating the
    virtual modules included), and the status rows of one surgery, latest
    first. *)
Record record_store : Type := {
  fetch_surgeries : Z -> Z -> outcome (list entry);
  fetch_statuses : entry -> outcome (list status_row);
}.

(** Library functions the view calls: [str.title], [url_for] of
    [main.surgery_update] with [_external=True], and the ISO format of a
    day number. *)
Record flask_runtime : Type := {
  title : string -> string;
  url_for : Z -> Z -> string;
  isoformat : Z -> string;
}.

(** ** The view [surgery_notification] *)

(** The local counters of the view. *)
Record tally : Type := {
  sent : nat;
  skipped : nat;
  errors : nat;
  notes : list string;
}.

Definition tally0 : tally :=
  {| sent := 0; skipped := 0; errors := 0; notes := [] |}.

(** The state while the view runs: its locals and the process state. *)
Abbreviation frame := (tally * world)%type.

Definition lift {A} (m : M world A) : M frame A :=
  fun s => let '(r, w') := m (snd s) in (r, (fst s, w')).

Definition incr_sent : M frame unit :=
  fun s => (Ret tt, ({| sent := S (sent (fst s)); skipped := skipped (fst s);
                        errors := errors (fst s); notes := notes (fst s) |}, snd s)).

Definition incr_skipped : M frame unit :=
  fun s => (Ret tt, ({| sent := sent (fst s); skipped := S (skipped (fst s));
                        errors := errors (fst s); notes := notes (fst s) |}, snd s)).

Definition incr_errors : M frame unit :=
  fun s => (Ret tt, ({| sent := sent (fst s); skipped := skipped (fst s);
                        errors := S (errors (fst s)); notes := notes (fst s) |}, snd s)).

Definition notes_append (n : string) : M frame unit :=
  fun s => (Ret tt, ({| sent := sent (fst s); skipped := skipped (fst s);
                        errors := errors (fst s); notes := notes (fst s) ++ [n] |}, snd s)).

Definition get_tally : M frame tally :=
  fun s => (Ret (fst s), s).

(** Runs the part of the view that has the counters, from [t0]. *)
Definition with_locals {A} (t0 : tally) (m : M frame A) : M world A :=
  fun w => let '(r, s') := m (t0, w) in (r, snd s').

(** [for x in l: body x] *)
Fixpoint for_each {S A} (l : list A) (body : A -> M S unit) : M S unit :=
  match l with
  | [] => mret tt
  | x :: rest => body x;; for_each rest body
  end.

(** [f"{b}"] for a [bool]. *)
Definition fmt_bool (b : bool) : string := if b then "True" else "False".

Definition num_to_word : gmap Z string :=
  {[ 1 := "one"; 2 := "two"; 3 := "three" ]}.

(** [d[k]], which raises [KeyError] on a missing key. *)
Definition getitem {S} (d : gmap Z string) (k : Z) : M S string :=
  match d !! k with
  | Some v => mret v
  | None => raise (OtherException (pretty k))
  end.

(** [delta_days in (1, 2, 3)] *)
Definition in_window (delta_days : Z) : bool :=
  Z.eqb delta_days 1 || Z.eqb delta_days 2 || Z.eqb delta_days 3.

(** [status.get(k, 0)] *)
Definition status_get (status : status_row) (k : string) : Z :=
  default 0 (status !! k).

(** The decision to send. *)
Definition should_send (force : bool) (status : status_row) (day_key : string) : bool :=
  force || (Z.eqb (status_get status "euthanized") 0
            && Z.eqb (status_get status day_key) 0).

Definition reason_flags (status : status_row) (day_key : string) : list string :=
  (if negb (Z.eqb (status_get status "euthanized") 0) then ["euthanized=1"] else [])
  ++ (if negb (Z.eqb (status_get status day_key) 0) then [day_key +:+ "=1"] else []).

Definition skip_reason (status : status_row) (day_key : string) : string :=
  match reason_flags status day_key with
  | [] => "unknown_reason"
  | flags => join " and " flags
  end.

Definition base_msg (fw : flask_runtime) (e : entry) : string :=
  let edit_url :=
    "<" +:+ url_for fw (animal_id e) (surgery_id e) +:+ "|Update Status Here>" in
  title fw (username e) +:+ " needs to check animal " +:+ pretty (animal_id e)
  +:+ " in room " +:+ default "N/A" (mouse_room e)
  +:+ " for surgery on " +:+ isoformat fw (date e) +:+ ". " +:+ edit_url.

(** The three sends of one reminder, in the order of the source. *)
Definition send_reminder (slack : SlackClient) (msg : string) : M frame unit :=
  lift (send_to_surgery_channel slack ("Reminder: " +:+ msg) true);;
  lift (dm_surgery_manager slack msg);;
  lift (send_to_shikigami_feed slack ("[surgery] " +:+ msg) false).

(** What the [except] clause around the three sends does. *)
Definition send_failed (slack : SlackClient) (ex : exn) : M frame unit :=
  incr_errors;;
  lift (logger (LogException ("[SurgeryNotify ERROR] send failed: " +:+ exn_str ex)));;
  try_pass
    (lift (dm_shikigami_manager slack
             (":rotating_light: Surgery notify send failed: " +:+ exn_str ex))).

Definition sent_note (force : bool) (e : entry) (delta_days : Z) : string :=
  "sent: animal_id=" +:+ pretty (animal_id e) +:+ " day=" +:+ pretty delta_days
  +:+ (if force then " (forced)" else "").

(** The [if should_send] suite: the three sends under one [try], the
    counters in its [except] and [else] clauses. *)
Definition dispatch (slack : SlackClient) (fw : flask_runtime) (force : bool)
    (e : entry) (delta_days : Z) : M frame unit :=
  try_except_else
    (send_reminder slack (base_msg fw e))
    (send_failed slack)
    (incr_sent;; notes_append (sent_note force e delta_days)).

(** The [else] suite: the skip with its composed reason. *)
Definition skip_by_flags (e : entry) (delta_days : Z) (status : status_row)
    (day_key : string) : M frame unit :=
  let reason := skip_reason status day_key in
  lift (logger (LogInfo ("[SurgeryNotify SKIP] animal_id=" +:+ pretty (animal_id e)
                         +:+ " day=" +:+ pretty delta_days
                         +:+ " reason=" +:+ reason)));;
  notes_append ("skip: " +:+ reason +:+ " (animal_id="
                +:+ pretty (animal_id e) +:+ ")");;
  incr_skipped.

(** The body of [for entry in surgeries]. *)
Definition notify_entry (slack : SlackClient) (fw : flask_runtime)
    (db : record_store) (force : bool) (today : Z) (e : entry) : M frame unit :=
  statuses ← of_outcome (fetch_statuses db e);
  match statuses with
  | [] =>
      let msg := "No SurgeryStatus for animal_id=" +:+ pretty (animal_id e)
                 +:+ " surgery_id=" +:+ pretty (surgery_id e) +:+ "; skipping." in
      lift (logger (LogInfo ("[SurgeryNotify SKIP] " +:+ msg)));;
      notes_append ("skip: no_status (animal_id=" +:+ pretty (animal_id e) +:+ ")");;
      incr_skipped
  | status :: _ =>
      let delta_days := today - date e in
      if negb (in_window delta_days) then
        notes_append ("skip: delta_days=" +:+ pretty delta_days
                      +:+ " (animal_id=" +:+ pretty (animal_id e) +:+ ")");;
        lift (logger (LogInfo ("[SurgeryNotify SKIP] delta_days=" +:+ pretty delta_days
                               +:+ " animal_id=" +:+ pretty (animal_id e))));;
        incr_skipped
      else
        word ← getitem num_to_word delta_days;
        let day_key := "day_" +:+ word in
        if should_send force status day_key
        then dispatch slack fw force e delta_days
        else skip_by_flags e delta_days status day_key
  end.

(** The [try] suite of the sweep. *)
Definition sweep (slack : SlackClient) (fw : flask_runtime) (db : record_store)
    (force : bool) (today : Z) : M frame unit :=
  surgeries ← of_outcome (fetch_surgeries db today (today - 4));
  for_each surgeries (notify_entry slack fw db force today).

(** The best-effort notice of a failed sweep: feed, then manager DM,
    under one [try] whose [except] passes. *)
Definition escalate (slack : SlackClient) (ex : exn) : M frame unit :=
  try_pass
    (lift (send_to_shikigami_feed slack
             (":rotating_light: Surgery notification job failed: " +:+ exn_str ex) true);;
     lift (dm_shikigami_manager slack
             (":rotating_light: Surgery notification job failed: " +:+ exn_str ex))).

(** The [except] clause of the sweep. *)
Definition sweep_failed (slack : SlackClient) (ex : exn) : M frame unit :=
  incr_errors;;
  lift (logger (LogException ("Surgery notification job failed: " +:+ exn_str ex)));;
  escalate slack ex.

(** The JSON body of the answer, with its HTTP status. *)
Record Summary : Type := {
  s_status : string;
  s_date : string;
  s_dry_run : bool;
  s_sent : nat;
  s_skipped : nat;
  s_errors : nat;
  s_notes : list string;
  s_forced : bool;
}.

Inductive response : Type :=
| SweepOk (s : Summary)
| TestOk (dry_run : bool) (message : string)
| TestError (error : string).

Definition http_status (r : response) : Z :=
  match r with
  | SweepOk _ | TestOk _ _ => 200
  | TestError _ => 500
  end.

Definition summary_line (slack : SlackClient) (t : tally) : string :=
  "[SurgeryNotify SUMMARY] sent=" +:+ pretty (sent t)
  +:+ " skipped=" +:+ pretty (skipped t)
  +:+ " errors=" +:+ pretty (errors t)
  +:+ " dry_run=" +:+ fmt_bool (notify_dry_run (env slack)).

Definition summary_of (slack : SlackClient) (fw : flask_runtime)
    (force : bool) (today : Z) (t : tally) : Summary :=
  {| s_status := "ok"; s_date := isoformat fw today;
     s_dry_run := notify_dry_run (env slack);
     s_sent := sent t; s_skipped := skipped t; s_errors := errors t;
     s_notes := notes t; s_forced := force |}.

(** The wiring test of [?test=1]. *)
Definition run_test_mode (slack : SlackClient) : M world response :=
  let msg := "[test] surgery notification logger check" in
  logger (LogInfo ("[SurgeryNotify TEST] dry_run="
                   +:+ fmt_bool (notify_dry_run (env slack)) +:+ " -> " +:+ msg));;
  try_except
    (send_to_surgery_channel slack msg true;;
     dm_surgery_manager slack msg;;
     send_to_shikigami_feed slack ("[surgery] " +:+ msg) false;;
     mret (TestOk (notify_dry_run (env slack)) msg))
    (fun ex =>
       logger (LogException ("[SurgeryNotify TEST] failed: " +:+ exn_str ex));;
       try_pass (dm_shikigami_manager slack
                   (":warning: Surgery notify test failed: " +:+ exn_str ex));;
       mret (TestError (exn_str ex))).

(** The sweep with its recovery, the summary line and the answer. *)
Definition run_sweep (slack : SlackClient) (fw : flask_runtime)
    (db : record_store) (force : bool) (today : Z) : M frame response :=
  try_except (sweep slack fw db force today) (sweep_failed slack);;
  t ← get_tally;
  lift (logger (LogInfo (summary_line slack t)));;
  mret (SweepOk (summary_of slack fw force today t)).

(** The view.  [id], [cfg] and [svc] are what [SlackClient()] finds: a
    fresh object, the environment and the workspace; [force] and
    [run_test] are the parsed query flags, [today] the day number of
    [datetime.today().date()]. *)
Definition surgery_notification (id : nat) (cfg : SlackEnvConfig)
    (svc : slack_service) (fw : flask_runtime) (db : record_store)
    (force run_test : bool) (today : Z) : M world response :=
  slack ← SlackClient_init id cfg svc;
  if run_test then run_test_mode slack
  else with_locals tally0 (run_sweep slack fw db force today).

(** ** What the specification calls things *)

(** The day-bucket flag of an elapsed-day count in the reminder window. *)
Definition day_bucket (delta_days : Z) : string :=
  if Z.eqb delta_days 1 then "day_one"
  else if Z.eqb delta_days 2 then "day_two"
  else "day_three".

(** The pagination scans a sequence of requests starts: the requests for
    a first page of channels. *)
Fixpoint channel_scans (cs : list api_call) : nat :=
  match cs with
  | [] => 0
  | ConversationsList None :: rest => S (channel_scans rest)
  | _ :: rest => channel_scans rest
  end.

(** All the members a directory listing holds, page after page. *)
Fixpoint members_of (l : listing member) : list member :=
  match l with
  | LastPage items => items
  | NextPage items _ rest => items ++ members_of rest
  | ListFails _ => []
  end.

(** ** Predicates of the statements *)

(** The log and the request trace of [w'] continue those of [w]. *)
Definition world_le (w w' : world) : Prop :=
  logs w `prefix_of` logs w' /\ calls w `prefix_of` calls w'.

(** [steps R proj m]: running [m] takes the world that [proj] finds in
    the state to a world related to it by [R]. *)
Definition steps {S A} (R : relation world) (proj : S -> world) (m : M S A) : Prop :=
  forall s, R (proj s) (proj (snd (m s))).

(** Running [m] only appends to the log and to the request trace. *)
Abbreviation grows := (steps world_le).

(** The three caches of [w'] are those of [w]. *)
Definition same_caches (w w' : world) : Prop :=
  channel_cache w' = channel_cache w
  /\ user_cache w' = user_cache w
  /\ dm_cache w' = dm_cache w.

(** What the sweep with its recovery leaves: the counters [t] and the
    world [w1] before the summary line. *)
Definition recovered (slack : SlackClient) (fw : flask_runtime)
    (db : record_store) (force : bool) (today : Z) (s : frame)
    (t : tally) (w1 : world) : Prop :=
  match sweep slack fw db force today s with
  | (Ret _, s1) => (t, w1) = s1
  | (Raise ex, s1) =>
      t = {| sent := sent (fst s1); skipped := skipped (fst s1);
             errors := S (errors (fst s1)); notes := notes (fst s1) |}
      /\ escalate slack ex
           (t, add_log (LogException ("Surgery notification job failed: "
                                      +:+ exn_str ex)) (snd s1))
         = (Ret tt, (t, w1))
      /\ LogException ("Surgery notification job failed: " +:+ exn_str ex) ∈ logs w1
  end.

(** An argument that [resolve_user_id] returns as it is. *)
Definition user_literal (x : option string) : bool :=
  _looks_like_id x && startswith "U" (default "" x).

(** [uid] is the identifier of a member of the directory of [self] that
    is not deleted and that a lookup of [needle] matches. *)
Definition found_member (self : SlackClient) (needle uid : string) : Prop :=
  exists u,
    u ∈ members_of (users_list (client self))
    /\ deleted u = false
    /\ member_matches needle u = true
    /\ m_id u = Some uid.

(** An entry of the channel cache as [resolve_channel_id] stores it: a
    literal identifier is cached as itself. *)
Definition channel_entry_ok (k : lru_key) (v : option string) : Prop :=
  _looks_like_id (snd k) = true -> v = snd k.

(** An entry of the user cache as [resolve_user_id] of [self] stores it:
    a literal identifier as itself, any other identifier found in the
    directory. *)
Definition user_entry_ok (self : SlackClient) (k : lru_key) (v : option string)
    : Prop :=
  fst k = self_id self ->
  if user_literal (snd k) then v = snd k
  else forall uid, v = Some uid ->
                   found_member self (lstrip "@" (default "" (snd k))) uid.

(** The entries of a cache all satisfy [P]. *)
Definition justified (P : lru_key -> option string -> Prop) (c : lru) : Prop :=
  forall k v, lru_lookup k c = Some v -> P k v.

(** The caches hold what the methods of [self] store in them; so it is
    in a fresh process, and each method keeps it so. *)
Definition caches_ok (self : SlackClient) (w : world) : Prop :=
  justified channel_entry_ok (channel_cache w)
  /\ justified (user_entry_ok self) (user_cache w).

(** Running from good caches leaves good caches. *)
Definition keeps_ok (self : SlackClient) (w w' : world) : Prop :=
  caches_ok self w -> caches_ok self w'.

(** ** A small workspace and record store

    Concrete data on which the definitions above can be run: a workspace
    with two pages of channels and three members, a configuration, and a
    store with four surgeries. *)

Module Sample.

Definition w0 : world :=
  {| logs := []; calls := []; channel_cache := []; user_cache := [];
     dm_cache := [] |}.

(** Posting to channel [C1] is rejected by the service. *)
Definition svc : slack_service :=
  {| conversations_list :=
       NextPage [ {| ch_name := Some "general"; ch_id := Some "C9" |} ] "cur1"
         (LastPage [ {| ch_name := Some "shikigami"; ch_id := Some "C3" |} ]);
     users_list :=
       LastPage [ {| deleted := true; m_name := Some "boss";
                     m_profile := None; m_id := Some "U7" |};
                  {| deleted := false; m_name := Some "boss";
                     m_profile := None; m_id := Some "U8" |};
                  {| deleted := false; m_name := Some "vet";
                     m_profile := Some {| display_name := Some "C0123";
                                          real_name := None |};
                     m_id := Some "U2" |} ];
     conversations_open := fun _ u => Ret (Some (Some ("D" +:+ u)));
     chat_postMessage := fun _ ch _ =>
       if String.eqb ch "C1"
       then Raise (SlackApiError "channel_not_found" (Some (Some "channel_not_found")))
       else Ret (Some (Some "1700000000.0001")) |}.

Definition cfg (dry_run : bool) : SlackEnvConfig :=
  {| bot_token := "xoxb-token"; notify_dry_run := dry_run;
     shikigami_channel := Some "#shikigami";
     shikigami_manager := None; shikigami_manager_dm := true;
     surgery_channel := Some "C1";
     surgery_manager := Some "U2"; surgery_manager_dm := true |}.

Definition slack (dry_run : bool) : SlackClient :=
  {| self_id := 0; env := cfg dry_run; client := svc |}.

Definition fw : flask_runtime :=
  {| title := fun s => s;
     url_for := fun a s => "http://lab/surgery/update/" +:+ pretty a +:+ "/" +:+ pretty s;
     isoformat := fun d => "day-" +:+ pretty d |}.

Definition row (euthanized d1 d2 d3 : Z) : status_row :=
  {[ "euthanized" := euthanized; "day_one" := d1; "day_two" := d2;
     "day_three" := d3 ]}.

Definition e7 : entry :=
  {| animal_id := 7; surgery_id := 1; date := 99; username := "Ann";
     mouse_room := None |}.
Definition e8 : entry :=
  {| animal_id := 8; surgery_id := 1; date := 98; username := "Bob";
     mouse_room := Some "R1" |}.
Definition e9 : entry :=
  {| animal_id := 9; surgery_id := 2; date := 95; username := "Bob";
     mouse_room := Some "R1" |}.
Definition e10 : entry :=
  {| animal_id := 10; surgery_id := 1; date := 95; username := "Cy";
     mouse_room := None |}.

(** Animal 7 has all flags clear, animal 8 has [day_two] set, animal 9
    has no status row, animal 10 has one. *)
Definition db : record_store :=
  {| fetch_surgeries := fun _ _ => Ret [e7; e8; e9; e10];
     fetch_statuses := fun e =>
       if Z.eqb (animal_id e) 7 then Ret [row 0 0 0 0]
       else if Z.eqb (animal_id e) 8 then Ret [row 0 0 1 0]
       else if Z.eqb (animal_id e) 9 then Ret []
       else Ret [row 0 0 0 0] |}.

(** A store whose first [fetch] raises. *)
Definition db_down : record_store :=
  {| fetch_surgeries := fun _ _ => Raise (OtherException "LostConnectionError");
     fetch_statuses := fun _ => Ret [] |}.

Definition today : Z := 100.

End Sample.

(** ** The rest of the modules *)

(** The double quote. *)
Definition dquote : ascii := "034".

(** [escape_json] of the views: [json_string.replace(dquote, "&quot;")]. *)
Fixpoint escape_json (json_string : string) : string :=
  match json_string with
  | EmptyString => EmptyString
  | String a rest =>
      if Ascii.eqb a dquote then "&quot;" +:+ escape_json rest
      else String a (escape_json rest)
  end.

(** [c in s] for a character [c]. *)
Fixpoint contains (c : ascii) (s : string) : bool :=
  match s with
  | EmptyString => false
  | String a rest => Ascii.eqb a c || contains c rest
  end.

(** *** [SlackEnvConfig.from_env]

    The environment is a dict of strings.  A [string] holds the UTF-8
    bytes of the Python string, so the methods of [SlackClient] above,
    which only look for ASCII characters, read it as they read the
    Python string.

    [str.strip()] removes from both ends the characters for which
    [str.isspace] holds.  There are twenty-nine: the ASCII ones (tab to
    carriage return, the four separators, the space), U+0085, U+00A0,
    U+1680, U+2000 to U+200A, U+2028, U+2029, U+202F, U+205F and U+3000.
    [whitespace] lists their encodings.  No encoding starts another one,
    and the first byte of each never occurs inside a character, so taking
    encodings off the ends of the bytes takes these characters off the
    ends of the string.

    [str.lower] is written for the letters [A] to [Z]: [_bool] compares
    the lowered value with five lower-case ASCII words, and the lower
    case of a character outside ASCII has a character that is in none of
    these words. *)

(** The string of the given bytes. *)
Definition utf8 (bytes : list nat) : string :=
  string_of_list_ascii (map ascii_of_nat bytes).

Definition whitespace : list string :=
  map utf8
    [ [9]; [10]; [11]; [12]; [13]; [28]; [29]; [30]; [31]; [32];
      [194; 133]; [194; 160];
      [225; 154; 128];
      [226; 128; 128]; [226; 128; 129]; [226; 128; 130]; [226; 128; 131];
      [226; 128; 132]; [226; 128; 133]; [226; 128; 134]; [226; 128; 135];
      [226; 128; 136]; [226; 128; 137]; [226; 128; 138];
      [226; 128; 168]; [226; 128; 169]; [226; 128; 175];
      [226; 129; 159];
      [227; 128; 128] ]%nat.

(** [s] without its prefix [p], when it starts with [p]. *)
Fixpoint removeprefix (p s : string) : option string :=
  match p with
  | EmptyString => Some s
  | String a p' =>
      match s with
      | String b s' => if Ascii.eqb a b then removeprefix p' s' else None
      | EmptyString => None
      end
  end.

(** [s] without the space it starts with, when it starts with one. *)
Fixpoint skip_space (spaces : list string) (s : string) : option string :=
  match spaces with
  | [] => None
  | p :: others =>
      match removeprefix p s with
      | Some r => Some r
      | None => skip_space others s
      end
  end.

(** Skips up to [n] leading spaces. *)
Fixpoint lstrip_spaces (spaces : list string) (n : nat) (s : string) : string :=
  match n with
  | O => s
  | S n' =>
      match skip_space spaces s with
      | Some r => lstrip_spaces spaces n' r
      | None => s
      end
  end.

(** [s[::-1]] on the bytes. *)
Fixpoint reversed (s : string) : string :=
  match s with
  | EmptyString => EmptyString
  | String a rest => reversed rest +:+ String a EmptyString
  end.

(** [s.lstrip()]: a string has no more leading spaces than bytes. *)
Definition lstrip_ws (s : string) : string :=
  lstrip_spaces whitespace (String.length s) s.

(** [s.rstrip()]: the same from the other end. *)
Definition rstrip_ws (s : string) : string :=
  reversed (lstrip_spaces (map reversed whitespace) (String.length s) (reversed s)).

(** [s.strip()] *)
Definition strip (s : string) : string := rstrip_ws (lstrip_ws s).

Definition lower_char (a : ascii) : ascii :=
  let n := nat_of_ascii a in
  if (65 <=? n)%nat && (n <=? 90)%nat then ascii_of_nat (n + 32) else a.

(** [s.lower()] *)
Fixpoint lower (s : string) : string :=
  match s with
  | EmptyString => EmptyString
  | String a rest => String (lower_char a) (lower rest)
  end.

(** The local function [_bool] of [from_env]. *)
Definition _bool (val : option string) (default : bool) : bool :=
  match val with
  | None => default
  | Some v => bool_decide (lower (strip v) ∈ ["1"; "true"; "yes"; "y"; "on"])
  end.

(** [os.getenv(name, "").strip() or None] *)
Definition getenv_label (environ : gmap string string) (name : string)
    : option string :=
  let v := strip (default "" (environ !! name)) in
  if truthy (Some v) then Some v else None.

Definition from_env (environ : gmap string string) : SlackEnvConfig :=
  {| bot_token := strip (default "" (environ !! SlackEnv.BOT_TOKEN));
     notify_dry_run := _bool (environ !! SlackEnv.NOTIFY_DRY_RUN) false;
     shikigami_channel := getenv_label environ SlackEnv.SHIKIGAMI_CHANNEL;
     shikigami_manager := getenv_label environ SlackEnv.SHIKIGAMI_MANAGER;
     shikigami_manager_dm := _bool (environ !! SlackEnv.SHIKIGAMI_MANAGER_DM) true;
     surgery_channel := getenv_label environ SlackEnv.SURGERY_CHANNEL;
     surgery_manager := getenv_label environ SlackEnv.SURGERY_MANAGER;
     surgery_manager_dm := _bool (environ !! SlackEnv.SURGERY_MANAGER_DM) true |}.

(** A string made of spaces only: the empty string, or a space of the
    list followed by such a string. *)
Inductive blanks (spaces : list string) : string -> Prop :=
| blanks_nil : blanks spaces ""
| blanks_cons (p s : string) :
    p ∈ spaces -> blanks spaces s -> blanks spaces (p +:+ s).

(** A string of whitespace characters, which Python calls blank. *)
Definition blank : string -> Prop := blanks whitespace.

(** A string that neither starts nor ends with a whitespace character. *)
Definition trimmed (s : string) : Prop :=
  forall p t, p ∈ whitespace -> s <> p +:+ t /\ s <> t +:+ p.

(** [s] is [v] without the whitespace at its two ends. *)
Definition stripped_of (v s : string) : Prop :=
  exists l r, v = l +:+ s +:+ r /\ blank l /\ blank r /\ trimmed s.

(** ** Predicates of the further statements *)

(** The items a scan of the listing reads, page after page: up to the
    page without a cursor, or to the request that raises. *)
Fixpoint seen {A} (l : listing A) : list A :=
  match l with
  | LastPage items => items
  | NextPage items next_cursor rest =>
      items ++ (if truthy (Some next_cursor) then seen rest else [])
  | ListFails _ => []
  end.

(** The exception that ends the chain of pages, if one does. *)
Fixpoint ends_in_error {A} (l : listing A) : option exn :=
  match l with
  | LastPage _ => None
  | NextPage _ next_cursor rest =>
      if truthy (Some next_cursor) then ends_in_error rest else None
  | ListFails e => Some e
  end.

(** What a lookup that found nothing answers: [None], also after a
    [SlackApiError]; any other exception goes on. *)
Definition not_found {A} (l : listing A) : outcome (option string) :=
  match ends_in_error l with
  | None => Ret None
  | Some e => if is_SlackApiError e then Ret None else Raise e
  end.

(** The answer of [resolve_channel_id] as a search of the pages read. *)
Definition channel_result (self : SlackClient) (x : option string)
    : outcome (option string) :=
  if negb (truthy x) then Ret None
  else if _looks_like_id x then Ret x
  else
    match find (fun ch => bool_decide (ch_name ch = Some (lstrip "#" (default "" x))))
               (seen (conversations_list (client self))) with
    | Some ch => Ret (ch_id ch)
    | None => not_found (conversations_list (client self))
    end.

(** The answer of [resolve_user_id] as a search of the pages read. *)
Definition user_result (self : SlackClient) (x : option string)
    : outcome (option string) :=
  if negb (truthy x) then Ret None
  else if user_literal x then Ret x
  else
    match find (member_matches (lstrip "@" (default "" x)))
               (seen (users_list (client self))) with
    | Some u => Ret (m_id u)
    | None => not_found (users_list (client self))
    end.

(** The entries of the two resolver caches that belong to [self] hold
    the answers of the searches. *)
Definition channel_entry_sound (self : SlackClient) (k : lru_key)
    (v : option string) : Prop :=
  fst k = self_id self -> channel_result self (snd k) = Ret v.

Definition user_entry_sound (self : SlackClient) (k : lru_key)
    (v : option string) : Prop :=
  fst k = self_id self -> user_result self (snd k) = Ret v.

Definition caches_sound (self : SlackClient) (w : world) : Prop :=
  justified (channel_entry_sound self) (channel_cache w)
  /\ justified (user_entry_sound self) (user_cache w).

(** No cache holds more entries than [maxsize]. *)
Definition caches_bounded (w : world) : Prop :=
  (length (channel_cache w) <= maxsize)%nat
  /\ (length (user_cache w) <= maxsize)%nat
  /\ (length (dm_cache w) <= maxsize)%nat.

(** Running from a world where [I] holds leaves one where it holds. *)
Definition keeps (I : world -> Prop) (w w' : world) : Prop := I w -> I w'.

(** The line [_emit_log] writes. *)
Definition log_line (self : SlackClient) (phase target text : string)
    (resolved extra : option string) : log_record :=
  LogInfo ("[Slack " +:+ phase +:+ "] target=" +:+ target
           +:+ (if truthy resolved then " resolved=" +:+ fmt_opt resolved else "")
           +:+ " " +:+ (if notify_dry_run (env self) then "dry_run=true" else "dry_run=false")
           +:+ " text=" +:+ text
           +:+ (if truthy extra then " (" +:+ fmt_opt extra +:+ ")" else "")).

(** The logger and the four methods of [self] under the helpers take a
    world to one related to it by [R]. *)
Definition respects (self : SlackClient) (R : relation world) : Prop :=
  (forall r, steps R id (logger r))
  /\ (forall chan text label, steps R id (_post self chan text label))
  /\ (forall x, steps R id (resolve_channel_id self x))
  /\ (forall x, steps R id (resolve_user_id self x))
  /\ (forall x, steps R id (dm_channel_for self x)).

(** A request other than [chat.postMessage]. *)
Definition not_a_post (c : api_call) : Prop :=
  match c with ChatPostMessage _ _ => False | _ => True end.

(** The requests of [w'] are those of [w], in their order, followed by
    requests none of which is a post. *)
Definition no_new_post (w w' : world) : Prop :=
  exists cs, calls w' = (calls w ++ cs)%list /\ Forall not_a_post cs.

(** A record the sweep dispatches: it has a status snapshot, is one to
    three days old, and the decision is to send. *)
Definition is_due (db : record_store) (force : bool) (today : Z) (e : entry) : bool :=
  match fetch_statuses db e with
  | Ret (status :: _) =>
      in_window (today - date e)
      && should_send force status (day_bucket (today - date e))
  | _ => false
  end.

(** Each [sent] and each [skipped] has its note. *)
Definition notes_counted (t : tally) : Prop :=
  length (notes t) = (sent t + skipped t)%nat.

(** ** A workspace in trouble *)

Module Outage.

(** The channel listing answers one page, then is rate limited; the
    member listing loses the connection. *)
Definition svc : slack_service :=
  {| conversations_list :=
       NextPage [ {| ch_name := Some "general"; ch_id := Some "C9" |} ] "cur1"
         (ListFails (SlackApiError "The request to the Slack API failed."
                       (Some (Some "ratelimited"))));
     users_list := ListFails (OtherException "URLError");
     conversations_open := fun _ _ =>
       Raise (SlackApiError "The request to the Slack API failed."
                (Some (Some "user_not_found")));
     chat_postMessage := fun _ _ _ => Ret (Some (Some "1700000000.0002")) |}.

Definition cfg : SlackEnvConfig :=
  {| bot_token := "xoxb-token"; notify_dry_run := false;
     shikigami_channel := Some "#shikigami";
     shikigami_manager := Some "@boss"; shikigami_manager_dm := false;
     surgery_channel := None;
     surgery_manager := Some "U2"; surgery_manager_dm := true |}.

Definition slack : SlackClient :=
  {| self_id := 1; env := cfg; client := svc |}.

(** A store where the status rows of animal 8 cannot be fetched. *)
Definition db (surgeries : list entry) : record_store :=
  {| fetch_surgeries := fun _ _ => Ret surgeries;
     fetch_statuses := fun e =>
       if Z.eqb (animal_id e) 8 then Raise (OtherException "LostConnectionError")
       else fetch_statuses Sample.db e |}.

End Outage.

(** * Properties *)

(** ** Reasoning about the monad *)

Ltac unfold_monad :=
  unfold mbind, M_bind, bind, mret, M_ret, ret, raise, of_outcome,
    try_pass, try_except_SlackApiError, try_except, try_except_else in *.

Lemma bind_Raise {S A B} (m : M S A) (k : A -> M S B) s ex s' :
  m s = (Raise ex, s') -> (m ≫= k) s = (Raise ex, s').
Proof. intros H. unfold_monad. now rewrite H. Qed.

Lemma append_nil_r (s : string) : s +:+ "" = s.
Proof.
  induction s as [|a s IH]; [reflexivity |].
  change (String a (s +:+ "") = String a s). now rewrite IH.
Qed.

Lemma append_assoc (s1 s2 s3 : string) : (s1 +:+ s2) +:+ s3 = s1 +:+ s2 +:+ s3.
Proof.
  induction s1 as [|a s1 IH]; [reflexivity |].
  change (String a ((s1 +:+ s2) +:+ s3) = String a (s1 +:+ s2 +:+ s3)).
  now rewrite IH.
Qed.

Lemma truthy_Some (s : string) : s <> "" -> truthy (Some s) = true.
Proof. destruct s; [congruence | reflexivity]. Qed.

(** ** The message sender *)

(** C4 (dry-run invariant).  With the dry-run flag set, [_post] on a
    non-empty destination and a non-empty text returns after writing
    exactly two log lines, the [PLAN] line and the [DRY-RUN] line, and
    sends no request to the Web API: the sequence of requests is the one
    it found, as are the caches. *)
Theorem post_dry_run_logs_without_request
    (self : SlackClient) (chan text target_label : string) (w : world) :
  chan <> "" -> text <> "" -> notify_dry_run (env self) = true ->
  let plan := LogInfo ("[Slack PLAN] target=" +:+ target_label +:+ " resolved="
                       +:+ chan +:+ " dry_run=true text=" +:+ text) in
  let dry := LogInfo ("[Slack DRY-RUN] target=" +:+ target_label +:+ " resolved="
                      +:+ chan +:+ " dry_run=true text=" +:+ text) in
  exists w',
    _post self (Some chan) (Some text) target_label w = (Ret tt, w')
    /\ logs w' = (logs w ++ [plan; dry])%list
    /\ calls w' = calls w
    /\ (forall c t, ChatPostMessage c t ∈ calls w' -> ChatPostMessage c t ∈ calls w)
    /\ channel_cache w' = channel_cache w
    /\ user_cache w' = user_cache w
    /\ dm_cache w' = dm_cache w.
Proof.
  intros Hc Ht Hdry plan dry.
  unfold _post. rewrite (truthy_Some _ Hc), (truthy_Some _ Ht). simpl.
  rewrite Hdry. unfold _emit_log, logger. rewrite Hdry.
  rewrite (truthy_Some _ Hc). unfold_monad. simpl.
  eexists. split; [reflexivity |]. simpl.
  repeat split; try reflexivity; try tauto.
  rewrite <- app_assoc. simpl. subst plan dry.
  now rewrite !append_assoc, !append_nil_r.
Qed.

Lemma post_dry_run_logs_without_request_witness :
  let r := _post (Sample.slack true) (Some "C3") (Some "hello") "#shikigami" Sample.w0 in
  fst r = Ret tt
  /\ logs (snd r)
     = [LogInfo "[Slack PLAN] target=#shikigami resolved=C3 dry_run=true text=hello";
        LogInfo "[Slack DRY-RUN] target=#shikigami resolved=C3 dry_run=true text=hello"]
  /\ calls (snd r) = [].
Proof.
  destruct (post_dry_run_logs_without_request (Sample.slack true) "C3" "hello"
              "#shikigami" Sample.w0) as (w' & Heq & Hlogs & Hcalls & _).
  - discriminate.
  - discriminate.
  - reflexivity.
  - intros r. subst r. rewrite Heq. simpl. rewrite Hlogs, Hcalls.
    repeat split; reflexivity.
Defined.

(** ** The decision of the sweep for one record *)

Lemma in_window_true (d : Z) : in_window d = true <-> 1 <= d <= 3.
Proof. unfold in_window. lia. Qed.

Lemma in_window_false (d : Z) : in_window d = false <-> ~ (1 <= d <= 3).
Proof. unfold in_window. lia. Qed.

(** In the window, [num_to_word] has the word and the key is the bucket's. *)
Lemma day_key_in_window (d : Z) :
  1 <= d <= 3 ->
  exists word, num_to_word !! d = Some word /\ "day_" +:+ word = day_bucket d.
Proof.
  intros H. assert (d = 1 \/ d = 2 \/ d = 3) as [-> | [-> | ->]] by lia;
    eexists; split; reflexivity.
Qed.

Lemma notify_entry_in_window slack fw db force today e status rest (s : frame) :
  fetch_statuses db e = Ret (status :: rest) ->
  1 <= today - date e <= 3 ->
  notify_entry slack fw db force today e s
  = (if should_send force status (day_bucket (today - date e))
     then dispatch slack fw force e (today - date e)
     else skip_by_flags e (today - date e) status (day_bucket (today - date e))) s.
Proof.
  intros Hst Hwin.
  destruct (day_key_in_window _ Hwin) as (word & Hword & Hkey).
  unfold notify_entry, getitem. unfold_monad. rewrite Hst.
  rewrite (proj2 (in_window_true _) Hwin). simpl.
  rewrite Hword. rewrite Hkey. reflexivity.
Qed.

Lemma notify_entry_no_status slack fw db force today e (s : frame) :
  fetch_statuses db e = Ret [] ->
  notify_entry slack fw db force today e s
  = (Ret tt,
     ({| sent := sent (fst s); skipped := S (skipped (fst s));
         errors := errors (fst s);
         notes := notes (fst s)
                  ++ ["skip: no_status (animal_id=" +:+ pretty (animal_id e) +:+ ")"] |},
      add_log (LogInfo ("[SurgeryNotify SKIP] No SurgeryStatus for animal_id="
                        +:+ pretty (animal_id e) +:+ " surgery_id="
                        +:+ pretty (surgery_id e) +:+ "; skipping."))
        (snd s))).
Proof.
  intros Hst. unfold notify_entry. unfold_monad. rewrite Hst.
  reflexivity.
Qed.

Lemma notify_entry_out_of_window slack fw db force today e status rest (s : frame) :
  fetch_statuses db e = Ret (status :: rest) ->
  ~ (1 <= today - date e <= 3) ->
  notify_entry slack fw db force today e s
  = (Ret tt,
     ({| sent := sent (fst s); skipped := S (skipped (fst s));
         errors := errors (fst s);
         notes := notes (fst s)
                  ++ ["skip: delta_days=" +:+ pretty (today - date e)
                      +:+ " (animal_id=" +:+ pretty (animal_id e) +:+ ")"] |},
      add_log (LogInfo ("[SurgeryNotify SKIP] delta_days=" +:+ pretty (today - date e)
                        +:+ " animal_id=" +:+ pretty (animal_id e)))
        (snd s))).
Proof.
  intros Hst Hwin. unfold notify_entry. unfold_monad. rewrite Hst.
  rewrite (proj2 (in_window_false _) Hwin). reflexivity.
Qed.

Lemma skip_by_flags_eq e delta status day_key (s : frame) :
  skip_by_flags e delta status day_key s
  = (Ret tt,
     ({| sent := sent (fst s); skipped := S (skipped (fst s));
         errors := errors (fst s);
         notes := notes (fst s)
                  ++ ["skip: " +:+ skip_reason status day_key +:+ " (animal_id="
                      +:+ pretty (animal_id e) +:+ ")"] |},
      add_log (LogInfo ("[SurgeryNotify SKIP] animal_id=" +:+ pretty (animal_id e)
                        +:+ " day=" +:+ pretty delta
                        +:+ " reason=" +:+ skip_reason status day_key))
        (snd s))).
Proof. reflexivity. Qed.

Lemma lift_tally {A} (m : M world A) (s : frame) :
  fst (snd (lift m s)) = fst s.
Proof. unfold lift. now destruct (m (snd s)). Qed.

Lemma send_reminder_tally slack msg (s : frame) :
  fst (snd (send_reminder slack msg s)) = fst s.
Proof.
  unfold send_reminder. unfold_monad.
  pose proof (lift_tally (send_to_surgery_channel slack ("Reminder: " +:+ msg) true) s) as H1.
  destruct (lift _ s) as [[[]|ex1] s1]; simpl in *; [|exact H1].
  pose proof (lift_tally (dm_surgery_manager slack msg) s1) as H2.
  destruct (lift _ s1) as [[[]|ex2] s2]; simpl in *; [|congruence].
  pose proof (lift_tally (send_to_shikigami_feed slack ("[surgery] " +:+ msg) false) s2) as H3.
  congruence.
Qed.

Lemma dispatch_sent slack fw force e delta (s s1 : frame) :
  send_reminder slack (base_msg fw e) s = (Ret tt, s1) ->
  dispatch slack fw force e delta s
  = (Ret tt,
     ({| sent := S (sent (fst s)); skipped := skipped (fst s);
         errors := errors (fst s);
         notes := notes (fst s) ++ [sent_note force e delta] |},
      snd s1)).
Proof.
  intros H. pose proof (send_reminder_tally slack (base_msg fw e) s) as Ht.
  unfold dispatch. unfold_monad. rewrite H in *. simpl in Ht.
  unfold incr_sent, notes_append. simpl. now rewrite Ht.
Qed.

Lemma dispatch_failed slack fw force e delta (s s1 : frame) ex :
  send_reminder slack (base_msg fw e) s = (Raise ex, s1) ->
  dispatch slack fw force e delta s = send_failed slack ex s1.
Proof. intros H. unfold dispatch. unfold_monad. now rewrite H. Qed.

(** ** The log and the request trace only grow *)

#[local] Instance world_le_preorder : PreOrder world_le.
Proof.
  split.
  - intros w. split; reflexivity.
  - intros w1 w2 w3 [H1 H2] [H3 H4]. split; etransitivity; eassumption.
Qed.

Section Steps.
Context {S : Type} (R : relation world) `{!PreOrder R} (proj : S -> world).

Lemma steps_ret {A} (a : A) : steps R proj (mret a : M S A).
Proof. intros s. reflexivity. Qed.

Lemma steps_raise {A} ex : steps R proj (raise ex : M S A).
Proof. intros s. reflexivity. Qed.

Lemma steps_of_outcome {A} (o : outcome A) : steps R proj (of_outcome o : M S A).
Proof. intros s. reflexivity. Qed.

Lemma steps_bind {A B} (m : M S A) (k : A -> M S B) :
  steps R proj m -> (forall a, steps R proj (k a)) -> steps R proj (m ≫= k).
Proof.
  intros Hm Hk s. unfold_monad. specialize (Hm s).
  destruct (m s) as [[a|ex] s1]; simpl in *; [|exact Hm].
  etransitivity; [exact Hm | apply Hk].
Qed.

Lemma steps_try_except {A} (m : M S A) (h : exn -> M S A) :
  steps R proj m -> (forall ex, steps R proj (h ex)) -> steps R proj (try_except m h).
Proof.
  intros Hm Hh s. unfold_monad. specialize (Hm s).
  destruct (m s) as [[a|ex] s1]; simpl in *; [exact Hm|].
  etransitivity; [exact Hm | apply Hh].
Qed.

Lemma steps_try_except_SlackApiError {A} (m : M S A) (h : exn -> M S A) :
  steps R proj m -> (forall ex, steps R proj (h ex)) ->
  steps R proj (try_except_SlackApiError m h).
Proof.
  intros Hm Hh. apply steps_try_except; [exact Hm|].
  intros ex. destruct (is_SlackApiError ex); [apply Hh | apply steps_raise].
Qed.

Lemma steps_try_except_else {A B} (m : M S A) (h : exn -> M S B) (k : M S B) :
  steps R proj m -> (forall ex, steps R proj (h ex)) -> steps R proj k ->
  steps R proj (try_except_else m h k).
Proof.
  intros Hm Hh Hk s. unfold_monad. specialize (Hm s).
  destruct (m s) as [[a|ex] s1]; simpl in *;
    (etransitivity; [exact Hm |]); [apply Hk | apply Hh].
Qed.

Lemma steps_try_pass (m : M S unit) : steps R proj m -> steps R proj (try_pass m).
Proof. intros Hm. apply steps_try_except; [exact Hm|]. intros. apply steps_ret. Qed.

Lemma steps_for_each {A} (l : list A) (body : A -> M S unit) :
  (forall a, steps R proj (body a)) -> steps R proj (for_each l body).
Proof.
  intros Hb. induction l as [|a l IH]; simpl.
  - apply steps_ret.
  - apply steps_bind; [apply Hb | intros; exact IH].
Qed.
End Steps.

Lemma grows_logger r : grows id (logger r).
Proof.
  intros w. split; simpl; [apply prefix_app_r; reflexivity | reflexivity].
Qed.

Lemma grows_api_request c : grows id (api_request c).
Proof.
  intros w. split; simpl; [reflexivity | apply prefix_app_r; reflexivity].
Qed.

Lemma grows_get_calls : grows id get_calls.
Proof. intros w. reflexivity. Qed.

Lemma grows_emit_log self phase target text resolved extra :
  grows id (_emit_log self phase target text resolved extra).
Proof. apply grows_logger. Qed.

Lemma grows_lru_cached get set f k :
  (forall c w, logs (set c w) = logs w /\ calls (set c w) = calls w) ->
  grows id f -> grows id (lru_cached get set f k).
Proof.
  intros Hset Hf w. unfold lru_cached.
  destruct (lru_lookup k (get w)) as [v|].
  - simpl. destruct (Hset (lru_touch k v (get w)) w) as [H1 H2].
    split; simpl; [rewrite H1 | rewrite H2]; reflexivity.
  - specialize (Hf w). destruct (f w) as [[v|ex] w1]; simpl in *; [|exact Hf].
    destruct (Hset (lru_store k v (get w1)) w1) as [H1 H2].
    destruct Hf as [Hl Hc]. split; simpl; [rewrite H1 | rewrite H2]; assumption.
Qed.

#[local] Instance same_caches_preorder : PreOrder same_caches.
Proof.
  split.
  - intros w. repeat split.
  - intros w1 w2 w3 (H1 & H2 & H3) (H4 & H5 & H6). unfold same_caches.
    repeat split; congruence.
Qed.

Lemma keeps_logger r : steps same_caches id (logger r).
Proof. intros w. repeat split. Qed.

Lemma keeps_api_request c : steps same_caches id (api_request c).
Proof. intros w. repeat split. Qed.

Lemma keeps_get_calls : steps same_caches id get_calls.
Proof. intros w. repeat split. Qed.

Lemma keeps_emit_log self phase target text resolved extra :
  steps same_caches id (_emit_log self phase target text resolved extra).
Proof. apply keeps_logger. Qed.

(** Closes a [steps] goal along the structure of the program. *)
Ltac grows_step :=
  first
    [ assumption
    | apply steps_ret; exact _
    | apply steps_raise; exact _
    | apply steps_of_outcome; exact _
    | apply grows_logger | apply grows_api_request | apply grows_get_calls
    | apply grows_emit_log
    | apply keeps_logger | apply keeps_api_request | apply keeps_get_calls
    | apply keeps_emit_log
    | apply steps_bind; try exact _; [|intros ?]
    | apply steps_try_except_SlackApiError; try exact _; [|intros ?]
    | apply steps_try_pass; try exact _
    | apply steps_try_except_else; try exact _; [|intros ?|]
    | apply steps_try_except; try exact _; [|intros ?]
    | match goal with
      | |- steps _ _ (if ?b then _ else _) => destruct b
      | |- steps _ _ (match ?x with _ => _ end) => destruct x
      end ].

Ltac grows := repeat grows_step.

Lemma grows_scan_channels cname l :
  forall cursor, grows id (scan_channels cname cursor l).
Proof.
  induction l as [items|items next rest IH|ex]; intros cursor; simpl; grows.
  apply IH.
Qed.

Lemma grows_scan_users needle l :
  forall cursor, grows id (scan_users needle cursor l).
Proof.
  induction l as [items|items next rest IH|ex]; intros cursor; simpl; grows.
  apply IH.
Qed.

Lemma grows_resolve_channel_id self x : grows id (resolve_channel_id self x).
Proof.
  apply grows_lru_cached; [now intros|].
  unfold resolve_channel_id_body. grows. apply grows_scan_channels.
Qed.

Lemma grows_resolve_user_id self x : grows id (resolve_user_id self x).
Proof.
  apply grows_lru_cached; [now intros|].
  unfold resolve_user_id_body. grows. apply grows_scan_users.
Qed.

Lemma grows_dm_channel_for self x : grows id (dm_channel_for self x).
Proof.
  apply grows_lru_cached; [now intros|].
  unfold dm_channel_for_body. grows.
Qed.

Lemma grows_post self chan text label : grows id (_post self chan text label).
Proof. unfold _post. grows. Qed.

Lemma grows_send_to_shikigami_feed self text ping :
  grows id (send_to_shikigami_feed self text ping).
Proof.
  unfold send_to_shikigami_feed.
  apply steps_bind; try exact _; [destruct (truthy _); [apply grows_resolve_channel_id | grows]|].
  intros ch. destruct (negb (truthy ch)); [grows | apply grows_post].
Qed.

Lemma grows_send_to_surgery_channel self text ping :
  grows id (send_to_surgery_channel self text ping).
Proof.
  unfold send_to_surgery_channel.
  apply steps_bind; try exact _; [destruct (truthy _); [apply grows_resolve_channel_id | grows]|].
  intros ch. destruct (negb (truthy ch)); [grows | apply grows_post].
Qed.

Lemma grows_dm_user_if_enabled self enabled who_label who_value text :
  grows id (_dm_user_if_enabled self enabled who_label who_value text).
Proof.
  unfold _dm_user_if_enabled.
  destruct (negb enabled); [grows|].
  destruct (negb (truthy who_value)); [grows|].
  apply steps_bind; try exact _; [apply grows_resolve_user_id|]. intros uid.
  destruct (negb (truthy uid)); [grows|].
  apply steps_bind; try exact _; [apply grows_dm_channel_for|]. intros dm.
  destruct (negb (truthy dm)); [grows | apply grows_post].
Qed.

Lemma steps_lift {A} (R : relation world) (m : M world A) :
  steps R id m -> steps R snd (lift m).
Proof.
  intros Hm s. specialize (Hm (snd s)). unfold lift.
  destruct (m (snd s)) as [r w']. exact Hm.
Qed.

Lemma grows_incr_sent : grows snd incr_sent.
Proof. intros s. reflexivity. Qed.

Lemma grows_incr_skipped : grows snd incr_skipped.
Proof. intros s. reflexivity. Qed.

Lemma grows_incr_errors : grows snd incr_errors.
Proof. intros s. reflexivity. Qed.

Lemma grows_notes_append n : grows snd (notes_append n).
Proof. intros s. reflexivity. Qed.

Ltac grows_frame :=
  repeat first
    [ apply grows_incr_sent | apply grows_incr_skipped | apply grows_incr_errors
    | apply grows_notes_append
    | apply steps_lift;
      first [ apply grows_send_to_surgery_channel
            | apply grows_send_to_shikigami_feed
            | apply grows_dm_user_if_enabled
            | apply grows_logger ]
    | grows_step ].

Lemma grows_send_reminder slack msg : grows snd (send_reminder slack msg).
Proof. unfold send_reminder, dm_surgery_manager. grows_frame. Qed.

Lemma grows_send_failed slack ex : grows snd (send_failed slack ex).
Proof. unfold send_failed, dm_shikigami_manager. grows_frame. Qed.

Lemma grows_escalate slack ex : grows snd (escalate slack ex).
Proof. unfold escalate, dm_shikigami_manager. grows_frame. Qed.

Lemma grows_notify_entry slack fw db force today e :
  grows snd (notify_entry slack fw db force today e).
Proof.
  unfold notify_entry, getitem, dispatch, skip_by_flags.
  apply steps_bind; try exact _; [apply steps_of_outcome; exact _|]. intros statuses.
  destruct statuses as [|status rest]; [grows_frame|].
  destruct (negb _); [grows_frame|].
  apply steps_bind; try exact _; [destruct (num_to_word !! _); grows_frame|]. intros word.
  destruct (should_send _ _ _); [|grows_frame].
  apply steps_try_except_else; try exact _;
    [apply grows_send_reminder | intros; apply grows_send_failed | grows_frame].
Qed.

(** ** The [except] clauses return *)

(** The [except] clause of the sends counts one error, logs the exception,
    tries the manager of the feed, and returns. *)
Lemma send_failed_returns slack ex (s : frame) :
  exists w',
    send_failed slack ex s
    = (Ret tt,
       ({| sent := sent (fst s); skipped := skipped (fst s);
           errors := S (errors (fst s)); notes := notes (fst s) |}, w'))
    /\ world_le
         (add_log (LogException ("[SurgeryNotify ERROR] send failed: " +:+ exn_str ex))
            (snd s)) w'.
Proof.
  unfold send_failed, incr_errors. unfold_monad. simpl.
  set (s1 := (_, add_log _ (snd s))).
  pose proof (lift_tally (dm_shikigami_manager slack
    (":rotating_light: Surgery notify send failed: " +:+ exn_str ex)) s1) as Ht.
  pose proof (steps_lift _ _ (grows_dm_user_if_enabled slack
    (shikigami_manager_dm (env slack)) SlackEnv.SHIKIGAMI_MANAGER
    (shikigami_manager (env slack))
    (":rotating_light: Surgery notify send failed: " +:+ exn_str ex)) s1) as Hg.
  fold (dm_shikigami_manager slack
    (":rotating_light: Surgery notify send failed: " +:+ exn_str ex)) in Hg.
  destruct (lift _ s1) as [[[]|ex'] [t' w']]; simpl in *; subst t';
    (eexists; split; [reflexivity | exact Hg]).
Qed.

(** The notice of a failed sweep returns, with the counters it found. *)
Lemma escalate_returns slack ex (s : frame) :
  exists w', escalate slack ex s = (Ret tt, (fst s, w')) /\ world_le (snd s) w'.
Proof.
  pose proof (grows_escalate slack ex s) as Hg.
  unfold escalate in *. unfold_monad.
  pose proof (lift_tally (send_to_shikigami_feed slack
    (":rotating_light: Surgery notification job failed: " +:+ exn_str ex) true) s) as H1.
  destruct (lift _ s) as [[[]|ex1] [t1 w1]]; simpl in *; subst t1;
    [|eexists; split; [reflexivity | exact Hg]].
  pose proof (lift_tally (dm_shikigami_manager slack
    (":rotating_light: Surgery notification job failed: " +:+ exn_str ex)) (fst s, w1)) as H2.
  destruct (lift _ (fst s, w1)) as [[[]|ex2] [t2 w2]]; simpl in *; subst t2;
    (eexists; split; [reflexivity | exact Hg]).
Qed.

(** ** The reminder decision *)

(** C2 (reminder decision predicate).  For a record with a status
    snapshot whose elapsed days are 1, 2 or 3, the sweep dispatches
    exactly when [force] is set or both the [euthanized] flag and the flag
    of the day bucket are 0, and skips otherwise.  In particular, without
    [force], a record whose day-bucket flag is set is skipped: [skipped]
    grows by one, [sent] and [errors] stay, nothing is sent, and the
    reason in the note and in the log names that flag (alone, or after
    ["euthanized=1 and "]). *)
Theorem reminder_decision
    (slack : SlackClient) (fw : flask_runtime) (db : record_store)
    (force : bool) (today : Z) (e : entry) (status : status_row)
    (rest : list status_row) (s : frame) :
  fetch_statuses db e = Ret (status :: rest) ->
  1 <= today - date e <= 3 ->
  let delta := today - date e in
  let bucket := day_bucket delta in
  let closed := status_get status "euthanized" in
  let flag := status_get status bucket in
  notify_entry slack fw db force today e s
  = (if force || (Z.eqb closed 0 && Z.eqb flag 0)
     then dispatch slack fw force e delta
     else skip_by_flags e delta status bucket) s
  /\ (force = false -> flag <> 0 ->
      exists reason,
        (reason = bucket +:+ "=1"
         \/ reason = "euthanized=1 and " +:+ bucket +:+ "=1")
        /\ notify_entry slack fw db force today e s
           = (Ret tt,
              ({| sent := sent (fst s); skipped := S (skipped (fst s));
                  errors := errors (fst s);
                  notes := notes (fst s)
                           ++ ["skip: " +:+ reason +:+ " (animal_id="
                               +:+ pretty (animal_id e) +:+ ")"] |},
               add_log (LogInfo ("[SurgeryNotify SKIP] animal_id="
                                 +:+ pretty (animal_id e)
                                 +:+ " day=" +:+ pretty delta
                                 +:+ " reason=" +:+ reason))
                 (snd s)))).
Proof.
  intros Hst Hwin delta bucket closed flag.
  pose proof (notify_entry_in_window slack fw db force today e status rest s Hst Hwin)
    as Heq.
  split; [exact Heq|].
  intros -> Hflag. rewrite Heq. unfold should_send. fold delta bucket closed flag.
  simpl. destruct (Z.eqb_spec flag 0) as [|_]; [contradiction|].
  rewrite andb_false_r, skip_by_flags_eq.
  unfold skip_reason, reason_flags. fold bucket closed flag.
  destruct (Z.eqb_spec flag 0) as [|_]; [contradiction|].
  destruct (Z.eqb closed 0); simpl.
  - exists (bucket +:+ "=1"). split; [now left | reflexivity].
  - exists ("euthanized=1 and " +:+ bucket +:+ "=1"). split; [now right | reflexivity].
Qed.

Lemma reminder_decision_witness :
  let r := notify_entry (Sample.slack false) Sample.fw Sample.db false Sample.today
             Sample.e8 (tally0, Sample.w0) in
  r = skip_by_flags Sample.e8 2 (Sample.row 0 0 1 0) "day_two" (tally0, Sample.w0)
  /\ (notes (fst (snd r)) = ["skip: day_two=1 (animal_id=8)"]
      \/ notes (fst (snd r)) = ["skip: euthanized=1 and day_two=1 (animal_id=8)"]).
Proof.
  intros r.
  assert (fetch_statuses Sample.db Sample.e8 = Ret [Sample.row 0 0 1 0]) as Hst
    by reflexivity.
  assert (1 <= Sample.today - date Sample.e8 <= 3) as Hwin
    by (vm_compute; split; discriminate).
  destruct (reminder_decision (Sample.slack false) Sample.fw Sample.db false
              Sample.today Sample.e8 (Sample.row 0 0 1 0) [] (tally0, Sample.w0)
              Hst Hwin) as [Hdec Hskip].
  split; [exact Hdec|].
  destruct Hskip as (reason & [-> | ->] & Heq);
    [reflexivity | vm_compute; discriminate | | ];
    subst r; rewrite Heq; [left | right]; reflexivity.
Defined.

(** C7 (the [unknown_reason] branch is dead).  For a record in the window
    with a status snapshot, when the decision is not to send, [force] is
    off and the [euthanized] flag or the day-bucket flag is set; so the
    list of reason flags is not empty and the composed reason is not
    ["unknown_reason"]. *)
Theorem skip_reason_never_unknown
    (force : bool) (status : status_row) (delta_days : Z) (word : string) :
  1 <= delta_days <= 3 ->
  num_to_word !! delta_days = Some word ->
  should_send force status ("day_" +:+ word) = false ->
  force = false
  /\ (status_get status "euthanized" <> 0
      \/ status_get status ("day_" +:+ word) <> 0)
  /\ reason_flags status ("day_" +:+ word) <> []
  /\ skip_reason status ("day_" +:+ word) <> "unknown_reason".
Proof.
  intros Hwin Hword Hsend.
  assert (word = "one" \/ word = "two" \/ word = "three") as Hw.
  { assert (delta_days = 1 \/ delta_days = 2 \/ delta_days = 3)
      as [-> | [-> | ->]] by lia;
      vm_compute in Hword; injection Hword as <-; auto. }
  unfold should_send in Hsend. destruct force; [discriminate|]. simpl in Hsend.
  unfold skip_reason, reason_flags.
  destruct (Z.eqb_spec (status_get status "euthanized") 0) as [He|He];
    destruct (Z.eqb_spec (status_get status ("day_" +:+ word)) 0) as [Hd|Hd];
    try discriminate Hsend; simpl;
    (split; [reflexivity|]); (split; [tauto|]); (split; [discriminate|]);
    destruct Hw as [-> | [-> | ->]]; intros H; vm_compute in H; discriminate H.
Qed.

Lemma skip_reason_never_unknown_witness :
  skip_reason (Sample.row 0 0 1 0) "day_two" <> "unknown_reason".
Proof.
  refine (proj2 (proj2 (proj2
    (skip_reason_never_unknown false (Sample.row 0 0 1 0) 2 "two" _ _ _)))).
  - vm_compute. split; discriminate.
  - reflexivity.
  - reflexivity.
Defined.

(** C6, as the code has it (out-of-window skip).  A record whose elapsed
    days are not 1, 2 or 3 is skipped, whatever [force] and its flags are:
    [skipped] grows by one and nothing is sent.  The reason is
    ["delta_days=<n>"] when the record has a status snapshot; a record
    without any snapshot is skipped as ["no_status"], whatever its elapsed
    days, because the view looks for the snapshot first. *)
Theorem out_of_window_skip
    (slack : SlackClient) (fw : flask_runtime) (db : record_store)
    (force : bool) (today : Z) (e : entry) (statuses : list status_row)
    (s : frame) :
  fetch_statuses db e = Ret statuses ->
  ~ (1 <= today - date e <= 3) ->
  notify_entry slack fw db force today e s
  = (Ret tt,
     ({| sent := sent (fst s); skipped := S (skipped (fst s));
         errors := errors (fst s);
         notes := notes (fst s)
                  ++ [match statuses with
                      | [] => "skip: no_status (animal_id="
                              +:+ pretty (animal_id e) +:+ ")"
                      | _ :: _ => "skip: delta_days=" +:+ pretty (today - date e)
                                  +:+ " (animal_id=" +:+ pretty (animal_id e) +:+ ")"
                      end] |},
      add_log
        (LogInfo
           match statuses with
           | [] => "[SurgeryNotify SKIP] No SurgeryStatus for animal_id="
                   +:+ pretty (animal_id e) +:+ " surgery_id="
                   +:+ pretty (surgery_id e) +:+ "; skipping."
           | _ :: _ => "[SurgeryNotify SKIP] delta_days=" +:+ pretty (today - date e)
                       +:+ " animal_id=" +:+ pretty (animal_id e)
           end)
        (snd s))).
Proof.
  intros Hst Hwin. destruct statuses as [|status rest].
  - now apply notify_entry_no_status.
  - now apply (notify_entry_out_of_window slack fw db force today e status rest).
Qed.

Lemma out_of_window_skip_witness :
  notes (fst (snd (notify_entry (Sample.slack false) Sample.fw Sample.db true
                     Sample.today Sample.e10 (tally0, Sample.w0))))
  = ["skip: delta_days=5 (animal_id=10)"].
Proof.
  rewrite (out_of_window_skip (Sample.slack false) Sample.fw Sample.db true
             Sample.today Sample.e10 [Sample.row 0 0 0 0] (tally0, Sample.w0)).
  - reflexivity.
  - reflexivity.
  - vm_compute. intros [_ H]. apply H. reflexivity.
Defined.

(** C6 as stated fails: five days after the surgery, a record without a
    status snapshot is skipped with the reason ["no_status"], not
    ["delta_days=5"]. *)
Lemma out_of_window_no_status_counterexample :
  Sample.today - date Sample.e9 = 5
  /\ fetch_statuses Sample.db Sample.e9 = Ret []
  /\ notify_entry (Sample.slack false) Sample.fw Sample.db false Sample.today
       Sample.e9 (tally0, Sample.w0)
     = (Ret tt,
        ({| sent := 0; skipped := 1; errors := 0;
            notes := ["skip: no_status (animal_id=9)"] |},
         add_log (LogInfo "[SurgeryNotify SKIP] No SurgeryStatus for animal_id=9 surgery_id=2; skipping.")
           Sample.w0))
  /\ notes (fst (snd (notify_entry (Sample.slack false) Sample.fw Sample.db false
                        Sample.today Sample.e9 (tally0, Sample.w0))))
     <> ["skip: delta_days=5 (animal_id=9)"].
Proof.
  split; [reflexivity|]. split; [reflexivity|]. split; [vm_compute; reflexivity|].
  vm_compute. discriminate.
Qed.

(** ** The note of a dispatched record *)

(** C5, as the code has it (forced-send note).  When the three sends of
    a due record return, [sent] grows by one and the note is
    ["sent: animal_id=<id> day=<n>"], followed by [" (forced)"] exactly
    when the [force] flag of the request is set, whether or not the flags
    of the record would have let the reminder go without it. *)
Theorem sent_note_follows_force
    (slack : SlackClient) (fw : flask_runtime) (db : record_store)
    (force : bool) (today : Z) (e : entry) (status : status_row)
    (rest : list status_row) (s s1 : frame) :
  fetch_statuses db e = Ret (status :: rest) ->
  1 <= today - date e <= 3 ->
  should_send force status (day_bucket (today - date e)) = true ->
  send_reminder slack (base_msg fw e) s = (Ret tt, s1) ->
  notify_entry slack fw db force today e s
  = (Ret tt,
     ({| sent := S (sent (fst s)); skipped := skipped (fst s);
         errors := errors (fst s);
         notes := notes (fst s)
                  ++ ["sent: animal_id=" +:+ pretty (animal_id e)
                      +:+ " day=" +:+ pretty (today - date e)
                      +:+ (if force then " (forced)" else "")] |},
      snd s1)).
Proof.
  intros Hst Hwin Hsend Hok.
  rewrite (notify_entry_in_window slack fw db force today e status rest s Hst Hwin).
  rewrite Hsend. now rewrite (dispatch_sent slack fw force e _ s s1 Hok).
Qed.

Lemma sent_note_follows_force_witness :
  notes (fst (snd (notify_entry (Sample.slack true) Sample.fw Sample.db false
                     Sample.today Sample.e7 (tally0, Sample.w0))))
  = ["sent: animal_id=7 day=1"].
Proof.
  rewrite (sent_note_follows_force (Sample.slack true) Sample.fw Sample.db false
             Sample.today Sample.e7 (Sample.row 0 0 0 0) [] (tally0, Sample.w0)
             (snd (send_reminder (Sample.slack true) (base_msg Sample.fw Sample.e7)
                     (tally0, Sample.w0)))).
  - reflexivity.
  - reflexivity.
  - vm_compute. split; discriminate.
  - reflexivity.
  - vm_compute. reflexivity.
Defined.

(** C5 as stated fails: with [force] set, a record whose flags are all
    clear, which the ordinary guard sends by itself, still gets the
    [" (forced)"] suffix. *)
Lemma forced_suffix_counterexample :
  should_send false (Sample.row 0 0 0 0) (day_bucket (Sample.today - date Sample.e7))
  = true
  /\ notify_entry (Sample.slack true) Sample.fw Sample.db false Sample.today
       Sample.e7 (tally0, Sample.w0)
     = (Ret tt,
        ({| sent := 1; skipped := 0; errors := 0;
            notes := ["sent: animal_id=7 day=1"] |},
         snd (snd (send_reminder (Sample.slack true) (base_msg Sample.fw Sample.e7)
                     (tally0, Sample.w0)))))
  /\ notify_entry (Sample.slack true) Sample.fw Sample.db true Sample.today
       Sample.e7 (tally0, Sample.w0)
     = (Ret tt,
        ({| sent := 1; skipped := 0; errors := 0;
            notes := ["sent: animal_id=7 day=1 (forced)"] |},
         snd (snd (send_reminder (Sample.slack true) (base_msg Sample.fw Sample.e7)
                     (tally0, Sample.w0))))).
Proof.
  split; [reflexivity|]. split; vm_compute; reflexivity.
Qed.

(** ** Failures while sending *)

(** C1, as the code has it (what a failing first destination does).  The
    three sends of a due record stand under one [try].  When the send to
    the surgery channel raises, the record ends in the world that send
    left, with the logged exception and what one DM to the manager of the
    feed does to it, and nothing else: the DM to the surgery manager and
    the copy to the feed are not run for this record, and a failure of the
    DM to the manager of the feed is ignored.  One error is counted,
    [sent], [skipped] and the notes stay, and the loop goes on to the next
    record from there. *)
Theorem first_destination_failure
    (slack : SlackClient) (fw : flask_runtime) (db : record_store)
    (force : bool) (today : Z) (e : entry) (status : status_row)
    (rest : list status_row) (others : list entry) (s : frame) (w1 : world)
    (ex : exn) :
  fetch_statuses db e = Ret (status :: rest) ->
  1 <= today - date e <= 3 ->
  should_send force status (day_bucket (today - date e)) = true ->
  send_to_surgery_channel slack ("Reminder: " +:+ base_msg fw e) true (snd s)
  = (Raise ex, w1) ->
  let counted := {| sent := sent (fst s); skipped := skipped (fst s);
                    errors := S (errors (fst s)); notes := notes (fst s) |} in
  let logged :=
    add_log (LogException ("[SurgeryNotify ERROR] send failed: " +:+ exn_str ex)) w1 in
  let after :=
    snd (dm_shikigami_manager slack
           (":rotating_light: Surgery notify send failed: " +:+ exn_str ex) logged) in
  notify_entry slack fw db force today e s = (Ret tt, (counted, after))
  /\ world_le logged after
  /\ for_each (e :: others) (notify_entry slack fw db force today) s
     = for_each others (notify_entry slack fw db force today) (counted, after).
Proof.
  intros Hst Hwin Hsend Hraise counted logged after.
  assert (send_reminder slack (base_msg fw e) s = (Raise ex, (fst s, w1))) as Hrem.
  { unfold send_reminder. apply bind_Raise. unfold lift. now rewrite Hraise. }
  assert (notify_entry slack fw db force today e s = (Ret tt, (counted, after))) as Hn.
  { rewrite (notify_entry_in_window slack fw db force today e status rest s Hst Hwin).
    rewrite Hsend. rewrite (dispatch_failed slack fw force e _ s _ ex Hrem).
    unfold send_failed, incr_errors, lift, logger. unfold_monad. simpl.
    fold counted. fold logged. subst after.
    destruct (dm_shikigami_manager slack _ logged) as [[[]|ex'] w2]; reflexivity. }
  split; [exact Hn|]. split.
  - subst after.
    apply (grows_dm_user_if_enabled slack (shikigami_manager_dm (env slack))
             SlackEnv.SHIKIGAMI_MANAGER (shikigami_manager (env slack))
             (":rotating_light: Surgery notify send failed: " +:+ exn_str ex) logged).
  - simpl. unfold_monad. rewrite Hn. reflexivity.
Qed.

Lemma first_destination_failure_witness :
  let slack := Sample.slack false in
  let msg := base_msg Sample.fw Sample.e7 in
  send_to_surgery_channel slack ("Reminder: " +:+ msg) true Sample.w0
  = (Raise (SlackApiError "channel_not_found" (Some (Some "channel_not_found"))),
     {| logs := [LogInfo ("[Slack PLAN] target=C1 resolved=C1 dry_run=false text=<!channel> Reminder: " +:+ msg);
                 LogInfo ("[Slack ERROR] target=C1 resolved=C1 dry_run=false text=<!channel> Reminder: "
                          +:+ msg +:+ " (channel_not_found)")];
        calls := [ChatPostMessage "C1" ("<!channel> Reminder: " +:+ msg)];
        channel_cache := [((0%nat, Some "C1"), Some "C1")];
        user_cache := []; dm_cache := [] |})
  /\ notify_entry slack Sample.fw Sample.db false Sample.today Sample.e7
       (tally0, Sample.w0)
     = (Ret tt,
        ({| sent := 0; skipped := 0; errors := 1; notes := [] |},
         {| logs := [LogInfo ("[Slack PLAN] target=C1 resolved=C1 dry_run=false text=<!channel> Reminder: " +:+ msg);
                     LogInfo ("[Slack ERROR] target=C1 resolved=C1 dry_run=false text=<!channel> Reminder: "
                              +:+ msg +:+ " (channel_not_found)");
                     LogException "[SurgeryNotify ERROR] send failed: channel_not_found";
                     LogInfo "[Slack SKIP] target=dm:SLACK_SHIKIGAMI_MANAGER dry_run=false text=:rotating_light: Surgery notify send failed: channel_not_found (unset:SLACK_SHIKIGAMI_MANAGER)"];
            calls := [ChatPostMessage "C1" ("<!channel> Reminder: " +:+ msg)];
            channel_cache := [((0%nat, Some "C1"), Some "C1")];
            user_cache := []; dm_cache := [] |})).
Proof.
  intros slack msg.
  assert (send_to_surgery_channel slack ("Reminder: " +:+ msg) true Sample.w0
          = (Raise (SlackApiError "channel_not_found" (Some (Some "channel_not_found"))),
             snd (send_to_surgery_channel slack ("Reminder: " +:+ msg) true Sample.w0)))
    as Hraise by (vm_compute; reflexivity).
  split; [vm_compute; reflexivity|].
  destruct (first_destination_failure slack Sample.fw Sample.db false Sample.today
              Sample.e7 (Sample.row 0 0 0 0) [] [] (tally0, Sample.w0) _ _
              eq_refl ltac:(vm_compute; split; discriminate) eq_refl Hraise)
    as (Hn & _).
  rewrite Hn. vm_compute. reflexivity.
Defined.

(** C1 as stated fails.  In the sample workspace the post to the surgery
    channel [C1] is rejected.  Run alone in the state after that failure,
    the DM to the surgery manager would open a conversation with [U2] and
    post to it, and the copy to the feed would look up [#shikigami] and
    post to [C3].  The sweep makes neither attempt: its only request is
    the rejected post, and its log has no line for the two destinations.
    The records after the failing one are evaluated. *)
Lemma error_isolation_counterexample :
  let slack := Sample.slack false in
  let msg := base_msg Sample.fw Sample.e7 in
  let failed := send_to_surgery_channel slack ("Reminder: " +:+ msg) true Sample.w0 in
  let r := surgery_notification 0 (Sample.cfg false) Sample.svc Sample.fw Sample.db
             false false Sample.today Sample.w0 in
  fst failed
  = Raise (SlackApiError "channel_not_found" (Some (Some "channel_not_found")))
  /\ calls (snd failed) = [ChatPostMessage "C1" ("<!channel> Reminder: " +:+ msg)]
  /\ calls (snd (dm_surgery_manager slack msg (snd failed)))
     = [ChatPostMessage "C1" ("<!channel> Reminder: " +:+ msg);
        ConversationsOpen "U2"; ChatPostMessage "DU2" msg]
  /\ calls (snd (send_to_shikigami_feed slack ("[surgery] " +:+ msg) false (snd failed)))
     = [ChatPostMessage "C1" ("<!channel> Reminder: " +:+ msg);
        ConversationsList None; ConversationsList (Some "cur1");
        ChatPostMessage "C3" ("[surgery] " +:+ msg)]
  /\ calls (snd r) = [ChatPostMessage "C1" ("<!channel> Reminder: " +:+ msg)]
  /\ logs (snd r)
     = [LogInfo ("[Slack PLAN] target=C1 resolved=C1 dry_run=false text=<!channel> Reminder: " +:+ msg);
        LogInfo ("[Slack ERROR] target=C1 resolved=C1 dry_run=false text=<!channel> Reminder: "
                 +:+ msg +:+ " (channel_not_found)");
        LogException "[SurgeryNotify ERROR] send failed: channel_not_found";
        LogInfo "[Slack SKIP] target=dm:SLACK_SHIKIGAMI_MANAGER dry_run=false text=:rotating_light: Surgery notify send failed: channel_not_found (unset:SLACK_SHIKIGAMI_MANAGER)";
        LogInfo "[SurgeryNotify SKIP] animal_id=8 day=2 reason=day_two=1";
        LogInfo "[SurgeryNotify SKIP] No SurgeryStatus for animal_id=9 surgery_id=2; skipping.";
        LogInfo "[SurgeryNotify SKIP] delta_days=5 animal_id=10";
        LogInfo "[SurgeryNotify SUMMARY] sent=0 skipped=3 errors=1 dry_run=False"]
  /\ fst r
     = Ret (SweepOk {| s_status := "ok"; s_date := "day-100"; s_dry_run := false;
                       s_sent := 0; s_skipped := 3; s_errors := 1;
                       s_notes := ["skip: day_two=1 (animal_id=8)";
                                   "skip: no_status (animal_id=9)";
                                   "skip: delta_days=5 (animal_id=10)"];
                       s_forced := false |}).
Proof.
  repeat split; vm_compute; reflexivity.
Qed.

(** ** The sweep always answers *)

Lemma prefix_snoc_elem {A} (l l' : list A) (x : A) :
  (l ++ [x])%list `prefix_of` l' -> x ∈ l'.
Proof.
  intros [k ->]. rewrite !elem_of_app. left. right. apply list_elem_of_singleton.
  reflexivity.
Qed.

Lemma run_sweep_returns slack fw db force today (s : frame) :
  exists t w1,
    run_sweep slack fw db force today s
    = (Ret (SweepOk (summary_of slack fw force today t)),
       (t, add_log (LogInfo (summary_line slack t)) w1))
    /\ recovered slack fw db force today s t w1.
Proof.
  unfold run_sweep, recovered. unfold_monad.
  destruct (sweep slack fw db force today s) as [[[]|ex] [t1 w1]].
  - exists t1, w1. split; reflexivity.
  - unfold sweep_failed, incr_errors, lift, logger. unfold_monad. simpl.
    set (t := {| sent := sent t1; skipped := skipped t1;
                 errors := S (errors t1); notes := notes t1 |}).
    set (w2 := add_log _ w1).
    destruct (escalate_returns slack ex (t, w2)) as (w3 & Hesc & Hle).
    simpl in Hesc, Hle. rewrite Hesc. simpl.
    exists t, w3. split; [reflexivity|]. split; [reflexivity|].
    split; [exact Hesc|].
    destruct Hle as [Hlogs _]. subst w2. simpl in Hlogs.
    exact (prefix_snoc_elem _ _ _ Hlogs).
Qed.

(** What the notice of a failed sweep leaves: the world after the send
    to the feed, with the channel pinged, and, when that send returned,
    after the DM to the manager of the feed; an exception of either is
    dropped. *)
Lemma escalate_world slack ex (s : frame) :
  escalate slack ex s
  = (Ret tt,
     (fst s,
      match send_to_shikigami_feed slack
              (":rotating_light: Surgery notification job failed: " +:+ exn_str ex)
              true (snd s) with
      | (Ret _, w2) =>
          snd (dm_shikigami_manager slack
                 (":rotating_light: Surgery notification job failed: " +:+ exn_str ex)
                 w2)
      | (Raise _, w2) => w2
      end)).
Proof.
  unfold escalate, lift. unfold_monad.
  destruct (send_to_shikigami_feed slack _ true (snd s)) as [[[]|ex1] w2]; simpl;
    [|reflexivity].
  destruct (dm_shikigami_manager slack _ w2) as [[[]|ex2] w3]; reflexivity.
Qed.

(** C3 (top-level recovery).  A sweep that is not a wiring test always
    returns the summary, never an exception: the answer carries [sent],
    [skipped], [errors], the notes, the dry-run flag and [forced], and
    the last line of the log is the summary line with the same counters.
    When the fetch of the surgeries or the evaluation of a record raises,
    the counters are those reached at the raise with one more error, the
    exception is logged, and then the notice is attempted: the world
    before the summary line is the one left by the send of the notice to
    the feed, with the channel pinged, followed, if that send returned, by
    the DM of the notice to the manager of the feed; an exception of
    either is dropped. *)
Theorem sweep_always_answers
    (id : nat) (cfg : SlackEnvConfig) (svc : slack_service)
    (fw : flask_runtime) (db : record_store) (force : bool) (today : Z)
    (w : world) :
  let slack := {| self_id := id; env := cfg; client := svc |} in
  let started := snd (SlackClient_init id cfg svc w) in
  let tried :=
    match fetch_surgeries db today (today - 4) with
    | Ret surgeries =>
        for_each surgeries (notify_entry slack fw db force today) (tally0, started)
    | Raise ex => (Raise ex, (tally0, started))
    end in
  let line (t : tally) :=
    LogInfo ("[SurgeryNotify SUMMARY] sent=" +:+ pretty (sent t)
             +:+ " skipped=" +:+ pretty (skipped t)
             +:+ " errors=" +:+ pretty (errors t)
             +:+ " dry_run=" +:+ fmt_bool (notify_dry_run cfg)) in
  exists (t : tally) (w1 : world),
    surgery_notification id cfg svc fw db force false today w
    = (Ret (SweepOk {| s_status := "ok"; s_date := isoformat fw today;
                       s_dry_run := notify_dry_run cfg;
                       s_sent := sent t; s_skipped := skipped t;
                       s_errors := errors t; s_notes := notes t;
                       s_forced := force |}),
       add_log (line t) w1)
    /\ last (logs (add_log (line t) w1)) = Some (line t)
    /\ match tried with
       | (Ret _, s1) => (t, w1) = s1
       | (Raise ex, s1) =>
           let notice :=
             ":rotating_light: Surgery notification job failed: " +:+ exn_str ex in
           let logged :=
             add_log (LogException ("Surgery notification job failed: " +:+ exn_str ex))
               (snd s1) in
           t = {| sent := sent (fst s1); skipped := skipped (fst s1);
                  errors := S (errors (fst s1)); notes := notes (fst s1) |}
           /\ w1 = match send_to_shikigami_feed slack notice true logged with
                   | (Ret _, w2) => snd (dm_shikigami_manager slack notice w2)
                   | (Raise _, w2) => w2
                   end
           /\ LogException ("Surgery notification job failed: " +:+ exn_str ex)
              ∈ logs w1
       end.
Proof.
  intros slack started tried line.
  assert (SlackClient_init id cfg svc w = (Ret slack, started)) as Hinit.
  { subst started. unfold SlackClient_init. unfold_monad.
    destruct (negb _); reflexivity. }
  destruct (run_sweep_returns slack fw db force today (tally0, started))
    as (t & w1 & Hrun & Hrec).
  exists t, w1. split; [|split; [apply last_snoc|]].
  - unfold surgery_notification. unfold_monad. rewrite Hinit.
    unfold with_locals. rewrite Hrun. reflexivity.
  - unfold recovered in Hrec.
    assert (sweep slack fw db force today (tally0, started) = tried) as Hsweep.
    { subst tried. unfold sweep. unfold_monad.
      destruct (fetch_surgeries db today (today - 4)); reflexivity. }
    rewrite Hsweep in Hrec.
    destruct tried as [[[]|ex] s1]; [exact Hrec|].
    destruct Hrec as (Ht & Hesc & Hin).
    split; [exact Ht|]. split; [|exact Hin].
    rewrite escalate_world in Hesc. simpl in Hesc.
    injection Hesc as Hesc. symmetry. exact Hesc.
Qed.

Lemma sweep_always_answers_witness :
  surgery_notification 0 (Sample.cfg false) Sample.svc Sample.fw
    Sample.db_down false false Sample.today Sample.w0
  = (Ret (SweepOk {| s_status := "ok"; s_date := "day-100"; s_dry_run := false;
                     s_sent := 0; s_skipped := 0; s_errors := 1; s_notes := [];
                     s_forced := false |}),
     {| logs :=
          [LogException "Surgery notification job failed: LostConnectionError";
           LogInfo "[Slack PLAN] target=#shikigami resolved=C3 dry_run=false text=<!channel> :rotating_light: Surgery notification job failed: LostConnectionError";
           LogInfo "[Slack SENT] target=#shikigami resolved=C3 dry_run=false text=<!channel> :rotating_light: Surgery notification job failed: LostConnectionError (ts=1700000000.0001)";
           LogInfo "[Slack SKIP] target=dm:SLACK_SHIKIGAMI_MANAGER dry_run=false text=:rotating_light: Surgery notification job failed: LostConnectionError (unset:SLACK_SHIKIGAMI_MANAGER)";
           LogInfo "[SurgeryNotify SUMMARY] sent=0 skipped=0 errors=1 dry_run=False"];
        calls :=
          [ConversationsList None; ConversationsList (Some "cur1");
           ChatPostMessage "C3"
             "<!channel> :rotating_light: Surgery notification job failed: LostConnectionError"];
        channel_cache := [((0%nat, Some "#shikigami"), Some "C3")];
        user_cache := []; dm_cache := [] |}).
Proof.
  destruct (sweep_always_answers 0 (Sample.cfg false) Sample.svc Sample.fw
              Sample.db_down false Sample.today Sample.w0)
    as (t & w1 & Heq & _ & Hrec).
  simpl in Hrec. destruct Hrec as (Ht & Hw & _).
  rewrite Heq, Hw, Ht. vm_compute. reflexivity.
Defined.

(** ** The directory resolver *)

(** *** The cache *)

Lemma lru_key_eqb_refl (k : lru_key) : lru_key_eqb k k = true.
Proof. unfold lru_key_eqb. now apply bool_decide_eq_true. Qed.

Lemma lru_lookup_touch k v c : lru_lookup k (lru_touch k v c) = Some v.
Proof. unfold lru_touch. simpl. now rewrite lru_key_eqb_refl. Qed.

Lemma lru_lookup_store_miss k v c :
  lru_lookup k c = None -> lru_lookup k (lru_store k v c) = Some v.
Proof.
  intros H. unfold lru_store. rewrite H.
  destruct (maxsize <=? length c)%nat; simpl; now rewrite lru_key_eqb_refl.
Qed.

Lemma lru_cached_hit get set f k w v :
  lru_lookup k (get w) = Some v ->
  lru_cached get set f k w = (Ret v, set (lru_touch k v (get w)) w).
Proof. intros H. unfold lru_cached. now rewrite H. Qed.

Lemma lru_cached_miss get set f k w :
  lru_lookup k (get w) = None ->
  lru_cached get set f k w
  = match f w with
    | (Ret v, w') => (Ret v, set (lru_store k v (get w')) w')
    | (Raise ex, w') => (Raise ex, w')
    end.
Proof. intros H. unfold lru_cached. now rewrite H. Qed.

(** After a call that returned, the cache holds the result under the
    key, provided the method itself leaves the cache alone. *)
Lemma lru_cached_stored get set f k w v w1 :
  (forall c w, get (set c w) = c) ->
  (forall w, get (snd (f w)) = get w) ->
  lru_cached get set f k w = (Ret v, w1) ->
  lru_lookup k (get w1) = Some v.
Proof.
  intros Hgs Hf H. unfold lru_cached in H.
  destruct (lru_lookup k (get w)) as [v0|] eqn:Hk.
  - injection H as <- <-. rewrite Hgs. apply lru_lookup_touch.
  - specialize (Hf w). destruct (f w) as [[v0|ex] w'] eqn:Hfw; [|discriminate].
    injection H as <- <-. rewrite Hgs. apply lru_lookup_store_miss.
    simpl in Hf. now rewrite Hf.
Qed.

(** *** The scan of the channel listing *)

Lemma keeps_scan_channels cname l :
  forall cursor, steps same_caches id (scan_channels cname cursor l).
Proof.
  induction l as [items|items next rest IH|ex]; intros cursor; simpl; grows.
  apply IH.
Qed.

Lemma keeps_resolve_channel_id_body self x :
  steps same_caches id (resolve_channel_id_body self x).
Proof. unfold resolve_channel_id_body. grows. apply keeps_scan_channels. Qed.

Lemma channel_scans_app (a b : list api_call) :
  channel_scans (a ++ b) = (channel_scans a + channel_scans b)%nat.
Proof.
  induction a as [|c a IH]; [reflexivity|].
  simpl. destruct c as [[cur|]| | |]; simpl; now rewrite IH.
Qed.

(** A scan asks for the page of its cursor, then only for pages of the
    cursors it is given; it writes nothing to the log. *)
Lemma scan_channels_trace cname l :
  forall cursor w,
  exists cs,
    calls (snd (scan_channels cname cursor l w))
    = (calls w ++ ConversationsList cursor :: cs)%list
    /\ channel_scans cs = 0%nat
    /\ logs (snd (scan_channels cname cursor l w)) = logs w.
Proof.
  induction l as [items|items next rest IH|ex]; intros cursor w; simpl;
    unfold_monad; unfold api_request; simpl.
  - exists []. destruct (find _ items); simpl; auto.
  - destruct (find _ items); simpl; [exists []; auto|].
    destruct next as [|a next]; simpl; [exists []; auto|].
    destruct (IH (Some (String a next)) (add_call (ConversationsList cursor) w))
      as (cs & Hc & Hs & Hl).
    exists (ConversationsList (Some (String a next)) :: cs).
    rewrite Hc, Hl. simpl. rewrite <- app_assoc. auto.
  - exists []. auto.
Qed.

(** The method starts one scan when it has to look the name up, and none
    for an empty or literal argument. *)
Lemma resolve_channel_id_body_scans self x w :
  channel_scans (calls (snd (resolve_channel_id_body self x w)))
  = (channel_scans (calls w)
     + (if truthy x && negb (_looks_like_id x) then 1 else 0))%nat.
Proof.
  unfold resolve_channel_id_body.
  destruct (truthy x); simpl; [|lia].
  destruct (_looks_like_id x); simpl; [lia|].
  unfold try_except_SlackApiError, try_except.
  destruct (scan_channels_trace (lstrip "#" (default "" x))
              (conversations_list (client self)) None w) as (cs & Hc & Hs & _).
  destruct (scan_channels _ _ _ w) as [[v|ex] w1]; simpl in *.
  - rewrite Hc, channel_scans_app. simpl. lia.
  - destruct (is_SlackApiError ex); unfold_monad; simpl;
      rewrite Hc, channel_scans_app; simpl; lia.
Qed.

(** C8, as the code has it (cache correctness).  When a resolution of a
    label returns, also with [None], the next resolution of that label on
    the same instance is a cache hit: it returns the same result, sends no
    request and writes no log line.  Starting from a cache without the
    label, the two resolutions together start exactly one pagination scan
    when the label has to be looked up, and none when the label is empty
    or a literal identifier, which the method answers without a scan. *)
Theorem resolve_channel_id_twice
    (self : SlackClient) (label : option string) (w w1 : world)
    (v : option string) :
  resolve_channel_id self label w = (Ret v, w1) ->
  let again := resolve_channel_id self label w1 in
  again
  = (Ret v,
     set_channel_cache (lru_touch (self_id self, label) v (channel_cache w1)) w1)
  /\ calls (snd again) = calls w1
  /\ logs (snd again) = logs w1
  /\ (lru_lookup (self_id self, label) (channel_cache w) = None ->
      channel_scans (calls (snd again))
      = (channel_scans (calls w)
         + (if truthy label && negb (_looks_like_id label) then 1 else 0))%nat).
Proof.
  intros H again.
  assert (lru_lookup (self_id self, label) (channel_cache w1) = Some v) as Hhit.
  { apply (lru_cached_stored channel_cache set_channel_cache
             (resolve_channel_id_body self label) _ w); [reflexivity | | exact H].
    intros w0. apply (keeps_resolve_channel_id_body self label w0). }
  assert (again
          = (Ret v, set_channel_cache
                      (lru_touch (self_id self, label) v (channel_cache w1)) w1))
    as Hagain by now apply lru_cached_hit.
  rewrite Hagain. simpl. repeat split.
  intros Hmiss. unfold resolve_channel_id in H.
  rewrite (lru_cached_miss _ _ _ _ _ Hmiss) in H.
  pose proof (resolve_channel_id_body_scans self label w) as Hscans.
  destruct (resolve_channel_id_body self label w) as [[v0|ex] w'];
    [|discriminate].
  injection H as _ <-. exact Hscans.
Qed.

Lemma resolve_channel_id_twice_witness :
  let slack := Sample.slack false in
  let first := resolve_channel_id slack (Some "#nosuch") Sample.w0 in
  let again := resolve_channel_id slack (Some "#nosuch") (snd first) in
  fst first = Ret None /\ fst again = Ret None
  /\ calls (snd again) = [ConversationsList None; ConversationsList (Some "cur1")]
  /\ channel_scans (calls (snd again)) = 1%nat.
Proof.
  intros slack first again.
  assert (first = (Ret None, snd first)) as Hfirst by (vm_compute; reflexivity).
  destruct (resolve_channel_id_twice slack (Some "#nosuch") Sample.w0 (snd first)
              None Hfirst) as (Hagain & Hcalls & _ & Hscans).
  fold again in Hagain, Hcalls, Hscans.
  split; [now rewrite Hfirst|]. split; [now rewrite Hagain|].
  split; [rewrite Hcalls; vm_compute; reflexivity|].
  rewrite Hscans; reflexivity.
Defined.

(** C8 as stated fails for a literal identifier: resolving ["C0123"]
    twice starts no pagination scan at all, not one. *)
Lemma resolve_literal_twice_counterexample :
  let slack := Sample.slack false in
  let first := resolve_channel_id slack (Some "C0123") Sample.w0 in
  let again := resolve_channel_id slack (Some "C0123") (snd first) in
  fst first = Ret (Some "C0123") /\ fst again = Ret (Some "C0123")
  /\ calls (snd again) = []
  /\ channel_scans (calls (snd again)) <> 1%nat.
Proof.
  repeat split; try (vm_compute; reflexivity). vm_compute. discriminate.
Qed.

(** *** What the caches hold *)

Lemma lru_lookup_remove_ne k k' c :
  k' <> k -> lru_lookup k' (lru_remove k c) = lru_lookup k' c.
Proof.
  intros Hne. induction c as [|[k0 v0] c IH]; [reflexivity|]. simpl.
  unfold lru_key_eqb in *.
  destruct (bool_decide_reflect (k = k0)) as [->|Hk].
  - destruct (bool_decide_reflect (k' = k0)); [contradiction | reflexivity].
  - simpl. now rewrite IH.
Qed.

Lemma lru_lookup_removelast k v c :
  lru_lookup k (removelast c) = Some v -> lru_lookup k c = Some v.
Proof.
  induction c as [|[k0 v0] c IH]; [discriminate|].
  destruct c as [|kv c']; [discriminate|].
  change (removelast ((k0, v0) :: kv :: c')) with ((k0, v0) :: removelast (kv :: c')).
  intros H. simpl in H |- *. destruct (lru_key_eqb k k0); [exact H|].
  now apply IH.
Qed.

Lemma justified_touch P k v c :
  P k v -> justified P c -> justified P (lru_touch k v c).
Proof.
  intros Hkv Hc k' v' H. unfold lru_touch in H. simpl in H.
  unfold lru_key_eqb in H.
  destruct (bool_decide_reflect (k' = k)) as [->|Hne].
  - now injection H as <-.
  - apply Hc. now rewrite lru_lookup_remove_ne in H.
Qed.

Lemma justified_store P k v c :
  P k v -> justified P c -> justified P (lru_store k v c).
Proof.
  intros Hkv Hc k' v' H. unfold lru_store in H.
  destruct (lru_lookup k c); [now apply Hc|].
  assert (lru_lookup k' ((k, v) :: c) = Some v'
          \/ lru_lookup k' ((k, v) :: removelast c) = Some v') as Hcase
    by (destruct (maxsize <=? length c)%nat; auto).
  clear H. simpl in Hcase. unfold lru_key_eqb in Hcase.
  destruct (bool_decide_reflect (k' = k)) as [->|Hne].
  - destruct Hcase as [H|H]; now injection H as <-.
  - destruct Hcase as [H|H]; [now apply Hc|].
    apply Hc. now apply lru_lookup_removelast.
Qed.

(** The wrapper keeps a justified cache justified and returns a
    justified result, when the method does. *)
Lemma lru_cached_justified get set f k P w r w1 :
  (forall c w, get (set c w) = c) ->
  (forall w, get (snd (f w)) = get w) ->
  (forall w v w', f w = (Ret v, w') -> P k v) ->
  justified P (get w) ->
  lru_cached get set f k w = (r, w1) ->
  justified P (get w1) /\ (forall v, r = Ret v -> P k v).
Proof.
  intros Hgs Hkeep Hf Hc H. unfold lru_cached in H.
  destruct (lru_lookup k (get w)) as [v0|] eqn:Hk.
  - injection H as <- <-. rewrite Hgs. pose proof (Hc _ _ Hk) as Hkv.
    split; [now apply justified_touch | now intros v [= <-]].
  - pose proof (Hkeep w) as Hsame. pose proof (Hf w) as Hres.
    destruct (f w) as [[v0|ex] w'] eqn:Hfw; injection H as <- <-.
    + specialize (Hres _ _ eq_refl). rewrite Hgs. simpl in Hsame. rewrite Hsame.
      split; [now apply justified_store | now intros v [= <-]].
    + simpl in Hsame. rewrite Hsame. split; [exact Hc | discriminate].
Qed.

(** *** The scan of the member listing *)

Lemma keeps_scan_users needle l :
  forall cursor, steps same_caches id (scan_users needle cursor l).
Proof.
  induction l as [items|items next rest IH|ex]; intros cursor; simpl; grows.
  apply IH.
Qed.

Lemma keeps_resolve_user_id_body self x :
  steps same_caches id (resolve_user_id_body self x).
Proof. unfold resolve_user_id_body. grows. apply keeps_scan_users. Qed.

Lemma member_matches_not_deleted needle u :
  member_matches needle u = true -> deleted u = false.
Proof. unfold member_matches. now destruct (deleted u). Qed.

(** An identifier the scan returns is that of a member on one of the
    pages, not deleted, that the lookup matches. *)
Lemma scan_users_found needle l :
  forall cursor w uid w',
    scan_users needle cursor l w = (Ret (Some uid), w') ->
    exists u, u ∈ members_of l /\ deleted u = false
              /\ member_matches needle u = true /\ m_id u = Some uid.
Proof.
  induction l as [items|items next rest IH|ex]; intros cursor w uid w' H;
    simpl in H; unfold_monad; unfold api_request in H; simpl in H.
  - destruct (find _ items) as [u|] eqn:Hfind; [|discriminate].
    injection H as Hid _. apply find_some in Hfind as [Hin Hm].
    exists u. simpl. rewrite list_elem_of_In.
    eauto using member_matches_not_deleted.
  - destruct (find _ items) as [u|] eqn:Hfind.
    + injection H as Hid _. apply find_some in Hfind as [Hin Hm].
      exists u. simpl. rewrite elem_of_app, list_elem_of_In.
      split; [now left|]. eauto using member_matches_not_deleted.
    + destruct next as [|a next]; [discriminate|].
      apply IH in H as (u & Hin & Hrest). exists u. simpl.
      rewrite elem_of_app. auto.
  - discriminate.
Qed.

Lemma looks_like_id_truthy x : _looks_like_id x = true -> truthy x = true.
Proof. destruct x as [[|a s]|]; simpl; auto. Qed.

Lemma resolve_channel_id_body_ok self x w v w' :
  resolve_channel_id_body self x w = (Ret v, w') ->
  channel_entry_ok (self_id self, x) v.
Proof.
  intros H Hlit. simpl in Hlit. unfold resolve_channel_id_body in H.
  rewrite (looks_like_id_truthy _ Hlit), Hlit in H. simpl in H.
  now injection H as <- _.
Qed.

Lemma resolve_user_id_body_ok self x w v w' :
  resolve_user_id_body self x w = (Ret v, w') ->
  user_entry_ok self (self_id self, x) v.
Proof.
  intros H _. simpl. unfold resolve_user_id_body in H. fold (user_literal x) in H.
  destruct (truthy x) eqn:Htr; simpl in H.
  - destruct (user_literal x); [now injection H as <- _|].
    intros uid ->. unfold try_except_SlackApiError, try_except in H.
    destruct (scan_users _ None _ w) as [[v0|ex] w1] eqn:Hscan.
    + injection H as -> _. apply scan_users_found in Hscan. exact Hscan.
    + destruct (is_SlackApiError ex); unfold_monad; simpl in H; discriminate.
  - assert (user_literal x = false) as ->.
    { unfold user_literal. destruct (_looks_like_id x) eqn:Hl; [|reflexivity].
      apply looks_like_id_truthy in Hl. congruence. }
    injection H as <- _. discriminate.
Qed.

(** *** The methods keep the caches good *)

#[local] Instance keeps_ok_preorder self : PreOrder (keeps_ok self).
Proof. split; unfold keeps_ok; [intros w; auto | intros w1 w2 w3; auto]. Qed.

Lemma steps_weaken {S A} (R R' : relation world) (proj : S -> world) (m : M S A) :
  (forall w w', R w w' -> R' w w') -> steps R proj m -> steps R' proj m.
Proof. intros HR Hm s. apply HR, Hm. Qed.

Lemma same_caches_keeps_ok self w w' : same_caches w w' -> keeps_ok self w w'.
Proof. intros (H1 & H2 & H3) [Hc Hu]. split; [now rewrite H1 | now rewrite H2]. Qed.

Lemma ok_of_keeps {A} self (m : M world A) :
  steps same_caches id m -> steps (keeps_ok self) id m.
Proof. apply steps_weaken, same_caches_keeps_ok. Qed.

Lemma ok_resolve_channel_id self self' x :
  steps (keeps_ok self) id (resolve_channel_id self' x).
Proof.
  intros w [Hc Hu]. cbv [id] in *.
  destruct (resolve_channel_id self' x w) as [r w1] eqn:H. simpl.
  pose proof H as Hcache. unfold resolve_channel_id in H.
  apply (lru_cached_justified _ _ _ _ channel_entry_ok) in H as [Hc1 _];
    [ | reflexivity
      | intros w0; apply (keeps_resolve_channel_id_body self' x w0)
      | intros w0 v w0'; apply resolve_channel_id_body_ok
      | exact Hc ].
  split; [exact Hc1|].
  assert (user_cache w1 = user_cache w) as ->; [|exact Hu].
  unfold resolve_channel_id, lru_cached in Hcache.
  destruct (lru_lookup _ (channel_cache w)); [now injection Hcache as _ <-|].
  pose proof (keeps_resolve_channel_id_body self' x w) as (_ & Hsame & _).
  destruct (resolve_channel_id_body self' x w) as [[v|ex] w']; simpl in *;
    injection Hcache as _ <-; exact Hsame.
Qed.

Lemma ok_resolve_user_id self x :
  steps (keeps_ok self) id (resolve_user_id self x).
Proof.
  intros w [Hc Hu]. cbv [id] in *.
  destruct (resolve_user_id self x w) as [r w1] eqn:H. simpl.
  pose proof H as Hcache. unfold resolve_user_id in H.
  apply (lru_cached_justified _ _ _ _ (user_entry_ok self)) in H as [Hu1 _];
    [ | reflexivity
      | intros w0; apply (keeps_resolve_user_id_body self x w0)
      | intros w0 v w0'; apply resolve_user_id_body_ok
      | exact Hu ].
  split; [|exact Hu1].
  assert (channel_cache w1 = channel_cache w) as ->; [|exact Hc].
  unfold resolve_user_id, lru_cached in Hcache.
  destruct (lru_lookup _ (user_cache w)); [now injection Hcache as _ <-|].
  pose proof (keeps_resolve_user_id_body self x w) as (Hsame & _ & _).
  destruct (resolve_user_id_body self x w) as [[v|ex] w']; simpl in *;
    injection Hcache as _ <-; exact Hsame.
Qed.

Lemma keeps_dm_channel_for_body self' x :
  steps same_caches id (dm_channel_for_body self' x).
Proof. unfold dm_channel_for_body. grows. Qed.

Lemma ok_dm_channel_for self self' x :
  steps (keeps_ok self) id (dm_channel_for self' x).
Proof.
  intros w [Hc Hu]. cbv [id] in *. unfold dm_channel_for, lru_cached.
  destruct (lru_lookup _ (dm_cache w)); [split; assumption|].
  pose proof (keeps_dm_channel_for_body self' x w) as (H1 & H2 & _).
  destruct (dm_channel_for_body self' x w) as [[v|ex] w']; simpl in *;
    split; simpl; [rewrite H1 | rewrite H2 | rewrite H1 | rewrite H2]; assumption.
Qed.

Ltac ok_step :=
  first
    [ apply ok_resolve_channel_id | apply ok_resolve_user_id
    | apply ok_dm_channel_for
    | apply ok_of_keeps;
      first [ apply keeps_logger | apply keeps_api_request | apply keeps_get_calls
            | apply keeps_emit_log ]
    | grows_step ].

Lemma ok_post self self' chan text label :
  steps (keeps_ok self) id (_post self' chan text label).
Proof. unfold _post. repeat ok_step. Qed.

Lemma ok_send_to_shikigami_feed self text ping :
  steps (keeps_ok self) id (send_to_shikigami_feed self text ping).
Proof.
  unfold send_to_shikigami_feed.
  apply steps_bind; try exact _; [repeat ok_step|].
  intros ch. destruct (negb (truthy ch)); [repeat ok_step | apply ok_post].
Qed.

Lemma ok_send_to_surgery_channel self text ping :
  steps (keeps_ok self) id (send_to_surgery_channel self text ping).
Proof.
  unfold send_to_surgery_channel.
  apply steps_bind; try exact _; [repeat ok_step|].
  intros ch. destruct (negb (truthy ch)); [repeat ok_step | apply ok_post].
Qed.

Lemma ok_dm_user_if_enabled self enabled who_label who_value text :
  steps (keeps_ok self) id (_dm_user_if_enabled self enabled who_label who_value text).
Proof.
  unfold _dm_user_if_enabled.
  destruct (negb enabled); [repeat ok_step|].
  destruct (negb (truthy who_value)); [repeat ok_step|].
  apply steps_bind; try exact _; [apply ok_resolve_user_id|]. intros uid.
  destruct (negb (truthy uid)); [repeat ok_step|].
  apply steps_bind; try exact _; [apply ok_dm_channel_for|]. intros dm.
  destruct (negb (truthy dm)); [repeat ok_step | apply ok_post].
Qed.

(** In a fresh process the caches are empty, hence good. *)
Lemma caches_ok_empty self w :
  channel_cache w = [] -> user_cache w = [] -> caches_ok self w.
Proof. intros Hc Hu. split; intros k v; rewrite ?Hc, ?Hu; discriminate. Qed.

Lemma scan_users_first_request needle l cursor w :
  exists cs,
    calls (snd (scan_users needle cursor l w)) = (calls w ++ UsersList cursor :: cs)%list.
Proof.
  pose proof (grows_scan_users needle) as Hg.
  destruct l as [items|items next rest|ex]; simpl; unfold_monad;
    unfold api_request; simpl.
  - exists []. now destruct (find _ items).
  - destruct (find _ items); [now exists []|].
    destruct next as [|a next]; [now exists []|].
    destruct (Hg rest (Some (String a next)) (add_call (UsersList cursor) w))
      as [_ [cs Hc]].
    cbv [id] in Hc. exists cs. rewrite Hc. simpl. now rewrite <- app_assoc.
  - now exists [].
Qed.

(** C9, as the code has it (literal passthrough).  On a world whose
    caches hold what the methods stored, an argument that starts with one
    of [C], [D], [G], [U] is returned as it is by [resolve_channel_id],
    without a request and without a log line.  [resolve_user_id] does so
    only for an argument that starts with [U]; one that starts with [C],
    [D] or [G] is looked up like a name: when it is not cached, the method
    requests the first page of members. *)
Theorem literal_passthrough (self : SlackClient) (s : string) (w : world) :
  caches_ok self w ->
  _looks_like_id (Some s) = true ->
  (let r := resolve_channel_id self (Some s) w in
   fst r = Ret (Some s) /\ calls (snd r) = calls w /\ logs (snd r) = logs w)
  /\ (startswith "U" s = true ->
      let r := resolve_user_id self (Some s) w in
      fst r = Ret (Some s) /\ calls (snd r) = calls w /\ logs (snd r) = logs w)
  /\ (startswith "U" s = false ->
      lru_lookup (self_id self, Some s) (user_cache w) = None ->
      exists cs,
        calls (snd (resolve_user_id self (Some s) w))
        = (calls w ++ UsersList None :: cs)%list).
Proof.
  intros [Hc Hu] Hlit. pose proof (looks_like_id_truthy _ Hlit) as Htr.
  split; [|split].
  - unfold resolve_channel_id, lru_cached.
    destruct (lru_lookup _ (channel_cache w)) as [v|] eqn:Hk.
    + apply Hc in Hk. specialize (Hk Hlit). simpl in Hk. subst v. auto.
    + unfold resolve_channel_id_body. rewrite Htr, Hlit. simpl. auto.
  - intros HU. unfold resolve_user_id, lru_cached.
    assert (user_literal (Some s) = true) as Hul
      by (unfold user_literal; simpl in *; now rewrite Hlit, HU).
    destruct (lru_lookup _ (user_cache w)) as [v|] eqn:Hk.
    + apply Hu in Hk. specialize (Hk eq_refl). simpl in Hk.
      rewrite Hul in Hk. subst v. auto.
    + unfold resolve_user_id_body. fold (user_literal (Some s)).
      rewrite Htr, Hul. simpl. auto.
  - intros HU Hmiss. unfold resolve_user_id. rewrite (lru_cached_miss _ _ _ _ _ Hmiss).
    unfold resolve_user_id_body. rewrite Htr, Hlit.
    change (default "" (Some s)) with s. rewrite HU.
    simpl. unfold try_except_SlackApiError, try_except.
    destruct (scan_users_first_request (lstrip "@" s) (users_list (client self))
                None w) as [cs Hcs].
    exists cs.
    destruct (scan_users _ None _ w) as [[v|ex] w1]; simpl in *; [exact Hcs|].
    destruct (is_SlackApiError ex); unfold_monad; simpl; exact Hcs.
Qed.

Lemma literal_passthrough_witness :
  fst (resolve_channel_id (Sample.slack false) (Some "C0123") Sample.w0)
  = Ret (Some "C0123")
  /\ fst (resolve_user_id (Sample.slack false) (Some "U0456") Sample.w0)
     = Ret (Some "U0456").
Proof.
  destruct (literal_passthrough (Sample.slack false) "C0123" Sample.w0)
    as [(H1 & _) _].
  - apply caches_ok_empty; reflexivity.
  - reflexivity.
  - destruct (literal_passthrough (Sample.slack false) "U0456" Sample.w0)
      as (_ & H2 & _).
    + apply caches_ok_empty; reflexivity.
    + reflexivity.
    + split; [exact H1 | exact (proj1 (H2 eq_refl))].
Defined.

(** C9 as stated fails for [resolve_user_id]: the argument ["C0123"] has
    the shape of an identifier, yet the method requests the member list
    and returns the identifier of the member whose display name it is. *)
Lemma user_literal_counterexample :
  _looks_like_id (Some "C0123") = true
  /\ resolve_user_id (Sample.slack false) (Some "C0123") Sample.w0
     = (Ret (Some "U2"),
        set_user_cache [((0%nat, Some "C0123"), Some "U2")]
          (add_call (UsersList None) Sample.w0)).
Proof. split; vm_compute; reflexivity. Qed.

(** C10, as the code has it (deleted members).  On a world whose caches
    hold what the methods stored, an identifier that [resolve_user_id]
    returns for an argument it does not pass through as a literal is the
    identifier of a member of the directory that is not deleted and whose
    user name, display name or real name is the name looked up.  An
    argument that starts with [U] is returned as it is, whoever it
    names. *)
Theorem resolved_user_not_deleted
    (self : SlackClient) (name : option string) (w w1 : world) (uid : string) :
  caches_ok self w ->
  user_literal name = false ->
  resolve_user_id self name w = (Ret (Some uid), w1) ->
  exists u,
    u ∈ members_of (users_list (client self))
    /\ deleted u = false
    /\ member_matches (lstrip "@" (default "" name)) u = true
    /\ m_id u = Some uid.
Proof.
  intros [Hc Hu] Hlit H. unfold resolve_user_id in H.
  apply (lru_cached_justified _ _ _ _ (user_entry_ok self)) in H as [_ Hres];
    [ | reflexivity
      | intros w0; apply (keeps_resolve_user_id_body self name w0)
      | intros w0 v w0'; apply resolve_user_id_body_ok
      | exact Hu ].
  specialize (Hres _ eq_refl eq_refl). simpl in Hres. rewrite Hlit in Hres.
  exact (Hres uid eq_refl).
Qed.

Lemma resolved_user_not_deleted_witness :
  exists u,
    u ∈ members_of (users_list Sample.svc)
    /\ deleted u = false
    /\ member_matches "boss" u = true
    /\ m_id u = Some "U8".
Proof.
  apply (resolved_user_not_deleted (Sample.slack false) (Some "@boss") Sample.w0
           (snd (resolve_user_id (Sample.slack false) (Some "@boss") Sample.w0))
           "U8").
  - apply caches_ok_empty; reflexivity.
  - reflexivity.
  - vm_compute. reflexivity.
Defined.

(** C10 as stated fails for a literal argument: [U7] is the identifier
    of a deleted member of the sample directory, and of no other member,
    and [resolve_user_id] returns it. *)
Lemma deleted_literal_counterexample :
  fst (resolve_user_id (Sample.slack false) (Some "U7") Sample.w0) = Ret (Some "U7")
  /\ (exists u, u ∈ members_of (users_list Sample.svc)
                /\ m_id u = Some "U7" /\ deleted u = true)
  /\ ~ (exists u, u ∈ members_of (users_list Sample.svc)
                  /\ m_id u = Some "U7" /\ deleted u = false).
Proof.
  split; [vm_compute; reflexivity|]. split.
  - eexists. split; [apply list_elem_of_here|]. split; reflexivity.
  - intros (u & Hin & Hid & Hdel). simpl in Hin.
    rewrite !elem_of_cons in Hin. rewrite elem_of_nil in Hin.
    destruct Hin as [-> | [-> | [-> | []]]]; simpl in *; discriminate.
Qed.

(** *** The caches stay good through the view *)

Lemma ok_incr_sent self : steps (keeps_ok self) snd incr_sent.
Proof. intros s Hok. exact Hok. Qed.

Lemma ok_incr_skipped self : steps (keeps_ok self) snd incr_skipped.
Proof. intros s Hok. exact Hok. Qed.

Lemma ok_incr_errors self : steps (keeps_ok self) snd incr_errors.
Proof. intros s Hok. exact Hok. Qed.

Lemma ok_notes_append self n : steps (keeps_ok self) snd (notes_append n).
Proof. intros s Hok. exact Hok. Qed.

Lemma ok_get_tally self : steps (keeps_ok self) snd get_tally.
Proof. intros s Hok. exact Hok. Qed.

Ltac ok_frame :=
  repeat first
    [ apply ok_incr_sent | apply ok_incr_skipped | apply ok_incr_errors
    | apply ok_notes_append | apply ok_get_tally
    | apply steps_lift;
      first [ apply ok_send_to_surgery_channel
            | apply ok_send_to_shikigami_feed
            | apply ok_dm_user_if_enabled
            | apply ok_of_keeps; apply keeps_logger ]
    | ok_step ].

Lemma ok_notify_entry slack fw db force today e :
  steps (keeps_ok slack) snd (notify_entry slack fw db force today e).
Proof.
  unfold notify_entry, getitem, dispatch, skip_by_flags, send_reminder,
    send_failed, dm_surgery_manager, dm_shikigami_manager.
  apply steps_bind; try exact _; [apply steps_of_outcome; exact _|].
  intros statuses. destruct statuses as [|status rest]; [ok_frame|].
  destruct (negb _); [ok_frame|].
  apply steps_bind; try exact _; [destruct (num_to_word !! _); ok_frame|].
  intros word. destruct (should_send _ _ _); ok_frame.
Qed.

Lemma ok_run_sweep slack fw db force today :
  steps (keeps_ok slack) snd (run_sweep slack fw db force today).
Proof.
  unfold run_sweep, sweep, sweep_failed, escalate, dm_shikigami_manager.
  apply steps_bind; try exact _; [|intros []; ok_frame].
  apply steps_try_except; try exact _; [|intros ex; ok_frame].
  apply steps_bind; try exact _; [apply steps_of_outcome; exact _|].
  intros surgeries. apply steps_for_each; [exact _|].
  intros e. apply ok_notify_entry.
Qed.

Lemma ok_run_test_mode slack :
  steps (keeps_ok slack) id (run_test_mode slack).
Proof.
  unfold run_test_mode, dm_surgery_manager, dm_shikigami_manager.
  repeat first
    [ apply ok_send_to_surgery_channel | apply ok_send_to_shikigami_feed
    | apply ok_dm_user_if_enabled
    | apply ok_of_keeps; apply keeps_logger
    | ok_step ].
Qed.

(** The view leaves the caches good for its client: what the passthrough
    and the lookup ask of the world holds in a fresh process and after
    every request. *)
Lemma view_keeps_caches_ok id cfg svc fw db force run_test today w :
  let slack := {| self_id := id; env := cfg; client := svc |} in
  caches_ok slack w ->
  caches_ok slack (snd (surgery_notification id cfg svc fw db force run_test today w)).
Proof.
  intros slack Hok.
  assert (exists w0, SlackClient_init id cfg svc w = (Ret slack, w0)
                     /\ caches_ok slack w0) as (w0 & Hinit & Hok0).
  { unfold SlackClient_init. unfold_monad.
    destruct (negb _); simpl; eexists; (split; [reflexivity|]);
      [destruct Hok; split; assumption | exact Hok]. }
  unfold surgery_notification. unfold_monad. rewrite Hinit.
  destruct run_test.
  - apply (ok_run_test_mode slack w0 Hok0).
  - unfold with_locals.
    pose proof (ok_run_sweep slack fw db force today (tally0, w0) Hok0) as H.
    destruct (run_sweep slack fw db force today (tally0, w0)) as [r s'].
    exact H.
Qed.

(** * Further properties *)

(** ** The resolvers as searches *)

Lemma find_app {A} (p : A -> bool) (l1 l2 : list A) :
  find p (l1 ++ l2)
  = match find p l1 with Some x => Some x | None => find p l2 end.
Proof.
  induction l1 as [|a l1 IH]; [reflexivity|]. simpl.
  destruct (p a); [reflexivity | exact IH].
Qed.

(** The scan of the channel pages answers like a search of the items
    read: the first channel of that name, else what ends the chain. *)
Lemma scan_channels_result cname l :
  forall cursor w,
    fst (scan_channels cname cursor l w)
    = match find (fun ch => bool_decide (ch_name ch = Some cname)) (seen l) with
      | Some ch => Ret (ch_id ch)
      | None => match ends_in_error l with
                | None => Ret None
                | Some e => Raise e
                end
      end.
Proof.
  induction l as [items|items next rest IH|ex]; intros cursor w; simpl;
    unfold_monad; unfold api_request; simpl.
  - now destruct (find _ items).
  - rewrite find_app. destruct (find _ items); [reflexivity|].
    destruct next as [|a next]; [reflexivity|]. apply IH.
  - reflexivity.
Qed.

Lemma scan_users_result needle l :
  forall cursor w,
    fst (scan_users needle cursor l w)
    = match find (member_matches needle) (seen l) with
      | Some u => Ret (m_id u)
      | None => match ends_in_error l with
                | None => Ret None
                | Some e => Raise e
                end
      end.
Proof.
  induction l as [items|items next rest IH|ex]; intros cursor w; simpl;
    unfold_monad; unfold api_request; simpl.
  - now destruct (find _ items).
  - rewrite find_app. destruct (find _ items); [reflexivity|].
    destruct next as [|a next]; [reflexivity|]. apply IH.
  - reflexivity.
Qed.

Lemma resolve_channel_id_body_result self x w :
  fst (resolve_channel_id_body self x w) = channel_result self x.
Proof.
  unfold resolve_channel_id_body, channel_result, not_found.
  destruct (negb (truthy x)); [reflexivity|].
  destruct (_looks_like_id x); [reflexivity|].
  unfold try_except_SlackApiError, try_except.
  pose proof (scan_channels_result (lstrip "#" (default "" x))
                (conversations_list (client self)) None w) as H.
  destruct (scan_channels _ None _ w) as [[v|ex] w1]; simpl in H.
  - destruct (find _ _); [exact H|].
    destruct (ends_in_error _); [discriminate | exact H].
  - destruct (find _ _); [discriminate|].
    destruct (ends_in_error _) as [e|]; [|discriminate].
    injection H as ->. now destruct (is_SlackApiError e).
Qed.

Lemma resolve_user_id_body_result self x w :
  fst (resolve_user_id_body self x w) = user_result self x.
Proof.
  unfold resolve_user_id_body, user_result, not_found. fold (user_literal x).
  destruct (negb (truthy x)); [reflexivity|].
  destruct (user_literal x); [reflexivity|].
  unfold try_except_SlackApiError, try_except.
  pose proof (scan_users_result (lstrip "@" (default "" x))
                (users_list (client self)) None w) as H.
  destruct (scan_users _ None _ w) as [[v|ex] w1]; simpl in H.
  - destruct (find _ _); [exact H|].
    destruct (ends_in_error _); [discriminate | exact H].
  - destruct (find _ _); [discriminate|].
    destruct (ends_in_error _) as [e|]; [|discriminate].
    injection H as ->. now destruct (is_SlackApiError e).
Qed.

(** A cached resolver with a sound cache answers like the search. *)
Lemma lru_cached_result get set f k (answer : outcome (option string)) w :
  (forall w0, fst (f w0) = answer) ->
  (forall v, lru_lookup k (get w) = Some v -> answer = Ret v) ->
  fst (lru_cached get set f k w) = answer.
Proof.
  intros Hf Hhit. unfold lru_cached.
  destruct (lru_lookup k (get w)) as [v|].
  - simpl. symmetry. now apply Hhit.
  - specialize (Hf w). now destruct (f w) as [[v|ex] w1].
Qed.

(** ** What holds of every method holds of the view *)

Lemma steps_counters (R : relation world) `{!Reflexive R} (f : tally -> tally) :
  steps R snd (fun s : frame => (Ret tt, (f (fst s), snd s))).
Proof. intros s. simpl. reflexivity. Qed.

Lemma steps_get_tally (R : relation world) `{!Reflexive R} :
  steps R snd get_tally.
Proof. intros s. simpl. reflexivity. Qed.

Lemma SlackClient_eta (self : SlackClient) :
  {| self_id := self_id self; env := env self; client := client self |} = self.
Proof. now destruct self. Qed.

(** A relation that the logger, the resolvers and [_post] of [self]
    respect is respected by the helpers and by the view built on them. *)
Section ThroughView.
Context (self : SlackClient) (R : relation world) `{!PreOrder R}.
Hypothesis R_methods : respects self R.

Lemma respects_logger r : steps R id (logger r).
Proof. apply R_methods. Qed.

Lemma respects_post chan text label : steps R id (_post self chan text label).
Proof. apply R_methods. Qed.

Lemma respects_channel x : steps R id (resolve_channel_id self x).
Proof. apply R_methods. Qed.

Lemma respects_user x : steps R id (resolve_user_id self x).
Proof. apply R_methods. Qed.

Lemma respects_dm x : steps R id (dm_channel_for self x).
Proof. apply R_methods. Qed.

Lemma through_emit_log phase target text resolved extra :
  steps R id (_emit_log self phase target text resolved extra).
Proof. apply respects_logger. Qed.

Ltac through_step :=
  first
    [ apply respects_logger | apply respects_post | apply respects_channel | apply respects_user | apply respects_dm
    | apply through_emit_log
    | apply (steps_counters R) | apply (steps_get_tally R)
    | apply steps_lift
    | grows_step ].

Lemma through_send_to_shikigami_feed text ping :
  steps R id (send_to_shikigami_feed self text ping).
Proof. unfold send_to_shikigami_feed. repeat through_step. Qed.

Lemma through_send_to_surgery_channel text ping :
  steps R id (send_to_surgery_channel self text ping).
Proof. unfold send_to_surgery_channel. repeat through_step. Qed.

Lemma through_dm_user_if_enabled enabled who_label who_value text :
  steps R id (_dm_user_if_enabled self enabled who_label who_value text).
Proof. unfold _dm_user_if_enabled. repeat through_step. Qed.

Ltac through_helper :=
  first
    [ apply steps_lift;
      first [ apply through_send_to_shikigami_feed
            | apply through_send_to_surgery_channel
            | apply through_dm_user_if_enabled ]
    | apply through_send_to_shikigami_feed
    | apply through_send_to_surgery_channel
    | apply through_dm_user_if_enabled
    | through_step ].

Lemma through_notify_entry fw db force today e :
  steps R snd (notify_entry self fw db force today e).
Proof.
  unfold notify_entry, getitem, dispatch, skip_by_flags, send_reminder,
    send_failed, dm_surgery_manager, dm_shikigami_manager,
    incr_sent, incr_skipped, incr_errors, notes_append.
  apply steps_bind; try exact _; [apply steps_of_outcome; exact _|].
  intros statuses. destruct statuses as [|status rest]; [repeat through_helper|].
  destruct (negb _); [repeat through_helper|].
  apply steps_bind; try exact _; [destruct (num_to_word !! _); repeat through_helper|].
  intros word. destruct (should_send _ _ _); repeat through_helper.
Qed.

Lemma through_run_sweep fw db force today :
  steps R snd (run_sweep self fw db force today).
Proof.
  unfold run_sweep, sweep, sweep_failed, escalate, dm_shikigami_manager,
    incr_errors.
  apply steps_bind; try exact _; [|intros []; repeat through_helper].
  apply steps_try_except; try exact _; [|intros ex; repeat through_helper].
  apply steps_bind; try exact _; [apply steps_of_outcome; exact _|].
  intros surgeries. apply steps_for_each; [exact _|].
  intros e. apply through_notify_entry.
Qed.

Lemma through_run_test_mode : steps R id (run_test_mode self).
Proof.
  unfold run_test_mode, dm_surgery_manager, dm_shikigami_manager.
  repeat through_helper.
Qed.

Lemma through_view fw db force run_test today :
  steps R id
    (surgery_notification (self_id self) (env self) (client self) fw db
       force run_test today).
Proof.
  intros w. cbv [id].
  assert (exists w0,
            SlackClient_init (self_id self) (env self) (client self) w = (Ret self, w0)
            /\ R w w0) as (w0 & Hinit & HR).
  { unfold SlackClient_init. unfold_monad. rewrite SlackClient_eta.
    destruct (negb _); simpl; eexists; (split; [reflexivity|]);
      [apply (respects_logger _ w) | reflexivity]. }
  unfold surgery_notification. unfold_monad. rewrite Hinit.
  transitivity w0; [exact HR|]. destruct run_test.
  - apply through_run_test_mode.
  - unfold with_locals.
    pose proof (through_run_sweep fw db force today (tally0, w0)) as H.
    destruct (run_sweep self fw db force today (tally0, w0)) as [r s']. exact H.
Qed.

End ThroughView.

(** ** What the caches hold, and how much *)

#[local] Instance keeps_preorder (I : world -> Prop) : PreOrder (keeps I).
Proof. split; unfold keeps; [intros w; auto | intros w1 w2 w3; auto]. Qed.

Lemma keeps_post self chan text label :
  steps same_caches id (_post self chan text label).
Proof. unfold _post. grows. Qed.

(** The wrapper leaves alone what neither it nor the method writes. *)
Lemma lru_cached_frame {B} get set f k (proj : world -> B) w :
  (forall c w, proj (set c w) = proj w) ->
  (forall w, proj (snd (f w)) = proj w) ->
  proj (snd (lru_cached get set f k w)) = proj w.
Proof.
  intros Hset Hf. unfold lru_cached.
  destruct (lru_lookup k (get w)); simpl; [apply Hset|].
  specialize (Hf w). destruct (f w) as [[v|ex] w1]; simpl in *;
    [now rewrite Hset | exact Hf].
Qed.

Lemma resolve_channel_id_frame self x w :
  user_cache (snd (resolve_channel_id self x w)) = user_cache w
  /\ dm_cache (snd (resolve_channel_id self x w)) = dm_cache w.
Proof.
  split; apply lru_cached_frame; try reflexivity; intros w0;
    apply (keeps_resolve_channel_id_body self x w0).
Qed.

Lemma resolve_user_id_frame self x w :
  channel_cache (snd (resolve_user_id self x w)) = channel_cache w
  /\ dm_cache (snd (resolve_user_id self x w)) = dm_cache w.
Proof.
  split; apply lru_cached_frame; try reflexivity; intros w0;
    apply (keeps_resolve_user_id_body self x w0).
Qed.

Lemma dm_channel_for_frame self x w :
  channel_cache (snd (dm_channel_for self x w)) = channel_cache w
  /\ user_cache (snd (dm_channel_for self x w)) = user_cache w.
Proof.
  split; apply lru_cached_frame; try reflexivity; intros w0;
    apply (keeps_dm_channel_for_body self x w0).
Qed.

(** *** Sound caches *)

Lemma sound_same self w w' :
  same_caches w w' -> keeps (caches_sound self) w w'.
Proof. intros (H1 & H2 & _) [Hc Hu]. split; [now rewrite H1 | now rewrite H2]. Qed.

Lemma sound_resolve_channel_id self x :
  steps (keeps (caches_sound self)) id (resolve_channel_id self x).
Proof.
  intros w [Hc Hu]. cbv [id] in *.
  destruct (resolve_channel_id_frame self x w) as [Hu1 _].
  destruct (resolve_channel_id self x w) as [r w1] eqn:H. simpl in *.
  unfold resolve_channel_id in H.
  apply (lru_cached_justified _ _ _ _ (channel_entry_sound self)) in H as [Hc1 _];
    [ | reflexivity
      | intros w0; apply (keeps_resolve_channel_id_body self x w0)
      | | exact Hc ].
  - split; [exact Hc1 | now rewrite Hu1].
  - intros w0 v w0' Hb _. simpl.
    rewrite <- (resolve_channel_id_body_result self x w0). now rewrite Hb.
Qed.

Lemma sound_resolve_user_id self x :
  steps (keeps (caches_sound self)) id (resolve_user_id self x).
Proof.
  intros w [Hc Hu]. cbv [id] in *.
  destruct (resolve_user_id_frame self x w) as [Hc1 _].
  destruct (resolve_user_id self x w) as [r w1] eqn:H. simpl in *.
  unfold resolve_user_id in H.
  apply (lru_cached_justified _ _ _ _ (user_entry_sound self)) in H as [Hu1 _];
    [ | reflexivity
      | intros w0; apply (keeps_resolve_user_id_body self x w0)
      | | exact Hu ].
  - split; [now rewrite Hc1 | exact Hu1].
  - intros w0 v w0' Hb _. simpl.
    rewrite <- (resolve_user_id_body_result self x w0). now rewrite Hb.
Qed.

Lemma sound_dm_channel_for self x :
  steps (keeps (caches_sound self)) id (dm_channel_for self x).
Proof.
  intros w [Hc Hu]. cbv [id] in *.
  destruct (dm_channel_for_frame self x w) as [Hc1 Hu1].
  split; [now rewrite Hc1 | now rewrite Hu1].
Qed.

Lemma caches_sound_empty self w :
  channel_cache w = [] -> user_cache w = [] -> caches_sound self w.
Proof. intros Hc Hu. split; intros k v; rewrite ?Hc, ?Hu; discriminate. Qed.

(** X1 (sound caches are kept).  The entries of the two resolver caches
    that belong to a client hold the answers of the searches of its
    directory: so it is when the caches are empty, and so it stays through
    each resolver, each helper and the whole view of that client. *)
Theorem caches_sound_kept
    (self : SlackClient) (fw : flask_runtime) (db : record_store)
    (force run_test : bool) (today : Z) (w : world) :
  caches_sound self w ->
  (forall x, caches_sound self (snd (resolve_channel_id self x w)))
  /\ (forall x, caches_sound self (snd (resolve_user_id self x w)))
  /\ (forall x, caches_sound self (snd (dm_channel_for self x w)))
  /\ (forall text ping, caches_sound self (snd (send_to_surgery_channel self text ping w)))
  /\ (forall text ping, caches_sound self (snd (send_to_shikigami_feed self text ping w)))
  /\ (forall text, caches_sound self (snd (dm_surgery_manager self text w)))
  /\ (forall text, caches_sound self (snd (dm_shikigami_manager self text w)))
  /\ caches_sound self
       (snd (surgery_notification (self_id self) (env self) (client self)
               fw db force run_test today w)).
Proof.
  intros Hs.
  assert (respects self (keeps (caches_sound self))) as Hr.
  { refine (conj _ (conj _ (conj _ (conj _ _)))).
    - intros r w0. apply sound_same, (keeps_logger r w0).
    - intros chan text label w0.
      apply sound_same, (keeps_post self chan text label w0).
    - apply sound_resolve_channel_id.
    - apply sound_resolve_user_id.
    - apply sound_dm_channel_for. }
  refine (conj _ (conj _ (conj _ (conj _ (conj _ (conj _ (conj _ _))))))); intros.
  - now apply (sound_resolve_channel_id self x w).
  - now apply (sound_resolve_user_id self x w).
  - now apply (sound_dm_channel_for self x w).
  - now apply (through_send_to_surgery_channel self _ Hr text ping w).
  - now apply (through_send_to_shikigami_feed self _ Hr text ping w).
  - now apply (through_dm_user_if_enabled self _ Hr _ _ _ text w).
  - now apply (through_dm_user_if_enabled self _ Hr _ _ _ text w).
  - now apply (through_view self _ Hr fw db force run_test today w).
Qed.

Lemma caches_sound_kept_witness :
  caches_sound (Sample.slack false)
    (snd (surgery_notification 0 (Sample.cfg false) Sample.svc Sample.fw Sample.db
            false false Sample.today Sample.w0)).
Proof.
  apply (caches_sound_kept (Sample.slack false) Sample.fw Sample.db false false
           Sample.today Sample.w0).
  apply caches_sound_empty; reflexivity.
Defined.

(** X2 (the cached channel resolver is the search).  With sound caches,
    [resolve_channel_id] answers what a search of the pages read answers:
    [None] for an empty argument, a literal identifier as it is, else the
    identifier of the first channel, in page order, whose name is the
    argument without its leading [#]s; when there is none, [None], also
    when a page request raised [SlackApiError]; any other exception of a
    page request goes on to the caller unless a channel was found on an
    earlier page. *)
Theorem resolve_channel_id_is_search
    (self : SlackClient) (x : option string) (w : world) :
  caches_sound self w ->
  fst (resolve_channel_id self x w) = channel_result self x.
Proof.
  intros [Hc _]. apply lru_cached_result.
  - intros w0. apply resolve_channel_id_body_result.
  - intros v Hv. now apply (Hc _ _ Hv).
Qed.

Lemma resolve_channel_id_is_search_witness :
  fst (resolve_channel_id (Sample.slack false) (Some "##shikigami") Sample.w0)
  = Ret (Some "C3").
Proof.
  rewrite (resolve_channel_id_is_search (Sample.slack false) (Some "##shikigami")
             Sample.w0).
  - reflexivity.
  - apply caches_sound_empty; reflexivity.
Defined.

(** X3 (the cached user resolver is the search).  With sound caches,
    [resolve_user_id] answers what a search of the member pages read
    answers: [None] for an empty argument, an argument that starts with
    [U] as it is, else the identifier of the first member, in page order,
    that is not deleted and whose user name, display name or real name is
    the argument without its leading [@]s; when there is none, [None],
    also after a [SlackApiError]; any other exception goes on. *)
Theorem resolve_user_id_is_search
    (self : SlackClient) (x : option string) (w : world) :
  caches_sound self w ->
  fst (resolve_user_id self x w) = user_result self x.
Proof.
  intros [_ Hu]. apply lru_cached_result.
  - intros w0. apply resolve_user_id_body_result.
  - intros v Hv. now apply (Hu _ _ Hv).
Qed.

Lemma resolve_user_id_is_search_witness :
  fst (resolve_user_id (Sample.slack false) (Some "@boss") Sample.w0)
  = Ret (Some "U8").
Proof.
  rewrite (resolve_user_id_is_search (Sample.slack false) (Some "@boss") Sample.w0).
  - reflexivity.
  - apply caches_sound_empty; reflexivity.
Defined.

(** ** Failures while resolving *)

Lemma emit_log_line self phase target text resolved extra w :
  _emit_log self phase target text resolved extra w
  = (Ret tt, add_log (log_line self phase target text resolved extra) w).
Proof. reflexivity. Qed.

(** The lookup of [resolve_channel_id]: what it returns and leaves when
    the scan raises. *)
Lemma resolve_channel_id_body_raise self x w ex w1 :
  truthy x = true -> _looks_like_id x = false ->
  scan_channels (lstrip "#" (default "" x)) None (conversations_list (client self)) w
  = (Raise ex, w1) ->
  resolve_channel_id_body self x w
  = if is_SlackApiError ex
    then (Ret None,
          add_log (log_line self "ERROR" ("#" +:+ lstrip "#" (default "" x))
                     "(resolve_channel_id)" None (Some (error_extra ex))) w1)
    else (Raise ex, w1).
Proof.
  intros Htr Hlit Hscan. unfold resolve_channel_id_body.
  rewrite Htr, Hlit. simpl. unfold try_except_SlackApiError, try_except.
  rewrite Hscan. destruct (is_SlackApiError ex); reflexivity.
Qed.

Lemma channel_result_raise self x ex :
  channel_result self x = Raise ex ->
  truthy x = true /\ _looks_like_id x = false /\ is_SlackApiError ex = false.
Proof.
  unfold channel_result, not_found.
  destruct (truthy x); simpl; [|discriminate].
  destruct (_looks_like_id x); [discriminate|].
  destruct (find _ _); [discriminate|].
  destruct (ends_in_error _) as [e|]; [|discriminate].
  destruct (is_SlackApiError e) eqn:He; [discriminate|].
  now intros [= <-].
Qed.

Lemma user_result_raise self x ex :
  user_result self x = Raise ex -> is_SlackApiError ex = false.
Proof.
  unfold user_result, not_found.
  destruct (negb (truthy x)); [discriminate|].
  destruct (user_literal x); [discriminate|].
  destruct (find _ _); [discriminate|].
  destruct (ends_in_error _) as [e|]; [|discriminate].
  destruct (is_SlackApiError e) eqn:He; [discriminate|].
  now intros [= <-].
Qed.

Lemma lru_cached_Raise get set f k w ex w1 :
  lru_cached get set f k w = (Raise ex, w1) ->
  lru_lookup k (get w) = None /\ f w = (Raise ex, w1).
Proof.
  unfold lru_cached. destruct (lru_lookup k (get w)); [discriminate|].
  destruct (f w) as [[v|ex'] w']; [discriminate|]. now intros [= <- <-].
Qed.

(** X4 (a service error is remembered as "not found").  When the label
    is not cached and a page request raises [SlackApiError] before a
    channel of that name was read, [resolve_channel_id] writes one [ERROR]
    line with the error of the service, returns [None] and caches it: the
    next resolution of the label returns [None] without any request,
    although the directory was never read to its end. *)
Theorem service_error_is_cached
    (self : SlackClient) (x : option string) (w : world) (e : exn) :
  truthy x = true -> _looks_like_id x = false ->
  lru_lookup (self_id self, x) (channel_cache w) = None ->
  find (fun ch => bool_decide (ch_name ch = Some (lstrip "#" (default "" x))))
       (seen (conversations_list (client self))) = None ->
  ends_in_error (conversations_list (client self)) = Some e ->
  is_SlackApiError e = true ->
  let first := resolve_channel_id self x w in
  let again := resolve_channel_id self x (snd first) in
  fst first = Ret None
  /\ logs (snd first)
     = (logs w ++ [log_line self "ERROR" ("#" +:+ lstrip "#" (default "" x))
                    "(resolve_channel_id)" None (Some (error_extra e))])%list
  /\ fst again = Ret None
  /\ calls (snd again) = calls (snd first)
  /\ logs (snd again) = logs (snd first).
Proof.
  intros Htr Hlit Hmiss Hfind Hend Hslack first again.
  pose proof (scan_channels_result (lstrip "#" (default "" x))
                (conversations_list (client self)) None w) as Hres.
  rewrite Hfind, Hend in Hres.
  destruct (scan_channels_trace (lstrip "#" (default "" x))
              (conversations_list (client self)) None w) as (cs & _ & _ & Hlogs).
  destruct (scan_channels _ None _ w) as [r w1] eqn:Hscan. simpl in Hres, Hlogs.
  subst r.
  pose proof (resolve_channel_id_body_raise self x w e w1 Htr Hlit Hscan) as Hbody.
  rewrite Hslack in Hbody.
  assert (first
          = (Ret None,
             set_channel_cache
               (lru_store (self_id self, x) None
                  (channel_cache
                     (add_log (log_line self "ERROR" ("#" +:+ lstrip "#" (default "" x))
                                 "(resolve_channel_id)" None (Some (error_extra e))) w1)))
               (add_log (log_line self "ERROR" ("#" +:+ lstrip "#" (default "" x))
                           "(resolve_channel_id)" None (Some (error_extra e))) w1)))
    as Hfirst.
  { subst first. unfold resolve_channel_id.
    rewrite (lru_cached_miss _ _ _ _ _ Hmiss), Hbody. reflexivity. }
  assert (lru_lookup (self_id self, x) (channel_cache (snd first)) = Some None)
    as Hhit.
  { apply (lru_cached_stored channel_cache set_channel_cache
             (resolve_channel_id_body self x) _ w); [reflexivity | |].
    - intros w0. apply (keeps_resolve_channel_id_body self x w0).
    - fold (resolve_channel_id self x w). fold first. now rewrite Hfirst. }
  assert (again = (Ret None,
                   set_channel_cache
                     (lru_touch (self_id self, x) None (channel_cache (snd first)))
                     (snd first))) as Hagain by now apply lru_cached_hit.
  rewrite Hagain, Hfirst. simpl. rewrite Hlogs. auto.
Qed.

Lemma service_error_is_cached_witness :
  let first := resolve_channel_id Outage.slack (Some "#shikigami") Sample.w0 in
  let again := resolve_channel_id Outage.slack (Some "#shikigami") (snd first) in
  fst first = Ret None
  /\ logs (snd first)
     = [LogInfo "[Slack ERROR] target=#shikigami dry_run=false text=(resolve_channel_id) (ratelimited)"]
  /\ fst again = Ret None
  /\ calls (snd again) = [ConversationsList None; ConversationsList (Some "cur1")].
Proof.
  intros first again.
  destruct (service_error_is_cached Outage.slack (Some "#shikigami") Sample.w0
              (SlackApiError "The request to the Slack API failed."
                 (Some (Some "ratelimited"))))
    as (H1 & H2 & H3 & H4 & _); try reflexivity.
  fold first in H1, H2, H4. fold again in H3, H4.
  split; [exact H1|]. split; [rewrite H2; reflexivity|].
  split; [exact H3|]. rewrite H4. vm_compute. reflexivity.
Defined.

(** The first request of a scan asks for the first page. *)
Lemma scan_channels_first_request cname l w :
  exists cs,
    calls (snd (scan_channels cname None l w))
    = (calls w ++ ConversationsList None :: cs)%list.
Proof.
  destruct (scan_channels_trace cname l None w) as (cs & Hc & _).
  exists cs. exact Hc.
Qed.

(** X5 (any other failure is not remembered).  When [resolve_channel_id]
    raises, the exception is not a [SlackApiError], nothing was logged and
    the cache is as it was, so the label is still not in it; the next
    resolution of the label is answered by the service again: it sends a
    new request for the first page of channels. *)
Theorem transport_error_not_cached
    (self : SlackClient) (x : option string) (w w1 : world) (ex : exn) :
  resolve_channel_id self x w = (Raise ex, w1) ->
  is_SlackApiError ex = false
  /\ channel_cache w1 = channel_cache w
  /\ lru_lookup (self_id self, x) (channel_cache w1) = None
  /\ logs w1 = logs w
  /\ (exists cs,
        calls (snd (resolve_channel_id self x w1))
        = (calls w1 ++ ConversationsList None :: cs)%list)
  /\ channel_scans (calls (snd (resolve_channel_id self x w1)))
     = (channel_scans (calls w) + 2)%nat.
Proof.
  intros H. apply lru_cached_Raise in H as [Hmiss Hbody].
  pose proof (resolve_channel_id_body_result self x w) as Hres.
  rewrite Hbody in Hres. simpl in Hres. symmetry in Hres.
  destruct (channel_result_raise self x ex Hres) as (Htr & Hlit & Hns).
  pose proof (keeps_resolve_channel_id_body self x w) as (Hc & _). cbv [id] in Hc.
  rewrite Hbody in Hc. simpl in Hc.
  pose proof (resolve_channel_id_body_scans self x w) as Hs1.
  rewrite Hbody, Htr, Hlit in Hs1. simpl in Hs1.
  assert (logs w1 = logs w) as Hlogs.
  { destruct (scan_channels_trace (lstrip "#" (default "" x))
                (conversations_list (client self)) None w) as (cs & _ & _ & Hl).
    unfold resolve_channel_id_body in Hbody. rewrite Htr, Hlit in Hbody.
    simpl in Hbody. unfold try_except_SlackApiError, try_except in Hbody.
    destruct (scan_channels _ None _ w) as [[v|ex'] w'] eqn:Hscan;
      [discriminate|]. simpl in Hl.
    destruct (is_SlackApiError ex'); unfold_monad; simpl in Hbody;
      [discriminate|]. injection Hbody as _ <-. exact Hl. }
  assert (lru_lookup (self_id self, x) (channel_cache w1) = None) as Hmiss1
    by now rewrite Hc.
  assert (exists cs,
            calls (snd (resolve_channel_id self x w1))
            = (calls w1 ++ ConversationsList None :: cs)%list) as Hreq.
  { destruct (scan_channels_first_request (lstrip "#" (default "" x))
                (conversations_list (client self)) w1) as (cs & Hcs).
    exists cs. rewrite <- Hcs.
    unfold resolve_channel_id. rewrite (lru_cached_miss _ _ _ _ _ Hmiss1).
    unfold resolve_channel_id_body. rewrite Htr, Hlit. simpl.
    unfold try_except_SlackApiError, try_except.
    destruct (scan_channels _ None _ w1) as [[v|ex'] w2]; simpl; [reflexivity|].
    destruct (is_SlackApiError ex'); reflexivity. }
  pose proof (resolve_channel_id_body_scans self x w1) as Hs2.
  rewrite Htr, Hlit in Hs2. simpl in Hs2.
  refine (conj Hns (conj Hc (conj Hmiss1 (conj Hlogs (conj Hreq _))))).
  unfold resolve_channel_id. rewrite (lru_cached_miss _ _ _ _ _ Hmiss1).
  destruct (resolve_channel_id_body self x w1) as [[v|ex'] w2]; simpl in *; lia.
Qed.

Lemma transport_error_not_cached_witness :
  let slack := {| self_id := 2; env := Sample.cfg false;
                  client := {| conversations_list :=
                                 ListFails (OtherException "URLError");
                               users_list := LastPage [];
                               conversations_open := fun _ _ => Ret None;
                               chat_postMessage := fun _ _ _ => Ret None |} |} in
  let first := resolve_channel_id slack (Some "general") Sample.w0 in
  fst first = Raise (OtherException "URLError")
  /\ channel_cache (snd first) = []
  /\ logs (snd first) = []
  /\ calls (snd (resolve_channel_id slack (Some "general") (snd first)))
     = [ConversationsList None; ConversationsList None].
Proof.
  intros slack first.
  destruct (transport_error_not_cached slack (Some "general") Sample.w0 (snd first)
              (OtherException "URLError") eq_refl)
    as (_ & Hc & _ & Hl & _ & _).
  refine (conj eq_refl (conj Hc (conj Hl _))). vm_compute. reflexivity.
Defined.

Lemma dm_channel_for_body_raise self uid w ex w1 :
  dm_channel_for_body self uid w = (Raise ex, w1) -> is_SlackApiError ex = false.
Proof.
  unfold dm_channel_for_body. destruct (negb (truthy (Some uid))); [discriminate|].
  unfold try_except_SlackApiError, try_except. unfold_monad.
  unfold get_calls, api_request. simpl.
  destruct (conversations_open _ _ _) as [resp|e]; simpl; [discriminate|].
  destruct (is_SlackApiError e) eqn:He; simpl; [discriminate|].
  now intros [= <- _].
Qed.

Lemma resolvers_raise_other
    (self : SlackClient) (x : option string) (uid : string) (w : world) (ex : exn) :
  (fst (resolve_channel_id self x w) = Raise ex -> is_SlackApiError ex = false)
  /\ (fst (resolve_user_id self x w) = Raise ex -> is_SlackApiError ex = false)
  /\ (fst (dm_channel_for self uid w) = Raise ex -> is_SlackApiError ex = false).
Proof.
  refine (conj _ (conj _ _)); intros H.
  - destruct (resolve_channel_id self x w) as [r w1] eqn:E. simpl in H. subst r.
    apply lru_cached_Raise in E as [_ Hb].
    pose proof (resolve_channel_id_body_result self x w) as Hr.
    rewrite Hb in Hr. symmetry in Hr. now apply channel_result_raise in Hr.
  - destruct (resolve_user_id self x w) as [r w1] eqn:E. simpl in H. subst r.
    apply lru_cached_Raise in E as [_ Hb].
    pose proof (resolve_user_id_body_result self x w) as Hr.
    rewrite Hb in Hr. symmetry in Hr. now apply user_result_raise in Hr.
  - destruct (dm_channel_for self uid w) as [r w1] eqn:E. simpl in H. subst r.
    apply lru_cached_Raise in E as [_ Hb].
    now apply dm_channel_for_body_raise in Hb.
Qed.

(** X6 (resolution never raises a service error).  None of the three
    cached methods raises [SlackApiError]: an exception that comes out of
    [resolve_channel_id], [resolve_user_id] or [dm_channel_for] is of
    another kind. *)
Theorem resolvers_never_raise_SlackApiError
    (self : SlackClient) (x : option string) (uid : string) (w : world) (ex : exn) :
  (fst (resolve_channel_id self x w) = Raise ex -> is_SlackApiError ex = false)
  /\ (fst (resolve_user_id self x w) = Raise ex -> is_SlackApiError ex = false)
  /\ (fst (dm_channel_for self uid w) = Raise ex -> is_SlackApiError ex = false).
Proof. apply resolvers_raise_other. Qed.

Lemma resolvers_never_raise_SlackApiError_witness :
  fst (resolve_user_id Outage.slack (Some "@boss") Sample.w0)
  = Raise (OtherException "URLError")
  /\ is_SlackApiError (OtherException "URLError") = false.
Proof.
  assert (fst (resolve_user_id Outage.slack (Some "@boss") Sample.w0)
          = Raise (OtherException "URLError")) as H by reflexivity.
  split; [exact H|].
  exact (proj1 (proj2 (resolvers_never_raise_SlackApiError Outage.slack
                         (Some "@boss") "U2" Sample.w0 (OtherException "URLError")))
           H).
Defined.

(** ** The size of the caches *)

Lemma length_removelast {A} (l : list A) :
  length (removelast l) = pred (length l).
Proof.
  induction l as [|a l IH]; [reflexivity|].
  destruct l as [|b l]; [reflexivity|].
  change (removelast (a :: b :: l)) with (a :: removelast (b :: l)).
  change (length (a :: removelast (b :: l))) with (S (length (removelast (b :: l)))).
  rewrite IH. reflexivity.
Qed.

Lemma lru_remove_length k c v :
  lru_lookup k c = Some v -> S (length (lru_remove k c)) = length c.
Proof.
  induction c as [|[k0 v0] c IH]; [discriminate|]. simpl.
  destruct (lru_key_eqb k k0); [reflexivity|].
  intros H. simpl. now rewrite IH.
Qed.

Lemma maxsize_pos : (0 < maxsize)%nat.
Proof. unfold maxsize. lia. Qed.

Lemma lru_store_bounded k v c :
  (length c <= maxsize)%nat -> (length (lru_store k v c) <= maxsize)%nat.
Proof.
  intros H. unfold lru_store. destruct (lru_lookup k c); [exact H|].
  pose proof maxsize_pos.
  destruct (Nat.leb_spec maxsize (length c)); simpl.
  - rewrite length_removelast. lia.
  - lia.
Qed.

Lemma lru_cached_bounded get set f k w :
  (forall c w, get (set c w) = c) ->
  (forall w, get (snd (f w)) = get w) ->
  (length (get w) <= maxsize)%nat ->
  (length (get (snd (lru_cached get set f k w))) <= maxsize)%nat.
Proof.
  intros Hgs Hf Hb. unfold lru_cached.
  destruct (lru_lookup k (get w)) as [v|] eqn:Hk; simpl.
  - rewrite Hgs. unfold lru_touch. simpl. now rewrite (lru_remove_length _ _ _ Hk).
  - specialize (Hf w). destruct (f w) as [[v|ex] w1]; simpl in *.
    + rewrite Hgs. apply lru_store_bounded. now rewrite Hf.
    + now rewrite Hf.
Qed.

Lemma bounded_same w w' : same_caches w w' -> keeps caches_bounded w w'.
Proof. intros (H1 & H2 & H3) (B1 & B2 & B3). unfold caches_bounded. now rewrite H1, H2, H3. Qed.

Lemma bounded_methods self : respects self (keeps caches_bounded).
Proof.
  refine (conj _ (conj _ (conj _ (conj _ _)))).
  - intros r w0. apply bounded_same, (keeps_logger r w0).
  - intros chan text label w0.
    apply bounded_same, (keeps_post self chan text label w0).
  - intros x w (B1 & B2 & B3). cbv [id] in *.
    destruct (resolve_channel_id_frame self x w) as [H2 H3].
    refine (conj _ (conj _ _)); [|now rewrite H2|now rewrite H3].
    apply lru_cached_bounded; [reflexivity | | exact B1].
    intros w0. apply (keeps_resolve_channel_id_body self x w0).
  - intros x w (B1 & B2 & B3). cbv [id] in *.
    destruct (resolve_user_id_frame self x w) as [H1 H3].
    refine (conj _ (conj _ _)); [now rewrite H1| |now rewrite H3].
    apply lru_cached_bounded; [reflexivity | | exact B2].
    intros w0. apply (keeps_resolve_user_id_body self x w0).
  - intros x w (B1 & B2 & B3). cbv [id] in *.
    destruct (dm_channel_for_frame self x w) as [H1 H2].
    refine (conj _ (conj _ _)); [now rewrite H1|now rewrite H2|].
    apply lru_cached_bounded; [reflexivity | | exact B3].
    intros w0. apply (keeps_dm_channel_for_body self x w0).
Qed.

(** X7 (the caches are bounded).  None of the three [lru_cache]s ever
    holds more than 256 entries: when that is so before, it is so after
    each cached method, each helper and the whole view. *)
Theorem caches_stay_bounded
    (self : SlackClient) (fw : flask_runtime) (db : record_store)
    (force run_test : bool) (today : Z) (w : world) :
  caches_bounded w ->
  (forall x, caches_bounded (snd (resolve_channel_id self x w)))
  /\ (forall x, caches_bounded (snd (resolve_user_id self x w)))
  /\ (forall uid, caches_bounded (snd (dm_channel_for self uid w)))
  /\ (forall text ping, caches_bounded (snd (send_to_surgery_channel self text ping w)))
  /\ (forall text ping, caches_bounded (snd (send_to_shikigami_feed self text ping w)))
  /\ (forall text, caches_bounded (snd (dm_surgery_manager self text w)))
  /\ (forall text, caches_bounded (snd (dm_shikigami_manager self text w)))
  /\ caches_bounded
       (snd (surgery_notification (self_id self) (env self) (client self)
               fw db force run_test today w)).
Proof.
  intros Hb. pose proof (bounded_methods self) as Hr.
  destruct Hr as (Hlog & Hpost & Hch & Hu & Hdm).
  pose proof (conj Hlog (conj Hpost (conj Hch (conj Hu Hdm)))) as Hr.
  refine (conj _ (conj _ (conj _ (conj _ (conj _ (conj _ (conj _ _))))))); intros.
  - now apply (Hch x w).
  - now apply (Hu x w).
  - now apply (Hdm uid w).
  - now apply (through_send_to_surgery_channel self _ Hr text ping w).
  - now apply (through_send_to_shikigami_feed self _ Hr text ping w).
  - now apply (through_dm_user_if_enabled self _ Hr _ _ _ text w).
  - now apply (through_dm_user_if_enabled self _ Hr _ _ _ text w).
  - now apply (through_view self _ Hr fw db force run_test today w).
Qed.

Lemma caches_stay_bounded_witness :
  caches_bounded
    (snd (surgery_notification 0 (Sample.cfg true) Sample.svc Sample.fw Sample.db
            true false Sample.today Sample.w0)).
Proof.
  apply (caches_stay_bounded (Sample.slack true) Sample.fw Sample.db true false
           Sample.today Sample.w0).
  unfold caches_bounded, maxsize. simpl. lia.
Defined.

Lemma lru_lookup_store_keep k v c k' v' :
  (length c < maxsize)%nat ->
  lru_lookup k' c = Some v' -> lru_lookup k' (lru_store k v c) = Some v'.
Proof.
  intros Hlen H. unfold lru_store.
  destruct (lru_lookup k c) eqn:Hk; [exact H|].
  destruct (Nat.leb_spec maxsize (length c)); [lia|]. simpl.
  unfold lru_key_eqb. destruct (bool_decide_reflect (k' = k)) as [->|]; [|exact H].
  congruence.
Qed.

Lemma lru_lookup_touch_keep k v c k' v' :
  lru_lookup k c = Some v ->
  lru_lookup k' c = Some v' -> lru_lookup k' (lru_touch k v c) = Some v'.
Proof.
  intros Hk H. unfold lru_touch. simpl. unfold lru_key_eqb.
  destruct (bool_decide_reflect (k' = k)) as [->|Hne]; [congruence|].
  now rewrite lru_lookup_remove_ne.
Qed.

Lemma lru_cached_keeps_entry get set f k w k' v' :
  (forall c w, get (set c w) = c) ->
  (forall w, get (snd (f w)) = get w) ->
  (length (get w) < maxsize)%nat ->
  lru_lookup k' (get w) = Some v' ->
  lru_lookup k' (get (snd (lru_cached get set f k w))) = Some v'.
Proof.
  intros Hgs Hf Hlen H. unfold lru_cached.
  destruct (lru_lookup k (get w)) as [v|] eqn:Hk; simpl.
  - rewrite Hgs. now apply lru_lookup_touch_keep.
  - specialize (Hf w). destruct (f w) as [[v|ex] w1]; simpl in *.
    + rewrite Hgs, Hf. now apply lru_lookup_store_keep.
    + now rewrite Hf.
Qed.

(** X8 (nothing is evicted below capacity).  While a resolver cache
    holds fewer than 256 entries, a resolution of any label, hit or miss,
    leaves every entry of that cache in it, so that the labels resolved
    before are still answered without a request. *)
Theorem cached_entries_stay
    (self : SlackClient) (x : option string) (k : lru_key) (v : option string)
    (w : world) :
  ((length (channel_cache w) < maxsize)%nat ->
   lru_lookup k (channel_cache w) = Some v ->
   lru_lookup k (channel_cache (snd (resolve_channel_id self x w))) = Some v)
  /\ ((length (user_cache w) < maxsize)%nat ->
      lru_lookup k (user_cache w) = Some v ->
      lru_lookup k (user_cache (snd (resolve_user_id self x w))) = Some v).
Proof.
  split; intros Hlen H.
  - apply lru_cached_keeps_entry; try assumption; [reflexivity|].
    intros w0. apply (keeps_resolve_channel_id_body self x w0).
  - apply lru_cached_keeps_entry; try assumption; [reflexivity|].
    intros w0. apply (keeps_resolve_user_id_body self x w0).
Qed.

Lemma cached_entries_stay_witness :
  let slack := Sample.slack false in
  let w1 := snd (resolve_channel_id slack (Some "#shikigami") Sample.w0) in
  let w2 := snd (resolve_channel_id slack (Some "#general") w1) in
  lru_lookup (0%nat, Some "#shikigami") (channel_cache w2) = Some (Some "C3").
Proof.
  intros slack w1 w2.
  apply (proj1 (cached_entries_stay slack (Some "#general")
                  (0%nat, Some "#shikigami") (Some "C3") w1)).
  - unfold maxsize. vm_compute. lia.
  - reflexivity.
Defined.

(** ** Sigils *)

Lemma find_ext {A} (p q : A -> bool) (l : list A) :
  (forall a, p a = q a) -> find p l = find q l.
Proof.
  intros H. induction l as [|a l IH]; [reflexivity|]. simpl.
  rewrite H. now rewrite IH.
Qed.

Lemma resolve_user_id_result self x w :
  caches_sound self w -> fst (resolve_user_id self x w) = user_result self x.
Proof.
  intros [_ Hu]. apply lru_cached_result.
  - intros w0. apply resolve_user_id_body_result.
  - intros v Hv. now apply (Hu _ _ Hv).
Qed.

Lemma resolve_channel_id_result self x w :
  caches_sound self w -> fst (resolve_channel_id self x w) = channel_result self x.
Proof.
  intros [Hc _]. apply lru_cached_result.
  - intros w0. apply resolve_channel_id_body_result.
  - intros v Hv. now apply (Hc _ _ Hv).
Qed.

Lemma or_empty_eq_empty (s : option string) :
  bool_decide ("" = or_empty s) = negb (truthy s).
Proof. destruct s as [[|a s]|]; reflexivity. Qed.

(** A member matches the empty name when it is not deleted and lacks a
    user name, a display name or a real name. *)
Lemma member_matches_empty u :
  member_matches "" u
  = negb (deleted u)
    && (negb (truthy (m_name u))
        || negb (truthy (m_profile u ≫= display_name))
        || negb (truthy (m_profile u ≫= real_name))).
Proof.
  unfold member_matches. destruct (deleted u); [reflexivity|].
  now rewrite !or_empty_eq_empty.
Qed.

(** X9 (a bare sigil names the nameless).  An argument made of [@]s
    only is looked up as the empty name: [resolve_user_id] answers the
    identifier of the first member that is not deleted and lacks a user
    name, a display name or a real name (such as a bot without display
    name), not [None]. *)
Theorem bare_sigil_finds_nameless
    (self : SlackClient) (x : string) (w : world) :
  caches_sound self w ->
  x <> "" -> lstrip "@" x = "" ->
  fst (resolve_user_id self (Some x) w)
  = match find (fun u => negb (deleted u)
                         && (negb (truthy (m_name u))
                             || negb (truthy (m_profile u ≫= display_name))
                             || negb (truthy (m_profile u ≫= real_name))))
               (seen (users_list (client self))) with
    | Some u => Ret (m_id u)
    | None => not_found (users_list (client self))
    end.
Proof.
  intros Hs Hne Hstrip. rewrite (resolve_user_id_result self (Some x) w Hs).
  unfold user_result. rewrite (truthy_Some _ Hne). simpl negb.
  assert (user_literal (Some x) = false) as ->.
  { unfold user_literal. destruct x as [|a x]; [contradiction|]. simpl in *.
    destruct (Ascii.eqb_spec a "@") as [->|]; [reflexivity | discriminate]. }
  change (default "" (Some x)) with x. rewrite Hstrip. cbv iota.
  rewrite (find_ext _ _ _ member_matches_empty). reflexivity.
Qed.

Lemma bare_sigil_finds_nameless_witness :
  fst (resolve_user_id (Sample.slack false) (Some "@") Sample.w0) = Ret (Some "U8").
Proof.
  rewrite (bare_sigil_finds_nameless (Sample.slack false) "@" Sample.w0).
  - reflexivity.
  - apply caches_sound_empty; reflexivity.
  - discriminate.
  - reflexivity.
Defined.

(** X10 (the leading [#] of a channel label).  With sound caches, a
    label with a [#] in front resolves like the label without it, unless
    what follows has the shape of an identifier: ["#C0123"] is looked up
    as the channel named ["C0123"], while ["C0123"] is returned as it
    is. *)
Theorem leading_hash_is_optional
    (self : SlackClient) (s : string) (w : world) :
  caches_sound self w ->
  s <> "" ->
  fst (resolve_channel_id self (Some ("#" +:+ s)) w)
  = if _looks_like_id (Some s)
    then match find (fun ch => bool_decide (ch_name ch = Some (lstrip "#" s)))
                    (seen (conversations_list (client self))) with
         | Some ch => Ret (ch_id ch)
         | None => not_found (conversations_list (client self))
         end
    else fst (resolve_channel_id self (Some s) w).
Proof.
  intros Hs Hne.
  rewrite !(resolve_channel_id_result self _ w Hs).
  unfold channel_result. rewrite (truthy_Some _ Hne).
  change (truthy (Some ("#" +:+ s))) with true.
  change (_looks_like_id (Some ("#" +:+ s))) with false.
  change (lstrip "#" (default "" (Some ("#" +:+ s)))) with (lstrip "#" s).
  change (default "" (Some s)) with s. simpl negb. cbv iota.
  destruct (_looks_like_id (Some s)); reflexivity.
Qed.

Lemma leading_hash_is_optional_witness :
  fst (resolve_channel_id (Sample.slack false) (Some "#shikigami") Sample.w0)
  = fst (resolve_channel_id (Sample.slack false) (Some "shikigami") Sample.w0).
Proof.
  assert (caches_sound (Sample.slack false) Sample.w0) as Hs
    by (apply caches_sound_empty; reflexivity).
  assert ("shikigami" <> "") as Hne by discriminate.
  exact (leading_hash_is_optional (Sample.slack false) "shikigami" Sample.w0 Hs Hne).
Defined.

(** ** Opening a direct message *)

(** X11 (what [dm_channel_for] does when the user is not cached).  For
    the empty identifier it returns [None] without a request.  Otherwise
    it sends exactly one [conversations.open] request and returns the
    identifier of the channel in the answer ([None] when the answer has
    none); when the request raises [SlackApiError] it writes one [ERROR]
    line and returns [None]; any other exception goes on to the caller,
    with nothing logged and nothing cached. *)
Theorem dm_channel_for_miss (self : SlackClient) (uid : string) (w : world) :
  lru_lookup (self_id self, Some uid) (dm_cache w) = None ->
  let r := dm_channel_for self uid w in
  if negb (truthy (Some uid))
  then fst r = Ret None /\ calls (snd r) = calls w /\ logs (snd r) = logs w
  else
    calls (snd r) = (calls w ++ [ConversationsOpen uid])%list
    /\ match conversations_open (client self) (calls w) uid with
       | Ret resp => fst r = Ret (resp ≫= id) /\ logs (snd r) = logs w
       | Raise e =>
           if is_SlackApiError e
           then fst r = Ret None
                /\ logs (snd r)
                   = (logs w ++ [log_line self "ERROR" ("dm:" +:+ uid)
                                  "(conversations_open)" None
                                  (Some (error_extra e))])%list
           else fst r = Raise e /\ logs (snd r) = logs w
                /\ dm_cache (snd r) = dm_cache w
       end.
Proof.
  intros Hmiss r. subst r. unfold dm_channel_for.
  rewrite (lru_cached_miss _ _ _ _ _ Hmiss). unfold dm_channel_for_body.
  destruct (negb (truthy (Some uid))); [simpl; auto|].
  unfold try_except_SlackApiError, try_except. unfold_monad.
  unfold get_calls, api_request. simpl.
  destruct (conversations_open _ _ _) as [resp|e]; simpl; [auto|].
  destruct (is_SlackApiError e); simpl; auto.
Qed.

Lemma dm_channel_for_miss_witness :
  let r := dm_channel_for Outage.slack "U2" Sample.w0 in
  calls (snd r) = [ConversationsOpen "U2"]
  /\ fst r = Ret None
  /\ logs (snd r)
     = [LogInfo "[Slack ERROR] target=dm:U2 dry_run=false text=(conversations_open) (user_not_found)"].
Proof.
  intros r.
  pose proof (dm_channel_for_miss Outage.slack "U2" Sample.w0 eq_refl) as H.
  simpl in H. exact H.
Defined.

(** X12 (a direct-message channel is opened once).  When
    [dm_channel_for] returned for a user, also with [None], the next call
    for that user on the same instance returns the same without a request
    and without a log line, whatever the service would answer by then. *)
Theorem dm_channel_for_twice
    (self : SlackClient) (uid : string) (w w1 : world) (v : option string) :
  dm_channel_for self uid w = (Ret v, w1) ->
  let again := dm_channel_for self uid w1 in
  fst again = Ret v /\ calls (snd again) = calls w1 /\ logs (snd again) = logs w1.
Proof.
  intros H again.
  assert (lru_lookup (self_id self, Some uid) (dm_cache w1) = Some v) as Hhit.
  { apply (lru_cached_stored dm_cache set_dm_cache (dm_channel_for_body self uid) _ w);
      [reflexivity | | exact H].
    intros w0. apply (keeps_dm_channel_for_body self uid w0). }
  subst again. unfold dm_channel_for. rewrite (lru_cached_hit _ _ _ _ _ _ Hhit).
  auto.
Qed.

Lemma dm_channel_for_twice_witness :
  let first := dm_channel_for (Sample.slack false) "U2" Sample.w0 in
  let again := dm_channel_for (Sample.slack false) "U2" (snd first) in
  fst again = Ret (Some "DU2") /\ calls (snd again) = [ConversationsOpen "U2"].
Proof.
  intros first again.
  destruct (dm_channel_for_twice (Sample.slack false) "U2" Sample.w0 (snd first)
              (Some "DU2")) as (H1 & H2 & _).
  - reflexivity.
  - fold again in H1, H2. split; [exact H1|]. rewrite H2. reflexivity.
Defined.

(** ** The message sender, in full *)

Lemma post_calls_and_outcome
    (self : SlackClient) (chan text : option string) (label : string) (w : world) :
  let live := truthy chan && truthy text && negb (notify_dry_run (env self)) in
  let r := _post self chan text label w in
  calls (snd r)
  = (calls w ++ (if live then [ChatPostMessage (fmt_opt chan) (fmt_opt text)]
                 else []))%list
  /\ fst r
     = (if live
        then match chat_postMessage (client self) (calls w)
                     (fmt_opt chan) (fmt_opt text) with
             | Ret _ => Ret tt
             | Raise e => Raise e
             end
        else Ret tt)
  /\ same_caches w (snd r).
Proof.
  intros live r. subst live r. unfold _post.
  destruct (truthy chan), (truthy text); simpl;
    try (rewrite app_nil_r; repeat split; reflexivity).
  unfold_monad. unfold _emit_log, logger, get_calls, api_request. simpl.
  destruct (notify_dry_run (env self)); simpl;
    [rewrite app_nil_r; repeat split; reflexivity|].
  destruct (chat_postMessage _ _ _ _) as [resp|e]; simpl;
    [repeat split; reflexivity|].
  destruct (is_SlackApiError e); simpl; repeat split; reflexivity.
Qed.

(** X13 (one request at most, and its failure is the caller's).
    [_post] sends a [chat.postMessage] request exactly when the channel
    and the text are not empty and the dry-run flag is off, and then only
    one; it raises exactly when that request raises, and then the same
    exception; it never touches a cache. *)
Theorem post_sends_at_most_once
    (self : SlackClient) (chan text : option string) (label : string) (w : world) :
  let live := truthy chan && truthy text && negb (notify_dry_run (env self)) in
  let r := _post self chan text label w in
  calls (snd r)
  = (calls w ++ (if live then [ChatPostMessage (fmt_opt chan) (fmt_opt text)]
                 else []))%list
  /\ fst r
     = (if live
        then match chat_postMessage (client self) (calls w)
                     (fmt_opt chan) (fmt_opt text) with
             | Ret _ => Ret tt
             | Raise e => Raise e
             end
        else Ret tt)
  /\ same_caches w (snd r).
Proof. apply post_calls_and_outcome. Qed.

Lemma post_log_lines_eq
    (self : SlackClient) (chan text : option string) (label : string) (w : world) :
  logs (snd (_post self chan text label w))
  = (logs w ++
     if negb (truthy chan) || negb (truthy text)
     then [log_line self "SKIP" label
             (if truthy text then fmt_opt text else "(empty)") chan
             (Some "missing channel or text")]
     else
       log_line self "PLAN" label (fmt_opt text) chan None
       :: (if notify_dry_run (env self)
           then [log_line self "DRY-RUN" label (fmt_opt text) chan None]
           else
             match chat_postMessage (client self) (calls w)
                     (fmt_opt chan) (fmt_opt text) with
             | Ret resp =>
                 [log_line self "SENT" label (fmt_opt text) chan
                    (if truthy (resp ≫= id)
                     then Some ("ts=" +:+ fmt_opt (resp ≫= id)) else None)]
             | Raise e =>
                 if is_SlackApiError e
                 then [log_line self "ERROR" label (fmt_opt text) chan
                         (Some (error_extra e))]
                 else []
             end))%list.
Proof.
  unfold _post.
  destruct (negb (truthy chan) || negb (truthy text)); [reflexivity|].
  unfold_monad. rewrite !emit_log_line.
  destruct (notify_dry_run (env self)) eqn:Hdry.
  - rewrite emit_log_line. simpl. now rewrite <- app_assoc.
  - unfold get_calls, api_request. simpl.
    destruct (chat_postMessage _ _ _ _) as [resp|e]; simpl.
    + now rewrite <- app_assoc.
    + destruct (is_SlackApiError e); simpl; [now rewrite <- app_assoc|reflexivity].
Qed.

(** X14 (the log of a send).  [_post] writes a lone [SKIP] line when the
    channel or the text is missing.  Otherwise it writes the [PLAN] line
    first, then one line for the outcome: [DRY-RUN] in dry-run mode,
    [SENT] with the timestamp of a delivered message, [ERROR] with the
    error of the service for a [SlackApiError]; an exception of another
    kind leaves the [PLAN] line without an outcome line. *)
Theorem post_log_lines
    (self : SlackClient) (chan text : option string) (label : string) (w : world) :
  logs (snd (_post self chan text label w))
  = (logs w ++
     if negb (truthy chan) || negb (truthy text)
     then [log_line self "SKIP" label
             (if truthy text then fmt_opt text else "(empty)") chan
             (Some "missing channel or text")]
     else
       log_line self "PLAN" label (fmt_opt text) chan None
       :: (if notify_dry_run (env self)
           then [log_line self "DRY-RUN" label (fmt_opt text) chan None]
           else
             match chat_postMessage (client self) (calls w)
                     (fmt_opt chan) (fmt_opt text) with
             | Ret resp =>
                 [log_line self "SENT" label (fmt_opt text) chan
                    (if truthy (resp ≫= id)
                     then Some ("ts=" +:+ fmt_opt (resp ≫= id)) else None)]
             | Raise e =>
                 if is_SlackApiError e
                 then [log_line self "ERROR" label (fmt_opt text) chan
                         (Some (error_extra e))]
                 else []
             end))%list.
Proof. apply post_log_lines_eq. Qed.

(** ** The helpers when there is nobody to send to *)

Lemma bind_Ret {S A B} (m : M S A) (k : A -> M S B) s a s' :
  m s = (Ret a, s') -> (m ≫= k) s = k a s'.
Proof. intros H. unfold_monad. now rewrite H. Qed.

(** X15 (a channel that cannot be resolved is skipped).  Each channel
    helper returns after one [SKIP] line, "channel not resolvable",
    without a request of its own, when its channel is not configured
    (the label of the line is then the name of the unset variable) and
    when the configured label resolves to nothing. *)
Theorem unresolved_channel_is_skipped
    (self : SlackClient) (text : string) (ping : bool) (w : world) :
  let msg := if ping then "<!channel> " +:+ text else text in
  (truthy (surgery_channel (env self)) = false ->
   send_to_surgery_channel self text ping w
   = (Ret tt, add_log (log_line self "SKIP" "(unset:SLACK_SURGERY_CHANNEL)" msg None
                         (Some "channel not resolvable")) w))
  /\ (truthy (shikigami_channel (env self)) = false ->
      send_to_shikigami_feed self text ping w
      = (Ret tt, add_log (log_line self "SKIP" "(unset:SLACK_SHIKIGAMI_CHANNEL)" msg
                            None (Some "channel not resolvable")) w))
  /\ (forall ch w1,
        truthy (surgery_channel (env self)) = true ->
        resolve_channel_id self (surgery_channel (env self)) w = (Ret ch, w1) ->
        truthy ch = false ->
        send_to_surgery_channel self text ping w
        = (Ret tt, add_log (log_line self "SKIP" (fmt_opt (surgery_channel (env self)))
                              msg None (Some "channel not resolvable")) w1))
  /\ (forall ch w1,
        truthy (shikigami_channel (env self)) = true ->
        resolve_channel_id self (shikigami_channel (env self)) w = (Ret ch, w1) ->
        truthy ch = false ->
        send_to_shikigami_feed self text ping w
        = (Ret tt, add_log (log_line self "SKIP" (fmt_opt (shikigami_channel (env self)))
                              msg None (Some "channel not resolvable")) w1)).
Proof.
  intros msg. refine (conj _ (conj _ (conj _ _))).
  - intros H. unfold send_to_surgery_channel. rewrite H. reflexivity.
  - intros H. unfold send_to_shikigami_feed. rewrite H. reflexivity.
  - intros ch w1 H Hres Hch. unfold send_to_surgery_channel. rewrite H.
    rewrite (bind_Ret _ _ _ _ _ Hres). rewrite Hch. reflexivity.
  - intros ch w1 H Hres Hch. unfold send_to_shikigami_feed. rewrite H.
    rewrite (bind_Ret _ _ _ _ _ Hres). rewrite Hch. reflexivity.
Qed.

Lemma unresolved_channel_is_skipped_witness :
  send_to_surgery_channel Outage.slack "hello" true Sample.w0
  = (Ret tt,
     add_log (LogInfo "[Slack SKIP] target=(unset:SLACK_SURGERY_CHANNEL) dry_run=false text=<!channel> hello (channel not resolvable)")
       Sample.w0)
  /\ logs (snd (send_to_shikigami_feed Outage.slack "hello" false Sample.w0))
     = [LogInfo "[Slack ERROR] target=#shikigami dry_run=false text=(resolve_channel_id) (ratelimited)";
        LogInfo "[Slack SKIP] target=#shikigami dry_run=false text=hello (channel not resolvable)"].
Proof.
  destruct (unresolved_channel_is_skipped Outage.slack "hello" true Sample.w0)
    as (H1 & _).
  destruct (unresolved_channel_is_skipped Outage.slack "hello" false Sample.w0)
    as (_ & _ & _ & H4).
  split; [exact (H1 eq_refl)|].
  rewrite (H4 None (snd (resolve_channel_id Outage.slack (Some "#shikigami") Sample.w0))
             eq_refl eq_refl eq_refl).
  reflexivity.
Defined.

(** X16 (a direct message that cannot be delivered is skipped).
    [_dm_user_if_enabled] returns after one [SKIP] line, without a
    request, when the DM toggle is off (whoever is configured) and when
    nobody is configured; when the person does not resolve it writes the
    [SKIP] line without asking to open a conversation; and when no
    conversation could be opened it writes the [SKIP] line and posts
    nothing. *)
Theorem dm_is_skipped
    (self : SlackClient) (enabled : bool) (who_label : string)
    (who_value : option string) (text : string) (w : world) :
  (enabled = false ->
   _dm_user_if_enabled self enabled who_label who_value text w
   = (Ret tt, add_log (log_line self "SKIP" ("dm:" +:+ who_label) text None
                         (Some (who_label +:+ "_DM=false"))) w))
  /\ (enabled = true -> truthy who_value = false ->
      _dm_user_if_enabled self enabled who_label who_value text w
      = (Ret tt, add_log (log_line self "SKIP" ("dm:" +:+ who_label) text None
                            (Some ("unset:" +:+ who_label))) w))
  /\ (forall uid w1,
        enabled = true -> truthy who_value = true ->
        resolve_user_id self who_value w = (Ret uid, w1) ->
        truthy uid = false ->
        _dm_user_if_enabled self enabled who_label who_value text w
        = (Ret tt, add_log (log_line self "SKIP" ("dm:" +:+ fmt_opt who_value) text
                              None (Some (who_label +:+ " not resolvable"))) w1))
  /\ (forall uid w1 dm w2,
        enabled = true -> truthy who_value = true ->
        resolve_user_id self who_value w = (Ret uid, w1) ->
        truthy uid = true ->
        dm_channel_for self (fmt_opt uid) w1 = (Ret dm, w2) ->
        truthy dm = false ->
        _dm_user_if_enabled self enabled who_label who_value text w
        = (Ret tt, add_log (log_line self "SKIP" ("dm:" +:+ fmt_opt uid) text None
                              (Some "could not open DM")) w2)).
Proof.
  refine (conj _ (conj _ (conj _ _))).
  - intros ->. reflexivity.
  - intros -> H. unfold _dm_user_if_enabled. rewrite H. reflexivity.
  - intros uid w1 -> H Hres Hu. unfold _dm_user_if_enabled. rewrite H. simpl.
    rewrite (bind_Ret _ _ _ _ _ Hres). rewrite Hu. reflexivity.
  - intros uid w1 dm w2 -> H Hres Hu Hdm Hd. unfold _dm_user_if_enabled.
    rewrite H. simpl. rewrite (bind_Ret _ _ _ _ _ Hres). rewrite Hu. simpl.
    rewrite (bind_Ret _ _ _ _ _ Hdm). rewrite Hd. reflexivity.
Qed.

Lemma dm_is_skipped_witness :
  dm_shikigami_manager Outage.slack "hello" Sample.w0
  = (Ret tt,
     add_log (LogInfo "[Slack SKIP] target=dm:SLACK_SHIKIGAMI_MANAGER dry_run=false text=hello (SLACK_SHIKIGAMI_MANAGER_DM=false)")
       Sample.w0)
  /\ logs (snd (dm_surgery_manager Outage.slack "hello" Sample.w0))
     = [LogInfo "[Slack ERROR] target=dm:U2 dry_run=false text=(conversations_open) (user_not_found)";
        LogInfo "[Slack SKIP] target=dm:U2 dry_run=false text=hello (could not open DM)"].
Proof.
  split.
  - exact (proj1 (dm_is_skipped Outage.slack false SlackEnv.SHIKIGAMI_MANAGER
                    (Some "@boss") "hello" Sample.w0) eq_refl).
  - destruct (dm_is_skipped Outage.slack true SlackEnv.SURGERY_MANAGER
                (Some "U2") "hello" Sample.w0) as (_ & _ & _ & H).
    unfold dm_surgery_manager.
    change (surgery_manager_dm (env Outage.slack)) with true.
    change (surgery_manager (env Outage.slack)) with (Some "U2").
    rewrite (H (Some "U2")
               (snd (resolve_user_id Outage.slack (Some "U2") Sample.w0))
               None
               (snd (dm_channel_for Outage.slack "U2"
                       (snd (resolve_user_id Outage.slack (Some "U2") Sample.w0))))
               eq_refl eq_refl eq_refl eq_refl eq_refl eq_refl).
    reflexivity.
Defined.

(** ** Dry runs *)

#[local] Instance no_new_post_preorder : PreOrder no_new_post.
Proof.
  split.
  - intros w. exists []. split; [now rewrite app_nil_r | constructor].
  - intros w1 w2 w3 (cs1 & H1 & F1) (cs2 & H2 & F2). exists (cs1 ++ cs2)%list.
    split; [rewrite H2, H1; now rewrite <- app_assoc | now apply Forall_app].
Qed.

Lemma no_post_same_calls w w' : calls w' = calls w -> no_new_post w w'.
Proof. intros H. exists []. split; [now rewrite app_nil_r | constructor]. Qed.

Lemma no_post_logger r : steps no_new_post id (logger r).
Proof. intros w. now apply no_post_same_calls. Qed.

Lemma no_post_get_calls : steps no_new_post id get_calls.
Proof. intros w. now apply no_post_same_calls. Qed.

Lemma no_post_emit_log self phase target text resolved extra :
  steps no_new_post id (_emit_log self phase target text resolved extra).
Proof. apply no_post_logger. Qed.

(** A request that is not a post. *)
Lemma no_post_api_request c :
  (forall chan text, c <> ChatPostMessage chan text) ->
  steps no_new_post id (api_request c).
Proof.
  intros Hc w. cbv [id]. exists [c]. split; [reflexivity|].
  constructor; [|constructor].
  destruct c as [cur|cur|u|chan text]; try exact I. now apply (Hc chan text).
Qed.

Lemma steps_lru_cached (R : relation world) `{!PreOrder R} get set f k :
  (forall c w, R w (set c w)) ->
  steps R id f -> steps R id (lru_cached get set f k).
Proof.
  intros Hset Hf w. cbv [id]. unfold lru_cached.
  destruct (lru_lookup k (get w)); simpl; [apply Hset|].
  specialize (Hf w). cbv [id] in Hf.
  destruct (f w) as [[v|ex] w1]; simpl in *; [|exact Hf].
  etransitivity; [exact Hf | apply Hset].
Qed.

Ltac no_post_step :=
  first
    [ apply no_post_logger | apply no_post_get_calls | apply no_post_emit_log
    | apply no_post_api_request; discriminate
    | grows_step ].

Lemma no_post_scan_channels cname l :
  forall cursor, steps no_new_post id (scan_channels cname cursor l).
Proof.
  induction l as [items|items next rest IH|ex]; intros cursor; simpl;
    repeat no_post_step.
  apply IH.
Qed.

Lemma no_post_scan_users needle l :
  forall cursor, steps no_new_post id (scan_users needle cursor l).
Proof.
  induction l as [items|items next rest IH|ex]; intros cursor; simpl;
    repeat no_post_step.
  apply IH.
Qed.

(** In dry-run mode nothing under the helpers posts. *)
Lemma no_post_methods self :
  notify_dry_run (env self) = true -> respects self no_new_post.
Proof.
  intros Hdry. refine (conj _ (conj _ (conj _ (conj _ _)))).
  - apply no_post_logger.
  - intros chan text label w. cbv [id].
    apply no_post_same_calls.
    destruct (post_calls_and_outcome self chan text label w) as [Hc _].
    rewrite Hc, Hdry, !andb_false_r. apply app_nil_r.
  - intros x. apply steps_lru_cached; [exact _ | intros; now apply no_post_same_calls |].
    unfold resolve_channel_id_body. repeat no_post_step.
    apply no_post_scan_channels.
  - intros x. apply steps_lru_cached; [exact _ | intros; now apply no_post_same_calls |].
    unfold resolve_user_id_body. repeat no_post_step.
    apply no_post_scan_users.
  - intros x. apply steps_lru_cached; [exact _ | intros; now apply no_post_same_calls |].
    unfold dm_channel_for_body. repeat no_post_step.
Qed.

(** X17 (a dry run posts nothing).  With the dry-run flag set, no
    [chat.postMessage] request is sent by any helper nor by the whole
    view, in the sweep as in the wiring test, with or without [force]:
    the request trace afterwards is the trace before, followed by
    requests none of which is a post, whatever was posted before.  (The
    lookups and [conversations.open] are still requested.) *)
Theorem dry_run_never_posts
    (self : SlackClient) (fw : flask_runtime) (db : record_store)
    (force run_test : bool) (today : Z) (w : world) :
  notify_dry_run (env self) = true ->
  let quiet (w' : world) :=
    exists cs,
      calls w' = (calls w ++ cs)%list
      /\ Forall (fun c => match c with ChatPostMessage _ _ => False | _ => True end)
           cs in
  (forall text ping, quiet (snd (send_to_surgery_channel self text ping w)))
  /\ (forall text ping, quiet (snd (send_to_shikigami_feed self text ping w)))
  /\ (forall text, quiet (snd (dm_surgery_manager self text w)))
  /\ (forall text, quiet (snd (dm_shikigami_manager self text w)))
  /\ quiet (snd (surgery_notification (self_id self) (env self) (client self)
                   fw db force run_test today w)).
Proof.
  intros Hdry quiet. pose proof (no_post_methods self Hdry) as Hr.
  subst quiet. cbv beta.
  refine (conj _ (conj _ (conj _ (conj _ _)))); intros.
  - exact (through_send_to_surgery_channel self _ Hr text ping w).
  - exact (through_send_to_shikigami_feed self _ Hr text ping w).
  - exact (through_dm_user_if_enabled self _ Hr _ _ _ text w).
  - exact (through_dm_user_if_enabled self _ Hr _ _ _ text w).
  - exact (through_view self _ Hr fw db force run_test today w).
Qed.

Lemma dry_run_never_posts_witness :
  let posted := add_call (ChatPostMessage "C3" "hello") Sample.w0 in
  exists cs,
    calls (snd (surgery_notification 0 (Sample.cfg true) Sample.svc Sample.fw
                  Sample.db true false Sample.today posted))
    = (ChatPostMessage "C3" "hello" :: cs)
    /\ Forall (fun c => match c with ChatPostMessage _ _ => False | _ => True end) cs.
Proof.
  intros posted.
  destruct (dry_run_never_posts (Sample.slack true) Sample.fw Sample.db true false
              Sample.today posted eq_refl) as (_ & _ & _ & _ & Hview).
  exact Hview.
Defined.

(** ** The counters of the sweep *)

Lemma SlackClient_init_returns id cfg svc w :
  exists w0,
    SlackClient_init id cfg svc w
    = (Ret {| self_id := id; env := cfg; client := svc |}, w0).
Proof.
  unfold SlackClient_init. unfold_monad. destruct (negb _); simpl; eauto.
Qed.

Lemma notify_entry_fetch_raise slack fw db force today e ex (s : frame) :
  fetch_statuses db e = Raise ex ->
  notify_entry slack fw db force today e s = (Raise ex, s).
Proof. intros H. unfold notify_entry. unfold_monad. now rewrite H. Qed.

(** What one record does to the counters when its status rows can be
    fetched: a due record counts as sent, with its note, or as an error;
    any other record counts as skipped, with a note. *)
Lemma notify_entry_tally slack fw db force today e sts (s : frame) :
  fetch_statuses db e = Ret sts ->
  exists s',
    notify_entry slack fw db force today e s = (Ret tt, s')
    /\ if is_due db force today e
       then fst s' = {| sent := S (sent (fst s)); skipped := skipped (fst s);
                        errors := errors (fst s);
                        notes := notes (fst s)
                                 ++ [sent_note force e (today - date e)] |}
            \/ fst s' = {| sent := sent (fst s); skipped := skipped (fst s);
                           errors := S (errors (fst s)); notes := notes (fst s) |}
       else exists note,
              fst s' = {| sent := sent (fst s); skipped := S (skipped (fst s));
                          errors := errors (fst s);
                          notes := notes (fst s) ++ [note] |}.
Proof.
  intros Hst. unfold is_due. rewrite Hst.
  destruct sts as [|status rest].
  - rewrite (notify_entry_no_status slack fw db force today e s Hst).
    eexists. split; [reflexivity|]. simpl. eauto.
  - destruct (in_window (today - date e)) eqn:Hwin.
    + apply in_window_true in Hwin.
      rewrite (notify_entry_in_window slack fw db force today e status rest s Hst Hwin).
      simpl andb. destruct (should_send _ _ _).
      * destruct (send_reminder slack (base_msg fw e) s) as [[[]|ex] s1] eqn:Hrem.
        -- rewrite (dispatch_sent slack fw force e _ s s1 Hrem).
           eexists. split; [reflexivity|]. simpl. now left.
        -- rewrite (dispatch_failed slack fw force e _ s s1 ex Hrem).
           pose proof (send_reminder_tally slack (base_msg fw e) s) as Ht.
           rewrite Hrem in Ht. simpl in Ht.
           destruct (send_failed_returns slack ex s1) as (w' & Hf & _).
           rewrite Hf. eexists. split; [reflexivity|]. simpl. rewrite Ht. now right.
      * rewrite skip_by_flags_eq. eexists. split; [reflexivity|]. simpl. eauto.
    + apply in_window_false in Hwin.
      rewrite (notify_entry_out_of_window slack fw db force today e status rest s
                 Hst Hwin).
      eexists. split; [reflexivity|]. simpl. eauto.
Qed.

Lemma for_each_tally slack fw db force today (l : list entry) :
  (forall e, In e l -> exists sts, fetch_statuses db e = Ret sts) ->
  forall s : frame,
  exists s',
    for_each l (notify_entry slack fw db force today) s = (Ret tt, s')
    /\ (sent (fst s') + errors (fst s')
        = sent (fst s) + errors (fst s)
          + length (List.filter (is_due db force today) l))%nat
    /\ (skipped (fst s')
        = skipped (fst s)
          + length (List.filter (fun e => negb (is_due db force today e)) l))%nat.
Proof.
  induction l as [|e l IH]; intros Hok s.
  - exists s. simpl. repeat split; lia.
  - destruct (Hok e (or_introl eq_refl)) as [sts Hst].
    destruct (notify_entry_tally slack fw db force today e sts s Hst)
      as (s1 & Hn & Ht).
    destruct (IH (fun e' H => Hok e' (or_intror H)) s1) as (s' & Hf & H1 & H2).
    exists s'. simpl for_each. unfold_monad. rewrite Hn, Hf.
    split; [reflexivity|]. simpl List.filter.
    destruct (is_due db force today e); simpl negb; cbv iota; simpl length.
    + destruct Ht as [Ht|Ht]; rewrite Ht in H1, H2; simpl in H1, H2; lia.
    + destruct Ht as [note Ht]. rewrite Ht in H1, H2. simpl in H1, H2. lia.
Qed.

(** X18 (every record is counted once).  When the store answers every
    fetch, the sweep returns with, for each surgery fetched, one count:
    [sent] or [errors] for a record that is due (it has a status row, is
    one to three days old, and [force] is set or its flags are clear),
    [skipped] for any other; so the three counters add up to the number of
    surgeries. *)
Theorem sweep_counts_every_record
    (id : nat) (cfg : SlackEnvConfig) (svc : slack_service)
    (fw : flask_runtime) (db : record_store) (force : bool) (today : Z)
    (surgeries : list entry) (w : world) :
  fetch_surgeries db today (today - 4) = Ret surgeries ->
  (forall e, In e surgeries -> exists sts, fetch_statuses db e = Ret sts) ->
  exists s w',
    surgery_notification id cfg svc fw db force false today w = (Ret (SweepOk s), w')
    /\ (s_sent s + s_errors s
        = length (List.filter (is_due db force today) surgeries))%nat
    /\ (s_skipped s
        = length (List.filter (fun e => negb (is_due db force today e)) surgeries))%nat
    /\ (s_sent s + s_skipped s + s_errors s = length surgeries)%nat.
Proof.
  intros Hfetch Hok.
  destruct (SlackClient_init_returns id cfg svc w) as [w0 Hinit].
  set (slack := {| self_id := id; env := cfg; client := svc |}) in *.
  destruct (for_each_tally slack fw db force today surgeries Hok (tally0, w0))
    as (s' & Hloop & H1 & H2).
  unfold surgery_notification. unfold_monad. rewrite Hinit. fold slack.
  unfold with_locals, run_sweep, sweep. unfold_monad. rewrite Hfetch, Hloop.
  unfold get_tally, lift, logger. simpl.
  eexists. eexists. split; [reflexivity|]. simpl in *.
  split; [exact H1|]. split; [exact H2|].
  rewrite <- (List.filter_length (is_due db force today) surgeries). lia.
Qed.

Lemma sweep_counts_every_record_witness :
  exists s w',
    surgery_notification 0 (Sample.cfg true) Sample.svc Sample.fw Sample.db
      false false Sample.today Sample.w0 = (Ret (SweepOk s), w')
    /\ (s_sent s + s_errors s = 1)%nat /\ s_skipped s = 3%nat.
Proof.
  destruct (sweep_counts_every_record 0 (Sample.cfg true) Sample.svc Sample.fw
              Sample.db false Sample.today
              [Sample.e7; Sample.e8; Sample.e9; Sample.e10] Sample.w0)
    as (s & w' & Heq & H1 & H2 & _).
  - reflexivity.
  - intros e He. unfold Sample.db. simpl.
    destruct (Z.eqb (animal_id e) 7); [eauto|].
    destruct (Z.eqb (animal_id e) 8); [eauto|].
    destruct (Z.eqb (animal_id e) 9); eauto.
  - exists s, w'. split; [exact Heq|]. split; [exact H1 | exact H2].
Defined.

Lemma notes_counted_snoc t note :
  notes_counted t ->
  notes_counted {| sent := S (sent t); skipped := skipped t; errors := errors t;
                   notes := notes t ++ [note] |}
  /\ notes_counted {| sent := sent t; skipped := S (skipped t); errors := errors t;
                      notes := notes t ++ [note] |}
  /\ notes_counted {| sent := sent t; skipped := skipped t; errors := S (errors t);
                      notes := notes t |}.
Proof.
  unfold notes_counted. simpl. rewrite !length_app. simpl. lia.
Qed.

Lemma notify_entry_notes slack fw db force today e (s : frame) :
  notes_counted (fst s) ->
  notes_counted (fst (snd (notify_entry slack fw db force today e s))).
Proof.
  intros H. destruct (fetch_statuses db e) as [sts|ex] eqn:Hst.
  - destruct (notify_entry_tally slack fw db force today e sts s Hst)
      as (s' & Hn & Ht).
    rewrite Hn. simpl.
    destruct (is_due db force today e).
    + destruct (notes_counted_snoc (fst s) (sent_note force e (today - date e)) H)
        as (A & _ & C).
      destruct Ht as [-> | ->]; assumption.
    + destruct Ht as [note ->].
      now destruct (notes_counted_snoc (fst s) note H) as (_ & B & _).
  - now rewrite (notify_entry_fetch_raise slack fw db force today e ex s Hst).
Qed.

Lemma for_each_notes slack fw db force today (l : list entry) :
  forall s : frame,
    notes_counted (fst s) ->
    notes_counted (fst (snd (for_each l (notify_entry slack fw db force today) s))).
Proof.
  induction l as [|e l IH]; intros s H; [exact H|].
  simpl for_each. unfold_monad.
  pose proof (notify_entry_notes slack fw db force today e s H) as H1.
  destruct (notify_entry slack fw db force today e s) as [[[]|ex] s1];
    simpl in H1; [now apply IH | exact H1].
Qed.

(** X19 (one note for each record sent or skipped).  Whatever the store
    and the service do, the answer of the sweep has as many notes as
    [sent] and [skipped] together: a record sent or skipped leaves one
    note, an error leaves none. *)
Theorem notes_match_counters
    (id : nat) (cfg : SlackEnvConfig) (svc : slack_service)
    (fw : flask_runtime) (db : record_store) (force : bool) (today : Z)
    (w : world) :
  exists s w',
    surgery_notification id cfg svc fw db force false today w = (Ret (SweepOk s), w')
    /\ length (s_notes s) = (s_sent s + s_skipped s)%nat.
Proof.
  destruct (SlackClient_init_returns id cfg svc w) as [w0 Hinit].
  set (slack := {| self_id := id; env := cfg; client := svc |}) in *.
  destruct (run_sweep_returns slack fw db force today (tally0, w0))
    as (t & w1 & Hrun & Hrec).
  unfold surgery_notification. unfold_monad. rewrite Hinit. fold slack.
  unfold with_locals. rewrite Hrun. eexists. eexists. split; [reflexivity|].
  simpl. change (notes_counted t).
  unfold recovered, sweep in Hrec. unfold_monad.
  destruct (fetch_surgeries db today (today - 4)) as [surgeries|ex0].
  - pose proof (for_each_notes slack fw db force today surgeries (tally0, w0)
                  eq_refl) as Hn.
    destruct (for_each surgeries _ (tally0, w0)) as [[[]|ex] s1]; simpl in Hn.
    + rewrite <- Hrec in Hn. exact Hn.
    + destruct Hrec as (-> & _).
      now destruct (notes_counted_snoc (fst s1) "" Hn) as (_ & _ & C).
  - destruct Hrec as (-> & _). reflexivity.
Qed.

(** ** A record that cannot be evaluated *)

Lemma notify_entry_ext slack fw db db' force today e (s : frame) :
  (forall e', fetch_statuses db' e' = fetch_statuses db e') ->
  notify_entry slack fw db' force today e s
  = notify_entry slack fw db force today e s.
Proof. intros H. unfold notify_entry. now rewrite H. Qed.

Lemma for_each_ext {S A} (l : list A) (f g : A -> M S unit) :
  (forall a s, f a s = g a s) -> forall s, for_each l f s = for_each l g s.
Proof.
  intros H. induction l as [|a l IH]; intros s; [reflexivity|].
  simpl. unfold_monad. rewrite H. destruct (g a s) as [[[]|ex] s1]; auto.
Qed.

Lemma for_each_stops {S A} (pre rest : list A) (a : A) (f : A -> M S unit) :
  (forall s, exists ex, f a s = (Raise ex, s)) ->
  forall s, for_each (pre ++ a :: rest)%list f s = for_each (pre ++ [a])%list f s.
Proof.
  intros Hf. induction pre as [|b pre IH]; intros s; simpl; unfold_monad.
  - destruct (Hf s) as [ex ->]. reflexivity.
  - destruct (f b s) as [[[]|ex] s1]; [apply IH | reflexivity].
Qed.

(** X20 (a record whose status cannot be fetched ends the loop).  The
    loop over the surgeries stands under one [try]: when fetching the
    status rows of a record raises, the records after it are not
    evaluated.  The answer and the log of the sweep are those of a sweep
    over the surgeries up to that record. *)
Theorem failing_fetch_ends_the_loop
    (id : nat) (cfg : SlackEnvConfig) (svc : slack_service)
    (fw : flask_runtime) (db db' : record_store) (force : bool) (today : Z)
    (pre rest : list entry) (e : entry) (ex : exn) (w : world) :
  fetch_surgeries db today (today - 4) = Ret (pre ++ e :: rest)%list ->
  fetch_surgeries db' today (today - 4) = Ret (pre ++ [e])%list ->
  (forall e', fetch_statuses db' e' = fetch_statuses db e') ->
  fetch_statuses db e = Raise ex ->
  surgery_notification id cfg svc fw db force false today w
  = surgery_notification id cfg svc fw db' force false today w.
Proof.
  intros Hdb Hdb' Hsame Hraise.
  unfold surgery_notification. unfold_monad.
  destruct (SlackClient_init id cfg svc w) as [[slack|ex0] w0]; [|reflexivity].
  unfold with_locals, run_sweep, sweep. unfold_monad. rewrite Hdb, Hdb'.
  rewrite (for_each_ext (pre ++ [e]) (notify_entry slack fw db' force today)
             (notify_entry slack fw db force today));
    [|intros; now apply notify_entry_ext].
  rewrite (for_each_stops pre rest e (notify_entry slack fw db force today));
    [reflexivity|].
  intros s. exists ex. now apply notify_entry_fetch_raise.
Qed.

Lemma failing_fetch_ends_the_loop_witness :
  let slack := Sample.slack true in
  surgery_notification 0 (Sample.cfg true) Sample.svc Sample.fw
    (Outage.db [Sample.e7; Sample.e8; Sample.e9; Sample.e10]) false false
    Sample.today Sample.w0
  = surgery_notification 0 (Sample.cfg true) Sample.svc Sample.fw
      (Outage.db [Sample.e7; Sample.e8]) false false Sample.today Sample.w0.
Proof.
  intros slack.
  apply (failing_fetch_ends_the_loop 0 (Sample.cfg true) Sample.svc Sample.fw
           (Outage.db [Sample.e7; Sample.e8; Sample.e9; Sample.e10])
           (Outage.db [Sample.e7; Sample.e8]) false Sample.today
           [Sample.e7] [Sample.e9; Sample.e10] Sample.e8
           (OtherException "LostConnectionError") Sample.w0);
    reflexivity.
Defined.

(** ** The wiring test *)

(** X21 (the wiring test always answers).  With [?test=1] the view
    never raises.  After its opening log line it runs the three sends in
    order: the surgery channel with the channel pinged, the DM to the
    surgery manager, the copy to the feed.  When all three return, the
    answer is 200 with the dry-run flag and the test message, in the world
    the third send left.  When one raises, the sends after it are not
    run; the answer is 500 with the text of that exception, in the world
    that send left followed by the logged exception and by a DM to the
    manager of the feed, whose own failure is dropped. *)
Theorem wiring_test_always_answers
    (id : nat) (cfg : SlackEnvConfig) (svc : slack_service)
    (fw : flask_runtime) (db : record_store) (force : bool) (today : Z)
    (w : world) :
  let slack := {| self_id := id; env := cfg; client := svc |} in
  let msg := "[test] surgery notification logger check" in
  let started :=
    add_log (LogInfo ("[SurgeryNotify TEST] dry_run="
                      +:+ fmt_bool (notify_dry_run cfg) +:+ " -> " +:+ msg))
      (snd (SlackClient_init id cfg svc w)) in
  let failed (ex : exn) (w1 : world) :=
    snd (dm_shikigami_manager slack
           (":warning: Surgery notify test failed: " +:+ exn_str ex)
           (add_log (LogException ("[SurgeryNotify TEST] failed: " +:+ exn_str ex))
              w1)) in
  exists resp w',
    surgery_notification id cfg svc fw db force true today w = (Ret resp, w')
    /\ match send_to_surgery_channel slack msg true started with
       | (Raise ex, w1) =>
           resp = TestError (exn_str ex) /\ http_status resp = 500
           /\ w' = failed ex w1
       | (Ret _, w1) =>
           match dm_surgery_manager slack msg w1 with
           | (Raise ex, w2) =>
               resp = TestError (exn_str ex) /\ http_status resp = 500
               /\ w' = failed ex w2
           | (Ret _, w2) =>
               match send_to_shikigami_feed slack ("[surgery] " +:+ msg) false w2 with
               | (Raise ex, w3) =>
                   resp = TestError (exn_str ex) /\ http_status resp = 500
                   /\ w' = failed ex w3
               | (Ret _, w3) =>
                   resp = TestOk (notify_dry_run cfg) msg /\ http_status resp = 200
                   /\ w' = w3
               end
           end
       end.
Proof.
  intros slack msg started failed.
  destruct (SlackClient_init_returns id cfg svc w) as [w0 Hinit].
  fold slack in Hinit.
  assert (forall ex w1,
            (logger (LogException ("[SurgeryNotify TEST] failed: " +:+ exn_str ex));;
             try_pass (dm_shikigami_manager slack
                         (":warning: Surgery notify test failed: " +:+ exn_str ex));;
             mret (TestError (exn_str ex))) w1
            = (Ret (TestError (exn_str ex)), failed ex w1)) as Hfail.
  { intros ex w1. subst failed. unfold_monad. unfold logger. simpl.
    destruct (dm_shikigami_manager slack _ _) as [[[]|ex'] w2]; reflexivity. }
  subst started. rewrite Hinit. simpl snd.
  unfold surgery_notification.
  rewrite (bind_Ret _ _ _ _ _ Hinit). cbv iota.
  unfold run_test_mode.
  match goal with
  | |- context [mbind _ (logger ?r)] =>
      rewrite (bind_Ret (logger r) _ w0 tt (add_log r w0) eq_refl)
  end.
  change (env slack) with cfg. fold msg.
  set (w1 := add_log _ w0). unfold try_except.
  unfold mbind at 1 2 3, M_bind, bind.
  destruct (send_to_surgery_channel slack msg true w1) as [[[]|ex] w2];
    [|rewrite Hfail; eexists; eexists; repeat split].
  destruct (dm_surgery_manager slack msg w2) as [[[]|ex] w3];
    [|rewrite Hfail; eexists; eexists; repeat split].
  destruct (send_to_shikigami_feed slack ("[surgery] " +:+ msg) false w3)
    as [[[]|ex] w4];
    [|rewrite Hfail; eexists; eexists; repeat split].
  eexists. eexists. repeat split.
Qed.

Lemma wiring_test_always_answers_witness :
  surgery_notification 0 (Sample.cfg false) Sample.svc Sample.fw Sample.db
    false true Sample.today Sample.w0
  = (Ret (TestError "channel_not_found"),
     {| logs :=
          [LogInfo "[SurgeryNotify TEST] dry_run=False -> [test] surgery notification logger check";
           LogInfo "[Slack PLAN] target=C1 resolved=C1 dry_run=false text=<!channel> [test] surgery notification logger check";
           LogInfo "[Slack ERROR] target=C1 resolved=C1 dry_run=false text=<!channel> [test] surgery notification logger check (channel_not_found)";
           LogException "[SurgeryNotify TEST] failed: channel_not_found";
           LogInfo "[Slack SKIP] target=dm:SLACK_SHIKIGAMI_MANAGER dry_run=false text=:warning: Surgery notify test failed: channel_not_found (unset:SLACK_SHIKIGAMI_MANAGER)"];
        calls :=
          [ChatPostMessage "C1" "<!channel> [test] surgery notification logger check"];
        channel_cache := [((0%nat, Some "C1"), Some "C1")];
        user_cache := []; dm_cache := [] |}).
Proof.
  destruct (wiring_test_always_answers 0 (Sample.cfg false) Sample.svc Sample.fw
              Sample.db false Sample.today Sample.w0)
    as (resp & w' & Heq & Hcase).
  vm_compute in Hcase. destruct Hcase as (-> & _ & ->). exact Heq.
Defined.

(** ** Escaping for HTML attributes *)

Lemma contains_app c (a b : string) :
  contains c (a +:+ b) = contains c a || contains c b.
Proof.
  induction a as [|x a IH]; [reflexivity|].
  change (contains c (String x (a +:+ b))
          = (Ascii.eqb x c || contains c a) || contains c b).
  simpl. rewrite IH. now rewrite orb_assoc.
Qed.

Lemma escape_json_no_quote s : contains dquote (escape_json s) = false.
Proof.
  induction s as [|a s IH]; [reflexivity|]. simpl.
  destruct (Ascii.eqb a dquote) eqn:Ha.
  - rewrite contains_app, IH. reflexivity.
  - simpl. now rewrite Ha, IH.
Qed.

Lemma escape_json_id s : contains dquote s = false -> escape_json s = s.
Proof.
  induction s as [|a s IH]; [reflexivity|]. simpl.
  destruct (Ascii.eqb a dquote); [discriminate|]. simpl. intros H. now rewrite IH.
Qed.

(** X22 ([escape_json]).  The escaped string has no double quote, so it
    can stand between the quotes of an HTML attribute; a string without
    double quotes is returned as it is, so escaping twice is escaping
    once; escaping goes through concatenation.  The ampersand is not
    escaped: a double quote and the text [&quot;] escape to the same
    string, so the escaping cannot be undone. *)
Theorem escape_json_properties (s t : string) :
  contains dquote (escape_json s) = false
  /\ (contains dquote s = false -> escape_json s = s)
  /\ escape_json (escape_json s) = escape_json s
  /\ escape_json (s +:+ t) = escape_json s +:+ escape_json t
  /\ escape_json (String dquote EmptyString) = escape_json "&quot;".
Proof.
  split; [apply escape_json_no_quote|]. split; [apply escape_json_id|].
  split; [apply escape_json_id, escape_json_no_quote|]. split; [|reflexivity].
  induction s as [|a s IH]; [reflexivity|].
  change (escape_json (String a (s +:+ t))
          = escape_json (String a s) +:+ escape_json t).
  simpl. rewrite IH. destruct (Ascii.eqb a dquote); reflexivity.
Qed.

Lemma escape_json_properties_witness :
  escape_json ("{" +:+ String dquote ("a" +:+ String dquote ": 1}"))
  = "{&quot;a&quot;: 1}"
  /\ escape_json "{a: 1}" = "{a: 1}".
Proof.
  split; [reflexivity|].
  exact (proj1 (proj2 (escape_json_properties "{a: 1}" "")) eq_refl).
Defined.

(** ** The configuration read from the environment *)

Lemma length_append (a b : string) :
  String.length (a +:+ b) = (String.length a + String.length b)%nat.
Proof.
  induction a as [|x a IH]; [reflexivity|].
  change (S (String.length (a +:+ b)) = S (String.length a + String.length b)).
  now rewrite IH.
Qed.

Lemma append_cons (x : ascii) (a b : string) :
  String x a +:+ b = String x (a +:+ b).
Proof. reflexivity. Qed.

Lemma reversed_app (a b : string) :
  reversed (a +:+ b) = reversed b +:+ reversed a.
Proof.
  induction a as [|x a IH].
  - change (reversed b = reversed b +:+ ""). now rewrite append_nil_r.
  - rewrite append_cons. simpl. rewrite IH. apply append_assoc.
Qed.

Lemma reversed_involutive (s : string) : reversed (reversed s) = s.
Proof.
  induction s as [|x s IH]; [reflexivity|].
  simpl. rewrite reversed_app, IH. reflexivity.
Qed.

Lemma length_reversed (s : string) : String.length (reversed s) = String.length s.
Proof.
  induction s as [|x s IH]; [reflexivity|].
  simpl. rewrite length_append, IH. simpl. lia.
Qed.

Lemma removeprefix_Some (p s r : string) :
  removeprefix p s = Some r <-> s = p +:+ r.
Proof.
  revert s. induction p as [|a p IH]; intros s.
  - simpl. change ("" +:+ r) with r. split; [now intros [= ->] | now intros ->].
  - rewrite append_cons. destruct s as [|b s]; simpl; [split; discriminate|].
    destruct (Ascii.eqb a b) eqn:Hab.
    + apply Ascii.eqb_eq in Hab as ->. rewrite IH.
      split; [now intros -> | now intros [= ->]].
    + split; [discriminate|]. intros [= -> _].
      now rewrite Ascii.eqb_refl in Hab.
Qed.

Lemma skip_space_Some (spaces : list string) (s r : string) :
  skip_space spaces s = Some r -> exists p, p ∈ spaces /\ s = p +:+ r.
Proof.
  induction spaces as [|q spaces IH]; [discriminate|]. simpl.
  destruct (removeprefix q s) as [r'|] eqn:Hq.
  - intros [= ->]. exists q. split; [left | now apply removeprefix_Some].
  - intros H. destruct (IH H) as (p & Hp & Hs). exists p. split; [now right | exact Hs].
Qed.

Lemma skip_space_None (spaces : list string) (s : string) :
  skip_space spaces s = None -> forall p t, p ∈ spaces -> s <> p +:+ t.
Proof.
  induction spaces as [|q spaces IH]; intros H p t Hp.
  - now apply elem_of_nil in Hp.
  - simpl in H. destruct (removeprefix q s) as [r|] eqn:Hq; [discriminate|].
    apply elem_of_cons in Hp as [-> | Hp]; [|now apply IH].
    intros Hs. apply removeprefix_Some in Hs. congruence.
Qed.

Lemma blanks_app (spaces : list string) (a b : string) :
  blanks spaces a -> blanks spaces b -> blanks spaces (a +:+ b).
Proof.
  intros Ha Hb. induction Ha as [|p s Hp Hs IH]; [exact Hb|].
  rewrite append_assoc. now constructor.
Qed.

Lemma blanks_one (spaces : list string) (p : string) :
  p ∈ spaces -> blanks spaces p.
Proof.
  intros Hp. rewrite <- (append_nil_r p). constructor; [exact Hp | constructor].
Qed.

Lemma blanks_reversed (spaces : list string) (l : string) :
  blanks (map reversed spaces) l -> blanks spaces (reversed l).
Proof.
  intros H. induction H as [|p s Hp Hs IH]; [constructor|].
  rewrite reversed_app. apply blanks_app; [exact IH|].
  apply list_elem_of_fmap in Hp as (q & -> & Hq).
  rewrite reversed_involutive. now apply blanks_one.
Qed.

(** Skipping spaces takes a string of spaces off the front, and with
    as many steps as the string has bytes no space is left there. *)
Lemma lstrip_spaces_spec (spaces : list string) :
  (forall p, p ∈ spaces -> p <> "") ->
  forall n s,
    (String.length s <= n)%nat ->
    exists l,
      s = l +:+ lstrip_spaces spaces n s
      /\ blanks spaces l
      /\ skip_space spaces (lstrip_spaces spaces n s) = None.
Proof.
  intros Hne. induction n as [|n IH]; intros s Hlen.
  - destruct s as [|a s]; [|simpl in Hlen; lia]. simpl.
    exists "". split; [reflexivity|]. split; [constructor|].
    destruct (skip_space spaces "") as [r|] eqn:Hs; [|reflexivity].
    apply skip_space_Some in Hs as (p & Hp & Hs).
    destruct p as [|a p]; [now apply Hne in Hp | discriminate].
  - simpl. destruct (skip_space spaces s) as [r|] eqn:Hs.
    + apply skip_space_Some in Hs as (p & Hp & ->).
      assert (String.length r <= n)%nat as Hr.
      { rewrite length_append in Hlen.
        destruct p as [|a p]; [now apply Hne in Hp | simpl in Hlen; lia]. }
      destruct (IH r Hr) as (l & Hl & Hb & Hnone).
      exists (p +:+ l). split; [rewrite append_assoc; now f_equal|].
      split; [now constructor | exact Hnone].
    + exists "". split; [reflexivity|]. split; [constructor | exact Hs].
Qed.

Lemma Forall_elem {A} (P : A -> Prop) (l : list A) :
  Forall P l -> forall x, x ∈ l -> P x.
Proof. intros H x Hx. now apply (proj1 (Forall_forall P l) H). Qed.

Lemma whitespace_nonempty (p : string) : p ∈ whitespace -> p <> "".
Proof.
  apply (Forall_elem (fun p => p <> "")). repeat constructor; discriminate.
Qed.

Lemma reversed_whitespace_nonempty (p : string) :
  p ∈ map reversed whitespace -> p <> "".
Proof.
  apply (Forall_elem (fun p => p <> "")). repeat constructor; discriminate.
Qed.

(** No whitespace character starts with another one: the first space
    found at the front of a string is the one that is there. *)
Lemma skip_space_whitespace (p s : string) :
  p ∈ whitespace -> skip_space whitespace (p +:+ s) = Some s.
Proof.
  revert p. apply (Forall_elem (fun p => skip_space whitespace (p +:+ s) = Some s)).
  repeat constructor.
Qed.

Lemma lstrip_spaces_blank (v : string) :
  blank v -> forall n, (String.length v <= n)%nat -> lstrip_spaces whitespace n v = "".
Proof.
  intros H. induction H as [|p s Hp Hs IH]; intros n Hlen.
  - destruct n; reflexivity.
  - rewrite length_append in Hlen.
    pose proof (whitespace_nonempty p Hp) as Hne.
    destruct n as [|n]; [destruct p; [congruence | simpl in Hlen; lia]|].
    change (lstrip_spaces whitespace (S n) (p +:+ s))
      with (match skip_space whitespace (p +:+ s) with
            | Some r => lstrip_spaces whitespace n r
            | None => p +:+ s
            end).
    rewrite (skip_space_whitespace p s Hp). apply IH.
    destruct p; [congruence | simpl in Hlen; lia].
Qed.

(** [strip] takes the whitespace off both ends, and only that. *)
Lemma strip_spec (v : string) : stripped_of v (strip v).
Proof.
  unfold strip, rstrip_ws, lstrip_ws.
  destruct (lstrip_spaces_spec whitespace whitespace_nonempty (String.length v) v
              (le_n _)) as (l & Hv & Hl & Hfront).
  set (m := lstrip_spaces whitespace (String.length v) v) in *.
  destruct (lstrip_spaces_spec (map reversed whitespace) reversed_whitespace_nonempty
              (String.length m) (reversed m)) as (r & Hm & Hr & Hback).
  { now rewrite length_reversed. }
  set (u := lstrip_spaces (map reversed whitespace) (String.length m) (reversed m))
    in *.
  assert (m = reversed u +:+ reversed r) as Hm'.
  { rewrite <- reversed_app, <- Hm. symmetry. apply reversed_involutive. }
  exists l, (reversed r). split; [now rewrite <- Hm'|]. split; [exact Hl|].
  split; [now apply blanks_reversed|].
  intros p t Hp. split; intros Hu.
  - apply (skip_space_None _ _ Hfront p (t +:+ reversed r) Hp).
    rewrite Hm', Hu. apply append_assoc.
  - apply (skip_space_None _ _ Hback (reversed p) (reversed t)).
    + apply list_elem_of_fmap. exists p. split; [reflexivity | exact Hp].
    + rewrite <- reversed_app, <- Hu. symmetry. apply reversed_involutive.
Qed.

Lemma strip_blank (v : string) : blank v -> strip v = "".
Proof.
  intros H. unfold strip, lstrip_ws.
  rewrite (lstrip_spaces_blank v H _ (le_n _)). reflexivity.
Qed.

Lemma strip_empty_blank (v : string) : strip v = "" -> blank v.
Proof.
  intros H. destruct (strip_spec v) as (l & r & Hv & Hl & Hr & _).
  rewrite H in Hv. change ("" +:+ r) with r in Hv. subst v.
  now apply blanks_app.
Qed.

Lemma getenv_label_spec environ name :
  stripped_of (default "" (environ !! name))
    (default "" (getenv_label environ name))
  /\ (getenv_label environ name = None <-> blank (default "" (environ !! name)))
  /\ getenv_label environ name <> Some "".
Proof.
  unfold getenv_label.
  pose proof (strip_spec (default "" (environ !! name))) as Hspec.
  pose proof (strip_blank (default "" (environ !! name))) as Hb.
  pose proof (strip_empty_blank (default "" (environ !! name))) as He.
  destruct (strip (default "" (environ !! name))) as [|a s]; simpl.
  - split; [exact Hspec|]. split; [|discriminate]. split; auto.
  - split; [exact Hspec|]. split; [|discriminate].
    split; [discriminate|]. intros H. apply Hb in H. discriminate.
Qed.

(** X23 (labels read from the environment are clean).  In the
    configuration that [from_env] builds, each of the four destination
    labels is the value of its variable (the empty string when the
    variable is missing) without the whitespace characters at its two
    ends: the value is a string of whitespace characters, the label, and
    a string of whitespace characters, and the label neither starts nor
    ends with a whitespace character.  The label is [None] exactly when
    the value is missing, empty or made of whitespace only, and is never
    the empty string, so a label is there exactly when it is truthy,
    which is what the helpers test.  The bot token is stripped in the
    same way. *)
Theorem from_env_labels_are_clean (environ : gmap string string) :
  let cfg := from_env environ in
  let clean (name : string) (label : option string) :=
    (exists l r,
       default "" (environ !! name) = l +:+ default "" label +:+ r
       /\ blanks whitespace l /\ blanks whitespace r
       /\ forall p t, p ∈ whitespace ->
                      default "" label <> p +:+ t /\ default "" label <> t +:+ p)
    /\ (label = None <-> blanks whitespace (default "" (environ !! name)))
    /\ label <> Some ""
    /\ truthy label = bool_decide (label <> None) in
  clean "SLACK_SHIKIGAMI_CHANNEL" (shikigami_channel cfg)
  /\ clean "SLACK_SHIKIGAMI_MANAGER" (shikigami_manager cfg)
  /\ clean "SLACK_SURGERY_CHANNEL" (surgery_channel cfg)
  /\ clean "SLACK_SURGERY_MANAGER" (surgery_manager cfg)
  /\ exists l r,
       default "" (environ !! "SLACK_BOT_TOKEN") = l +:+ bot_token cfg +:+ r
       /\ blanks whitespace l /\ blanks whitespace r
       /\ forall p t, p ∈ whitespace ->
                      bot_token cfg <> p +:+ t /\ bot_token cfg <> t +:+ p.
Proof.
  intros cfg clean.
  assert (forall name, clean name (getenv_label environ name)) as H.
  { intros name. destruct (getenv_label_spec environ name) as (Hs & Hnone & Hne).
    split; [exact Hs|]. split; [exact Hnone|]. split; [exact Hne|].
    destruct (getenv_label environ name) as [[|a r]|];
      [now contradiction Hne | reflexivity | reflexivity]. }
  refine (conj (H _) (conj (H _) (conj (H _) (conj (H _) _)))).
  exact (strip_spec (default "" (environ !! "SLACK_BOT_TOKEN"))).
Qed.

Lemma from_env_labels_are_clean_witness :
  let nbsp := utf8 [194; 160]%nat in
  let em_space := utf8 [226; 128; 131]%nat in
  let cfg := from_env
               {[ "SLACK_SURGERY_CHANNEL" := nbsp +:+ " #surgery" +:+ em_space +:+ " ";
                  "SLACK_SURGERY_MANAGER" := " " +:+ nbsp ]} in
  surgery_channel cfg = Some "#surgery"
  /\ surgery_manager cfg = None
  /\ blanks whitespace (" " +:+ nbsp).
Proof.
  intros nbsp em_space cfg.
  destruct (from_env_labels_are_clean
              {[ "SLACK_SURGERY_CHANNEL" := nbsp +:+ " #surgery" +:+ em_space +:+ " ";
                 "SLACK_SURGERY_MANAGER" := " " +:+ nbsp ]})
    as (_ & _ & _ & (_ & Hm & _) & _).
  fold cfg in Hm.
  assert (surgery_manager cfg = None) as Hnone by (vm_compute; reflexivity).
  refine (conj _ (conj Hnone _)); [vm_compute; reflexivity|].
  exact (proj1 Hm Hnone).
Defined.

(** X24 (a toggle that is set decides alone).  [_bool] falls back on
    its default only for a variable that is not set: a variable set to
    the empty string or to whitespace characters only reads as [False].
    So the DM toggles of the two managers, on when unset, are off when
    set to nothing, and the dry-run flag is off in both cases. *)
Theorem blank_toggle_is_off (environ : gmap string string) :
  let cfg := from_env environ in
  let is_blank (name : string) :=
    exists v, environ !! name = Some v /\ blanks whitespace v in
  (environ !! "SLACK_SURGERY_MANAGER_DM" = None -> surgery_manager_dm cfg = true)
  /\ (is_blank "SLACK_SURGERY_MANAGER_DM" -> surgery_manager_dm cfg = false)
  /\ (environ !! "SLACK_SHIKIGAMI_MANAGER_DM" = None -> shikigami_manager_dm cfg = true)
  /\ (is_blank "SLACK_SHIKIGAMI_MANAGER_DM" -> shikigami_manager_dm cfg = false)
  /\ (environ !! "SLACK_NOTIFY_DRY_RUN" = None \/ is_blank "SLACK_NOTIFY_DRY_RUN" ->
      notify_dry_run cfg = false).
Proof.
  intros cfg is_blank. subst cfg. unfold from_env, _bool. simpl.
  refine (conj _ (conj _ (conj _ (conj _ _)))).
  - unfold SlackEnv.SURGERY_MANAGER_DM. now intros ->.
  - unfold SlackEnv.SURGERY_MANAGER_DM. intros (v & -> & Hv).
    now rewrite (strip_blank v Hv).
  - unfold SlackEnv.SHIKIGAMI_MANAGER_DM. now intros ->.
  - unfold SlackEnv.SHIKIGAMI_MANAGER_DM. intros (v & -> & Hv).
    now rewrite (strip_blank v Hv).
  - unfold SlackEnv.NOTIFY_DRY_RUN. intros [-> | (v & -> & Hv)]; [reflexivity|].
    now rewrite (strip_blank v Hv).
Qed.

Lemma blank_toggle_is_off_witness :
  let nbsp := utf8 [194; 160]%nat in
  surgery_manager_dm (from_env {[ "SLACK_SURGERY_MANAGER_DM" := " " +:+ nbsp ]})
  = false
  /\ surgery_manager_dm (from_env ∅) = true
  /\ surgery_manager_dm (from_env {[ "SLACK_SURGERY_MANAGER_DM" := nbsp +:+ "Yes " ]})
     = true.
Proof.
  intros nbsp.
  destruct (blank_toggle_is_off {[ "SLACK_SURGERY_MANAGER_DM" := " " +:+ nbsp ]})
    as (_ & H2 & _).
  destruct (blank_toggle_is_off ∅) as (H1 & _).
  refine (conj (H2 _) (conj (H1 eq_refl) _)); [|vm_compute; reflexivity].
  exists (" " +:+ nbsp). split; [reflexivity|].
  change (" " +:+ nbsp) with (" " +:+ nbsp +:+ "").
  constructor; [repeat constructor|]. constructor; [repeat constructor | constructor].
Defined.

(** ** Where a service error comes from *)

Lemma bind_Raise_inv {S A B} (m : M S A) (k : A -> M S B) s ex s1 :
  (m ≫= k) s = (Raise ex, s1) ->
  m s = (Raise ex, s1) \/ exists a s', m s = (Ret a, s') /\ k a s' = (Raise ex, s1).
Proof.
  unfold_monad. destruct (m s) as [[a|ex'] s'] eqn:Hm; [eauto|].
  intros [= <- <-]. now left.
Qed.

Lemma last_snoc2 {A} (l : list A) (x y : A) : last (l ++ [x; y])%list = Some y.
Proof.
  change [x; y] with ([x] ++ [y])%list. rewrite app_assoc. apply last_snoc.
Qed.

(** A [SlackApiError] out of [_post] was requested and logged last. *)
Lemma post_raise_logged self chan text label w ex w1 :
  _post self chan text label w = (Raise ex, w1) ->
  is_SlackApiError ex = true ->
  last (calls w1) = Some (ChatPostMessage (fmt_opt chan) (fmt_opt text))
  /\ last (logs w1)
     = Some (log_line self "ERROR" label (fmt_opt text) chan (Some (error_extra ex))).
Proof.
  intros H Hs.
  pose proof (post_calls_and_outcome self chan text label w) as (Hc & Ho & _).
  pose proof (post_log_lines_eq self chan text label w) as Hl.
  rewrite H in Hc, Ho, Hl. simpl in Hc, Ho, Hl.
  destruct (truthy chan), (truthy text); simpl in *; try discriminate.
  destruct (notify_dry_run (env self)); simpl in *; [discriminate|].
  destruct (chat_postMessage _ _ _ _) as [resp|e]; [discriminate|].
  injection Ho as ->. rewrite Hs in Hl.
  rewrite Hc, Hl. split; [apply last_snoc | apply last_snoc2].
Qed.

(** X25 (a service error that reaches the view was logged).  When a
    helper raises [SlackApiError], the error comes from the post itself,
    never from resolving: the last request sent is the
    [chat.postMessage], and the last line of the log is its [ERROR] line
    with the error of the service. *)
Theorem helper_error_was_logged
    (self : SlackClient) (text : string) (ping : bool) (w w1 : world) (ex : exn) :
  is_SlackApiError ex = true ->
  let logged :=
    exists label chan msg,
      last (calls w1) = Some (ChatPostMessage chan msg)
      /\ last (logs w1)
         = Some (log_line self "ERROR" label msg (Some chan) (Some (error_extra ex))) in
  (send_to_surgery_channel self text ping w = (Raise ex, w1) -> logged)
  /\ (send_to_shikigami_feed self text ping w = (Raise ex, w1) -> logged)
  /\ (dm_surgery_manager self text w = (Raise ex, w1) -> logged)
  /\ (dm_shikigami_manager self text w = (Raise ex, w1) -> logged).
Proof.
  intros Hs logged.
  assert (forall chan msg label w0,
            truthy chan = true ->
            _post self chan (Some msg) label w0 = (Raise ex, w1) -> logged) as Hpost.
  { intros chan msg label w0 Hch H.
    destruct (post_raise_logged self chan (Some msg) label w0 ex w1 H Hs) as [Hc Hl].
    destruct chan as [c|]; [|discriminate].
    exists label, c, msg. split; assumption. }
  assert (forall who enabled label,
            _dm_user_if_enabled self enabled label who text w = (Raise ex, w1) ->
            logged) as Hdm.
  { intros who enabled label H. unfold _dm_user_if_enabled in H.
    destruct (negb enabled); [discriminate|].
    destruct (negb (truthy who)); [discriminate|].
    apply bind_Raise_inv in H as [H | (uid & w2 & _ & H)].
    { pose proof (resolvers_raise_other self who "" w ex) as (_ & Hu & _).
      rewrite H in Hu. specialize (Hu eq_refl). congruence. }
    destruct (negb (truthy uid)); [discriminate|].
    apply bind_Raise_inv in H as [H | (dm & w3 & _ & H)].
    { pose proof (resolvers_raise_other self who (fmt_opt uid) w2 ex) as (_ & _ & Hd).
      rewrite H in Hd. specialize (Hd eq_refl). congruence. }
    destruct (truthy dm) eqn:Hdmt; [|discriminate].
    simpl in H. eapply Hpost; eassumption. }
  refine (conj _ (conj _ (conj _ _))).
  - intros H. unfold send_to_surgery_channel in H.
    apply bind_Raise_inv in H as [H | (ch & w2 & _ & H)].
    { destruct (truthy (surgery_channel (env self))); [|discriminate].
      pose proof (resolvers_raise_other self (surgery_channel (env self)) "" w ex)
        as (Hc & _).
      rewrite H in Hc. specialize (Hc eq_refl). congruence. }
    destruct (truthy ch) eqn:Hch; [|discriminate].
    simpl in H. eapply Hpost; eassumption.
  - intros H. unfold send_to_shikigami_feed in H.
    apply bind_Raise_inv in H as [H | (ch & w2 & _ & H)].
    { destruct (truthy (shikigami_channel (env self))); [|discriminate].
      pose proof (resolvers_raise_other self (shikigami_channel (env self)) "" w ex)
        as (Hc & _).
      rewrite H in Hc. specialize (Hc eq_refl). congruence. }
    destruct (truthy ch) eqn:Hch; [|discriminate].
    simpl in H. eapply Hpost; eassumption.
  - apply Hdm.
  - apply Hdm.
Qed.

Lemma helper_error_was_logged_witness :
  let r := send_to_surgery_channel (Sample.slack false) "hello" true Sample.w0 in
  last (logs (snd r))
  = Some (LogInfo "[Slack ERROR] target=C1 resolved=C1 dry_run=false text=<!channel> hello (channel_not_found)").
Proof.
  intros r.
  destruct (helper_error_was_logged (Sample.slack false) "hello" true Sample.w0
              (snd r)
              (SlackApiError "channel_not_found" (Some (Some "channel_not_found")))
              eq_refl) as (H & _).
  destruct (H eq_refl) as (label & chan & msg & _ & Hl).
  reflexivity.
Defined.
